(** * HealthPay PayFac: settlement engine and payout pipeline

    A shallow embedding of the settlement calculation engine
    (settlement-engine service) and of the two payout services of the
    repository, with the properties the specification states about them.

    Conventions of the embedding
    - [Decimal] (decimal.js) values are exact rationals [Q]; the library's
      default precision of 20 significant digits is assumed not to be reached.
    - A JS [number] that carries money is an exact rational as well.
    - A [Date] is a number of milliseconds since the epoch, read in a local
      zone without offset or daylight saving.
    - Repositories are tables (lists of rows) of one [Store]; every service
      method is a computation in the monad [M], which threads the store and
      may throw.  A repository call and a call to the notification service
      do not throw; what the notification service was asked to send is kept
      in the store.
    - Row ids are numbers drawn from a counter of the store.
    - The world outside (clock, transfer services, random references,
      configuration, column defaults) is an [Env]; [new Date()] gives the
      same instant throughout one call. *)

From Stdlib Require Import ZArith QArith Qround Lqa List String Bool Lia.
Import ListNotations.

Local Open Scope string_scope.
Local Open Scope list_scope.
Local Open Scope Z_scope.

Infix "=s?" := String.eqb (at level 70, no associativity).

(* ================================================================== *)
(** ** JavaScript values *)

(** [x || d] on an optional number: [null], [undefined] and [0] are falsy. *)
Definition js_or_Z (x : option Z) (d : Z) : Z :=
  match x with
  | Some v => if v =? 0 then d else v
  | None => d
  end.

Definition js_or_Q (x : option Q) (d : Q) : Q :=
  match x with
  | Some v => if Qeq_bool v 0 then d else v
  | None => d
  end.

(** [a > b] on numbers. *)
Definition Qgt_bool (a b : Q) : bool := negb (Qle_bool a b).

(** Truthiness of an optional string ([null], [undefined] and the empty
    string are falsy). *)
Definition truthy_string (x : option string) : bool :=
  match x with
  | Some s => negb (s =s? "")
  | None => false
  end.

(* ================================================================== *)
(** ** Dates *)

(** A [Date] is its time value, milliseconds since the epoch.  The local
    time of the process is taken to be UTC: no offset and no daylight
    saving time enter [getDay], [getDate], [setHours] and [setDate]. *)
Module JSDate.

Definition Date := Z.

Definition msPerDay : Z := 86400000.

(** Days since 1970-01-01 (floor). *)
Definition dayNumber (d : Date) : Z := d / msPerDay.

(** [getDay()]: 0 is Sunday; the epoch was a Thursday. *)
Definition getDay (d : Date) : Z := (dayNumber d + 4) mod 7.

(** Year, month and day of month of a day number (proleptic Gregorian). *)
Definition civil_from_days (n : Z) : Z * Z * Z :=
  let z := n + 719468 in
  let era := z / 146097 in
  let doe := z - era * 146097 in
  let yoe := (doe - doe / 1460 + doe / 36524 - doe / 146096) / 365 in
  let doy := doe - (365 * yoe + yoe / 4 - yoe / 100) in
  let mp := (5 * doy + 2) / 153 in
  let d := doy - (153 * mp + 2) / 5 + 1 in
  let m := if mp <? 10 then mp + 3 else mp - 9 in
  let y := yoe + era * 400 in
  ((if m <=? 2 then y + 1 else y), m, d).

(** Day number of a calendar date. *)
Definition days_from_civil (y m d : Z) : Z :=
  let y' := if m <=? 2 then y - 1 else y in
  let era := y' / 400 in
  let yoe := y' - era * 400 in
  let mp := if m <=? 2 then m + 9 else m - 3 in
  let doy := (153 * mp + 2) / 5 + d - 1 in
  let doe := yoe * 365 + yoe / 4 - yoe / 100 + doy in
  era * 146097 + doe - 719468.

(** [new Date(y, m - 1, d)]: midnight of a calendar date. *)
Definition ofCivil (y m d : Z) : Date := days_from_civil y m d * msPerDay.

(** [getDate()]: day of the month. *)
Definition getDate (d : Date) : Z := snd (civil_from_days (dayNumber d)).

(** [setHours(h, m, s, ms)] *)
Definition setHours (d : Date) (h m s ms : Z) : Date :=
  dayNumber d * msPerDay + ((h * 60 + m) * 60 + s) * 1000 + ms.

(** [d.setDate(d.getDate() + n)] *)
Definition addDays (d : Date) (n : Z) : Date := d + n * msPerDay.

End JSDate.

Import JSDate.

(* ================================================================== *)
(** ** Entities *)

Definition Id := nat.
Bind Scope nat_scope with Id.

Record SubMerchant := mkSubMerchant {
  sm_id : Id;
  sm_merchantCode : string;
  sm_status : string;
  sm_settlementCycle : string;
  sm_settlementDayOfWeek : option Z;
  sm_settlementDayOfMonth : option Z;
  sm_reservePercentage : option Q;
  sm_reserveDays : option Z;
  sm_minimumPayoutAmount : option Q;
  sm_riskScore : option Z;
  sm_payoutMethod : string;
  sm_bankId : option string;
  sm_bankAccountNumber : option string;
  sm_bankAccountName : option string;
  sm_iban : option string;
  sm_instapayIpa : option string;
  sm_vodafoneCashNumber : option string
}.

Record Transaction := mkTransaction {
  tx_id : Id;
  tx_subMerchantId : Id;
  tx_status : string;
  tx_amount : Q;
  tx_processorFee : option Q;
  tx_platformFee : option Q;
  tx_netAmount : Q;
  tx_capturedAt : Date;
  tx_settlementId : option Id;
  tx_settledAt : option Date;
  tx_transactionReference : string;
  tx_paymentMethod : string
}.

Record Refund := mkRefund {
  rf_id : Id;
  rf_subMerchantId : Id;
  rf_status : string;
  rf_amount : Q;
  rf_refundFee : option Q;
  rf_netAmount : Q;
  rf_completedAt : Date;
  rf_settlementId : option Id;
  rf_refundReference : string
}.

Record Dispute := mkDispute {
  dp_id : Id;
  dp_subMerchantId : Id;
  dp_status : string;
  dp_amount : Q;
  dp_disputeFee : option Q;
  dp_resolvedAt : Date;
  dp_settlementId : option Id;
  dp_disputeReference : string;
  dp_reasonCode : string
}.

Record Reserve := mkReserve {
  rs_id : Id;
  rs_subMerchantId : Id;
  rs_settlementId : option Id;
  rs_reserveType : string;
  rs_amount : Q;
  rs_releaseDate : Date;
  rs_status : string;
  rs_releasedAt : option Date
}.

(** The members of [SettlementStatus] the services name. *)
Inductive SettlementStatus := ST_CALCULATED | ST_APPROVED | ST_ON_HOLD.

Record Settlement := mkSettlement {
  st_id : Id;
  st_settlementReference : string;
  st_subMerchantId : Id;
  st_settlementDate : Date;
  st_periodStart : Date;
  st_periodEnd : Date;
  st_grossSales : Q;
  st_grossRefunds : Q;
  st_grossDisputes : Q;
  st_grossAmount : Q;
  st_processorFees : Q;
  st_platformFees : Q;
  st_refundFees : Q;
  st_disputeFees : Q;
  st_totalFees : Q;
  st_reserveHeld : Q;
  st_reserveReleased : Q;
  st_netAmount : Q;
  st_transactionCount : nat;
  st_refundCount : nat;
  st_disputeCount : nat;
  st_status : SettlementStatus;
  st_calculatedAt : Date;
  st_approvedAt : option Date;
  st_approvedBy : option string;
  st_payoutId : option Id;
  st_adjustmentNotes : option string
}.

Record SettlementItem := mkSettlementItem {
  si_settlementId : Id;
  si_itemType : string;
  si_referenceId : option Id;
  si_referenceNumber : option string;
  si_description : string;
  si_grossAmount : Q;
  si_feeAmount : Q;
  si_netAmount : Q
}.

(** The members of [PayoutStatus] the services name. *)
Inductive PayoutStatus :=
  PENDING | APPROVED | PROCESSING | SENT | COMPLETED | FAILED | CANCELLED | RETURNED.

(** [PayoutMethod]; a value outside the enumeration reaches the [default]
    branches of the services. *)
Inductive PayoutMethod :=
  INSTAPAY | BANK_TRANSFER | WALLET | OTHER_METHOD (name : string).

(** The payload a rail attaches to a confirmation ([details], [data]). *)
Record Details := mkDetails {
  dt_reason : option string;
  dt_body : string
}.

Record Payout := mkPayout {
  po_id : Id;
  po_payoutReference : string;
  po_subMerchantId : Id;
  po_settlementId : option Id;
  po_amount : Q;
  po_fee : Q;
  po_netAmount : Q;
  po_payoutMethod : PayoutMethod;
  po_destinationBankId : option string;
  po_destinationAccountNumber : option string;
  po_destinationAccountName : option string;
  po_destinationIban : option string;
  po_destinationIpa : option string;
  po_destinationWalletNumber : option string;
  po_destinationWalletProvider : option string;
  po_status : PayoutStatus;
  po_scheduledDate : option Date;
  po_notes : option string;
  po_requiresApproval : bool;
  po_approvedAt : option Date;
  po_approvedBy : option string;
  po_initiatedAt : option Date;
  po_completedAt : option Date;
  po_batchId : option Id;
  po_processorReference : option string;
  po_processorStatus : option string;
  po_processorResponse : option Details;
  po_retryCount : Z;
  po_maxRetries : Z;
  po_failureCode : option string;
  po_failureMessage : option string
}.

Record PayoutBatch := mkPayoutBatch {
  pb_id : Id;
  pb_batchReference : string;
  pb_payoutMethod : PayoutMethod;
  pb_scheduledDate : Date;
  pb_totalAmount : Q;
  pb_totalFees : Q;
  pb_payoutCount : nat;
  pb_successfulCount : option nat;
  pb_failedCount : option nat;
  pb_status : string;
  pb_processedAt : option Date
}.

(** What the notification service was asked to send. *)
Inductive Notification :=
| SettlementNotification (subMerchant : SubMerchant) (settlement : Settlement)
| PayoutNotification (subMerchant : option SubMerchant) (payout : Payout)
                     (kind : string)
| PayoutFailureAlert (payout : Payout).

(* ================================================================== *)
(** ** The store and the service monad *)

Record Store := mkStore {
  subMerchants : list SubMerchant;
  transactions : list Transaction;
  refunds : list Refund;
  disputes : list Dispute;
  reserves : list Reserve;
  settlements : list Settlement;
  settlementItems : list SettlementItem;
  payouts : list Payout;
  payoutBatches : list PayoutBatch;
  notifications : list Notification;
  nextId : nat;
  extCalls : nat
}.

Definition with_transactions (f : list Transaction -> list Transaction) (s : Store) :=
  mkStore (subMerchants s) (f (transactions s)) (refunds s) (disputes s) (reserves s)
          (settlements s) (settlementItems s) (payouts s) (payoutBatches s)
          (notifications s) (nextId s) (extCalls s).

Definition with_refunds (f : list Refund -> list Refund) (s : Store) :=
  mkStore (subMerchants s) (transactions s) (f (refunds s)) (disputes s) (reserves s)
          (settlements s) (settlementItems s) (payouts s) (payoutBatches s)
          (notifications s) (nextId s) (extCalls s).

Definition with_disputes (f : list Dispute -> list Dispute) (s : Store) :=
  mkStore (subMerchants s) (transactions s) (refunds s) (f (disputes s)) (reserves s)
          (settlements s) (settlementItems s) (payouts s) (payoutBatches s)
          (notifications s) (nextId s) (extCalls s).

Definition with_reserves (f : list Reserve -> list Reserve) (s : Store) :=
  mkStore (subMerchants s) (transactions s) (refunds s) (disputes s) (f (reserves s))
          (settlements s) (settlementItems s) (payouts s) (payoutBatches s)
          (notifications s) (nextId s) (extCalls s).

Definition with_settlements (f : list Settlement -> list Settlement) (s : Store) :=
  mkStore (subMerchants s) (transactions s) (refunds s) (disputes s) (reserves s)
          (f (settlements s)) (settlementItems s) (payouts s) (payoutBatches s)
          (notifications s) (nextId s) (extCalls s).

Definition with_settlementItems (f : list SettlementItem -> list SettlementItem)
           (s : Store) :=
  mkStore (subMerchants s) (transactions s) (refunds s) (disputes s) (reserves s)
          (settlements s) (f (settlementItems s)) (payouts s) (payoutBatches s)
          (notifications s) (nextId s) (extCalls s).

Definition with_payouts (f : list Payout -> list Payout) (s : Store) :=
  mkStore (subMerchants s) (transactions s) (refunds s) (disputes s) (reserves s)
          (settlements s) (settlementItems s) (f (payouts s)) (payoutBatches s)
          (notifications s) (nextId s) (extCalls s).

Definition with_payoutBatches (f : list PayoutBatch -> list PayoutBatch) (s : Store) :=
  mkStore (subMerchants s) (transactions s) (refunds s) (disputes s) (reserves s)
          (settlements s) (settlementItems s) (payouts s) (f (payoutBatches s))
          (notifications s) (nextId s) (extCalls s).

Definition with_notifications (f : list Notification -> list Notification) (s : Store) :=
  mkStore (subMerchants s) (transactions s) (refunds s) (disputes s) (reserves s)
          (settlements s) (settlementItems s) (payouts s) (payoutBatches s)
          (f (notifications s)) (nextId s) (extCalls s).

Definition with_nextId (f : nat -> nat) (s : Store) :=
  mkStore (subMerchants s) (transactions s) (refunds s) (disputes s) (reserves s)
          (settlements s) (settlementItems s) (payouts s) (payoutBatches s)
          (notifications s) (f (nextId s)) (extCalls s).

Definition with_extCalls (f : nat -> nat) (s : Store) :=
  mkStore (subMerchants s) (transactions s) (refunds s) (disputes s) (reserves s)
          (settlements s) (settlementItems s) (payouts s) (payoutBatches s)
          (notifications s) (nextId s) (f (extCalls s)).

(** The result of an awaited call: a value, or a thrown [Error] with its
    message.  The store is threaded either way, so what was saved before a
    throw stays saved. *)
Inductive Outcome (A : Type) :=
| Ret (a : A)
| Throw (message : string).

Arguments Ret {A} a.
Arguments Throw {A} message.

Definition M (A : Type) : Type := Store -> Outcome A * Store.

Definition ret {A} (a : A) : M A := fun s => (Ret a, s).

Definition throw {A} (message : string) : M A := fun s => (Throw message, s).

Definition bind {A B} (m : M A) (k : A -> M B) : M B :=
  fun s =>
    match m s with
    | (Ret a, s') => k a s'
    | (Throw e, s') => (Throw e, s')
    end.

(** [try { body } catch (error) { handler(error.message) }] *)
Definition try_catch {A} (body : M A) (handler : string -> M A) : M A :=
  fun s =>
    match body s with
    | (Ret a, s') => (Ret a, s')
    | (Throw e, s') => handler e s'
    end.

Definition get : M Store := fun s => (Ret s, s).

Definition modify (f : Store -> Store) : M unit := fun s => (Ret tt, f s).

Declare Scope monad_scope.
Delimit Scope monad_scope with monad.
Notation "x <- m ;; k" := (bind m (fun x => k))
  (at level 61, m at next level, right associativity) : monad_scope.
Notation "m ;;; k" := (bind m (fun _ => k))
  (at level 61, right associativity) : monad_scope.
Local Open Scope monad_scope.

(** [for (const x of xs) { await body(x) }] *)
Fixpoint for_each {A} (xs : list A) (body : A -> M unit) : M unit :=
  match xs with
  | [] => ret tt
  | x :: rest => body x ;;; for_each rest body
  end.

(** The world outside the services. *)
Record RailResult := mkRailResult {
  rr_success : bool;
  rr_transactionId : option string;
  rr_message : option string
}.

Inductive RailResponse :=
| Resolved (result : RailResult)
| Rejected (message : string).

(** [now] is the instant [new Date()] returns during a call; [rail n] is the
    answer of the [n]-th call made to an external transfer service; [random]
    is the source of the random part of a generated reference;
    [defaultRetryCount] and [defaultMaxRetries] are the column defaults of a
    new Payout row; [payoutAutoApproveThreshold] is the configuration entry
    [PAYOUT_AUTO_APPROVE_THRESHOLD]; [numberPlus a b] is [a + b] on two JS
    numbers, the double nearest to the sum.  Amounts are kept as exact
    decimals here, so nothing is assumed of [numberPlus]: what is proved
    holds for every addition, that of binary doubles among them.  The
    environments of the examples take the exact sum. *)
Record Env := mkEnv {
  now : Date;
  rail : nat -> RailResponse;
  random : nat -> string;
  defaultRetryCount : Z;
  defaultMaxRetries : Z;
  payoutAutoApproveThreshold : option Q;
  numberPlus : Q -> Q -> Q
}.

(** One call to an external transfer service. *)
Definition callRail (env : Env) : M RailResult :=
  fun s =>
    let s' := with_extCalls S s in
    match rail env (extCalls s) with
    | Resolved r => (Ret r, s')
    | Rejected e => (Throw e, s')
    end.

Definition notify (n : Notification) : M unit :=
  modify (with_notifications (fun l => l ++ [n])).

Definition freshId : M Id :=
  fun s => (Ret (nextId s), with_nextId S s).

(** [update(criteria, partial)] on a table. *)
Definition update_where {A} (criteria : A -> bool) (partial : A -> A) (rows : list A)
  : list A :=
  map (fun r => if criteria r then partial r else r) rows.

(** [save(row)] of a loaded row: the row with that id is replaced. *)
Definition save_row {A} (key : A -> Id) (row : A) (rows : list A) : list A :=
  if existsb (fun r => Nat.eqb (key r) (key row)) rows
  then update_where (fun r => Nat.eqb (key r) (key row)) (fun _ => row) rows
  else rows ++ [row].

Definition option_Id_eqb (a : option Id) (b : Id) : bool :=
  match a with
  | Some x => Nat.eqb x b
  | None => false
  end.

Definition option_string_eqb (a : option string) (b : string) : bool :=
  match a with
  | Some x => x =s? b
  | None => false
  end.

Definition isNone {A} (a : option A) : bool :=
  match a with
  | Some _ => false
  | None => true
  end.

(* ================================================================== *)
(** ** Field assignment

    [set_f v r] is the row [r] after [r.f = v]. *)

Definition set_tx_settlementId (v : option Id) (r : Transaction) : Transaction :=
  mkTransaction (tx_id r) (tx_subMerchantId r) (tx_status r) (tx_amount r)
    (tx_processorFee r) (tx_platformFee r) (tx_netAmount r) (tx_capturedAt r) v
    (tx_settledAt r) (tx_transactionReference r) (tx_paymentMethod r).

Definition set_tx_settledAt (v : option Date) (r : Transaction) : Transaction :=
  mkTransaction (tx_id r) (tx_subMerchantId r) (tx_status r) (tx_amount r)
    (tx_processorFee r) (tx_platformFee r) (tx_netAmount r) (tx_capturedAt r)
    (tx_settlementId r) v (tx_transactionReference r) (tx_paymentMethod r).

Definition set_rf_settlementId (v : option Id) (r : Refund) : Refund :=
  mkRefund (rf_id r) (rf_subMerchantId r) (rf_status r) (rf_amount r) (rf_refundFee r)
    (rf_netAmount r) (rf_completedAt r) v (rf_refundReference r).

Definition set_dp_settlementId (v : option Id) (r : Dispute) : Dispute :=
  mkDispute (dp_id r) (dp_subMerchantId r) (dp_status r) (dp_amount r) (dp_disputeFee r)
    (dp_resolvedAt r) v (dp_disputeReference r) (dp_reasonCode r).

Definition set_rs_status (v : string) (r : Reserve) : Reserve :=
  mkReserve (rs_id r) (rs_subMerchantId r) (rs_settlementId r) (rs_reserveType r)
    (rs_amount r) (rs_releaseDate r) v (rs_releasedAt r).

Definition set_rs_releasedAt (v : option Date) (r : Reserve) : Reserve :=
  mkReserve (rs_id r) (rs_subMerchantId r) (rs_settlementId r) (rs_reserveType r)
    (rs_amount r) (rs_releaseDate r) (rs_status r) v.

Definition set_st_status (v : SettlementStatus) (r : Settlement) : Settlement :=
  mkSettlement (st_id r) (st_settlementReference r) (st_subMerchantId r)
    (st_settlementDate r) (st_periodStart r) (st_periodEnd r) (st_grossSales r)
    (st_grossRefunds r) (st_grossDisputes r) (st_grossAmount r) (st_processorFees r)
    (st_platformFees r) (st_refundFees r) (st_disputeFees r) (st_totalFees r)
    (st_reserveHeld r) (st_reserveReleased r) (st_netAmount r) (st_transactionCount r)
    (st_refundCount r) (st_disputeCount r) v (st_calculatedAt r) (st_approvedAt r)
    (st_approvedBy r) (st_payoutId r) (st_adjustmentNotes r).

Definition set_st_approvedAt (v : option Date) (r : Settlement) : Settlement :=
  mkSettlement (st_id r) (st_settlementReference r) (st_subMerchantId r)
    (st_settlementDate r) (st_periodStart r) (st_periodEnd r) (st_grossSales r)
    (st_grossRefunds r) (st_grossDisputes r) (st_grossAmount r) (st_processorFees r)
    (st_platformFees r) (st_refundFees r) (st_disputeFees r) (st_totalFees r)
    (st_reserveHeld r) (st_reserveReleased r) (st_netAmount r) (st_transactionCount r)
    (st_refundCount r) (st_disputeCount r) (st_status r) (st_calculatedAt r) v
    (st_approvedBy r) (st_payoutId r) (st_adjustmentNotes r).

Definition set_st_approvedBy (v : option string) (r : Settlement) : Settlement :=
  mkSettlement (st_id r) (st_settlementReference r) (st_subMerchantId r)
    (st_settlementDate r) (st_periodStart r) (st_periodEnd r) (st_grossSales r)
    (st_grossRefunds r) (st_grossDisputes r) (st_grossAmount r) (st_processorFees r)
    (st_platformFees r) (st_refundFees r) (st_disputeFees r) (st_totalFees r)
    (st_reserveHeld r) (st_reserveReleased r) (st_netAmount r) (st_transactionCount r)
    (st_refundCount r) (st_disputeCount r) (st_status r) (st_calculatedAt r)
    (st_approvedAt r) v (st_payoutId r) (st_adjustmentNotes r).

Definition set_st_payoutId (v : option Id) (r : Settlement) : Settlement :=
  mkSettlement (st_id r) (st_settlementReference r) (st_subMerchantId r)
    (st_settlementDate r) (st_periodStart r) (st_periodEnd r) (st_grossSales r)
    (st_grossRefunds r) (st_grossDisputes r) (st_grossAmount r) (st_processorFees r)
    (st_platformFees r) (st_refundFees r) (st_disputeFees r) (st_totalFees r)
    (st_reserveHeld r) (st_reserveReleased r) (st_netAmount r) (st_transactionCount r)
    (st_refundCount r) (st_disputeCount r) (st_status r) (st_calculatedAt r)
    (st_approvedAt r) (st_approvedBy r) v (st_adjustmentNotes r).

Definition set_st_adjustmentNotes (v : option string) (r : Settlement) : Settlement :=
  mkSettlement (st_id r) (st_settlementReference r) (st_subMerchantId r)
    (st_settlementDate r) (st_periodStart r) (st_periodEnd r) (st_grossSales r)
    (st_grossRefunds r) (st_grossDisputes r) (st_grossAmount r) (st_processorFees r)
    (st_platformFees r) (st_refundFees r) (st_disputeFees r) (st_totalFees r)
    (st_reserveHeld r) (st_reserveReleased r) (st_netAmount r) (st_transactionCount r)
    (st_refundCount r) (st_disputeCount r) (st_status r) (st_calculatedAt r)
    (st_approvedAt r) (st_approvedBy r) (st_payoutId r) v.

Definition set_po_status (v : PayoutStatus) (r : Payout) : Payout :=
  mkPayout (po_id r) (po_payoutReference r) (po_subMerchantId r) (po_settlementId r)
    (po_amount r) (po_fee r) (po_netAmount r) (po_payoutMethod r)
    (po_destinationBankId r) (po_destinationAccountNumber r)
    (po_destinationAccountName r) (po_destinationIban r) (po_destinationIpa r)
    (po_destinationWalletNumber r) (po_destinationWalletProvider r) v
    (po_scheduledDate r) (po_notes r) (po_requiresApproval r) (po_approvedAt r)
    (po_approvedBy r) (po_initiatedAt r) (po_completedAt r) (po_batchId r)
    (po_processorReference r) (po_processorStatus r) (po_processorResponse r)
    (po_retryCount r) (po_maxRetries r) (po_failureCode r) (po_failureMessage r).

Definition set_po_initiatedAt (v : option Date) (r : Payout) : Payout :=
  mkPayout (po_id r) (po_payoutReference r) (po_subMerchantId r) (po_settlementId r)
    (po_amount r) (po_fee r) (po_netAmount r) (po_payoutMethod r)
    (po_destinationBankId r) (po_destinationAccountNumber r)
    (po_destinationAccountName r) (po_destinationIban r) (po_destinationIpa r)
    (po_destinationWalletNumber r) (po_destinationWalletProvider r) (po_status r)
    (po_scheduledDate r) (po_notes r) (po_requiresApproval r) (po_approvedAt r)
    (po_approvedBy r) v (po_completedAt r) (po_batchId r) (po_processorReference r)
    (po_processorStatus r) (po_processorResponse r) (po_retryCount r) (po_maxRetries r)
    (po_failureCode r) (po_failureMessage r).

Definition set_po_completedAt (v : option Date) (r : Payout) : Payout :=
  mkPayout (po_id r) (po_payoutReference r) (po_subMerchantId r) (po_settlementId r)
    (po_amount r) (po_fee r) (po_netAmount r) (po_payoutMethod r)
    (po_destinationBankId r) (po_destinationAccountNumber r)
    (po_destinationAccountName r) (po_destinationIban r) (po_destinationIpa r)
    (po_destinationWalletNumber r) (po_destinationWalletProvider r) (po_status r)
    (po_scheduledDate r) (po_notes r) (po_requiresApproval r) (po_approvedAt r)
    (po_approvedBy r) (po_initiatedAt r) v (po_batchId r) (po_processorReference r)
    (po_processorStatus r) (po_processorResponse r) (po_retryCount r) (po_maxRetries r)
    (po_failureCode r) (po_failureMessage r).

Definition set_po_batchId (v : option Id) (r : Payout) : Payout :=
  mkPayout (po_id r) (po_payoutReference r) (po_subMerchantId r) (po_settlementId r)
    (po_amount r) (po_fee r) (po_netAmount r) (po_payoutMethod r)
    (po_destinationBankId r) (po_destinationAccountNumber r)
    (po_destinationAccountName r) (po_destinationIban r) (po_destinationIpa r)
    (po_destinationWalletNumber r) (po_destinationWalletProvider r) (po_status r)
    (po_scheduledDate r) (po_notes r) (po_requiresApproval r) (po_approvedAt r)
    (po_approvedBy r) (po_initiatedAt r) (po_completedAt r) v (po_processorReference r)
    (po_processorStatus r) (po_processorResponse r) (po_retryCount r) (po_maxRetries r)
    (po_failureCode r) (po_failureMessage r).

Definition set_po_processorReference (v : option string) (r : Payout) : Payout :=
  mkPayout (po_id r) (po_payoutReference r) (po_subMerchantId r) (po_settlementId r)
    (po_amount r) (po_fee r) (po_netAmount r) (po_payoutMethod r)
    (po_destinationBankId r) (po_destinationAccountNumber r)
    (po_destinationAccountName r) (po_destinationIban r) (po_destinationIpa r)
    (po_destinationWalletNumber r) (po_destinationWalletProvider r) (po_status r)
    (po_scheduledDate r) (po_notes r) (po_requiresApproval r) (po_approvedAt r)
    (po_approvedBy r) (po_initiatedAt r) (po_completedAt r) (po_batchId r) v
    (po_processorStatus r) (po_processorResponse r) (po_retryCount r) (po_maxRetries r)
    (po_failureCode r) (po_failureMessage r).

Definition set_po_processorStatus (v : option string) (r : Payout) : Payout :=
  mkPayout (po_id r) (po_payoutReference r) (po_subMerchantId r) (po_settlementId r)
    (po_amount r) (po_fee r) (po_netAmount r) (po_payoutMethod r)
    (po_destinationBankId r) (po_destinationAccountNumber r)
    (po_destinationAccountName r) (po_destinationIban r) (po_destinationIpa r)
    (po_destinationWalletNumber r) (po_destinationWalletProvider r) (po_status r)
    (po_scheduledDate r) (po_notes r) (po_requiresApproval r) (po_approvedAt r)
    (po_approvedBy r) (po_initiatedAt r) (po_completedAt r) (po_batchId r)
    (po_processorReference r) v (po_processorResponse r) (po_retryCount r)
    (po_maxRetries r) (po_failureCode r) (po_failureMessage r).

Definition set_po_processorResponse (v : option Details) (r : Payout) : Payout :=
  mkPayout (po_id r) (po_payoutReference r) (po_subMerchantId r) (po_settlementId r)
    (po_amount r) (po_fee r) (po_netAmount r) (po_payoutMethod r)
    (po_destinationBankId r) (po_destinationAccountNumber r)
    (po_destinationAccountName r) (po_destinationIban r) (po_destinationIpa r)
    (po_destinationWalletNumber r) (po_destinationWalletProvider r) (po_status r)
    (po_scheduledDate r) (po_notes r) (po_requiresApproval r) (po_approvedAt r)
    (po_approvedBy r) (po_initiatedAt r) (po_completedAt r) (po_batchId r)
    (po_processorReference r) (po_processorStatus r) v (po_retryCount r)
    (po_maxRetries r) (po_failureCode r) (po_failureMessage r).

Definition set_po_retryCount (v : Z) (r : Payout) : Payout :=
  mkPayout (po_id r) (po_payoutReference r) (po_subMerchantId r) (po_settlementId r)
    (po_amount r) (po_fee r) (po_netAmount r) (po_payoutMethod r)
    (po_destinationBankId r) (po_destinationAccountNumber r)
    (po_destinationAccountName r) (po_destinationIban r) (po_destinationIpa r)
    (po_destinationWalletNumber r) (po_destinationWalletProvider r) (po_status r)
    (po_scheduledDate r) (po_notes r) (po_requiresApproval r) (po_approvedAt r)
    (po_approvedBy r) (po_initiatedAt r) (po_completedAt r) (po_batchId r)
    (po_processorReference r) (po_processorStatus r) (po_processorResponse r) v
    (po_maxRetries r) (po_failureCode r) (po_failureMessage r).

Definition set_po_failureCode (v : option string) (r : Payout) : Payout :=
  mkPayout (po_id r) (po_payoutReference r) (po_subMerchantId r) (po_settlementId r)
    (po_amount r) (po_fee r) (po_netAmount r) (po_payoutMethod r)
    (po_destinationBankId r) (po_destinationAccountNumber r)
    (po_destinationAccountName r) (po_destinationIban r) (po_destinationIpa r)
    (po_destinationWalletNumber r) (po_destinationWalletProvider r) (po_status r)
    (po_scheduledDate r) (po_notes r) (po_requiresApproval r) (po_approvedAt r)
    (po_approvedBy r) (po_initiatedAt r) (po_completedAt r) (po_batchId r)
    (po_processorReference r) (po_processorStatus r) (po_processorResponse r)
    (po_retryCount r) (po_maxRetries r) v (po_failureMessage r).

Definition set_po_failureMessage (v : option string) (r : Payout) : Payout :=
  mkPayout (po_id r) (po_payoutReference r) (po_subMerchantId r) (po_settlementId r)
    (po_amount r) (po_fee r) (po_netAmount r) (po_payoutMethod r)
    (po_destinationBankId r) (po_destinationAccountNumber r)
    (po_destinationAccountName r) (po_destinationIban r) (po_destinationIpa r)
    (po_destinationWalletNumber r) (po_destinationWalletProvider r) (po_status r)
    (po_scheduledDate r) (po_notes r) (po_requiresApproval r) (po_approvedAt r)
    (po_approvedBy r) (po_initiatedAt r) (po_completedAt r) (po_batchId r)
    (po_processorReference r) (po_processorStatus r) (po_processorResponse r)
    (po_retryCount r) (po_maxRetries r) (po_failureCode r) v.

Definition set_po_approvedAt (v : option Date) (r : Payout) : Payout :=
  mkPayout (po_id r) (po_payoutReference r) (po_subMerchantId r) (po_settlementId r)
    (po_amount r) (po_fee r) (po_netAmount r) (po_payoutMethod r)
    (po_destinationBankId r) (po_destinationAccountNumber r)
    (po_destinationAccountName r) (po_destinationIban r) (po_destinationIpa r)
    (po_destinationWalletNumber r) (po_destinationWalletProvider r) (po_status r)
    (po_scheduledDate r) (po_notes r) (po_requiresApproval r) v (po_approvedBy r)
    (po_initiatedAt r) (po_completedAt r) (po_batchId r) (po_processorReference r)
    (po_processorStatus r) (po_processorResponse r) (po_retryCount r) (po_maxRetries r)
    (po_failureCode r) (po_failureMessage r).

Definition set_po_approvedBy (v : option string) (r : Payout) : Payout :=
  mkPayout (po_id r) (po_payoutReference r) (po_subMerchantId r) (po_settlementId r)
    (po_amount r) (po_fee r) (po_netAmount r) (po_payoutMethod r)
    (po_destinationBankId r) (po_destinationAccountNumber r)
    (po_destinationAccountName r) (po_destinationIban r) (po_destinationIpa r)
    (po_destinationWalletNumber r) (po_destinationWalletProvider r) (po_status r)
    (po_scheduledDate r) (po_notes r) (po_requiresApproval r) (po_approvedAt r) v
    (po_initiatedAt r) (po_completedAt r) (po_batchId r) (po_processorReference r)
    (po_processorStatus r) (po_processorResponse r) (po_retryCount r) (po_maxRetries r)
    (po_failureCode r) (po_failureMessage r).

Definition set_po_notes (v : option string) (r : Payout) : Payout :=
  mkPayout (po_id r) (po_payoutReference r) (po_subMerchantId r) (po_settlementId r)
    (po_amount r) (po_fee r) (po_netAmount r) (po_payoutMethod r)
    (po_destinationBankId r) (po_destinationAccountNumber r)
    (po_destinationAccountName r) (po_destinationIban r) (po_destinationIpa r)
    (po_destinationWalletNumber r) (po_destinationWalletProvider r) (po_status r)
    (po_scheduledDate r) v (po_requiresApproval r) (po_approvedAt r) (po_approvedBy r)
    (po_initiatedAt r) (po_completedAt r) (po_batchId r) (po_processorReference r)
    (po_processorStatus r) (po_processorResponse r) (po_retryCount r) (po_maxRetries r)
    (po_failureCode r) (po_failureMessage r).

Definition set_pb_status (v : string) (r : PayoutBatch) : PayoutBatch :=
  mkPayoutBatch (pb_id r) (pb_batchReference r) (pb_payoutMethod r) (pb_scheduledDate r)
    (pb_totalAmount r) (pb_totalFees r) (pb_payoutCount r) (pb_successfulCount r)
    (pb_failedCount r) v (pb_processedAt r).

Definition set_pb_processedAt (v : option Date) (r : PayoutBatch) : PayoutBatch :=
  mkPayoutBatch (pb_id r) (pb_batchReference r) (pb_payoutMethod r) (pb_scheduledDate r)
    (pb_totalAmount r) (pb_totalFees r) (pb_payoutCount r) (pb_successfulCount r)
    (pb_failedCount r) (pb_status r) v.

Definition set_pb_successfulCount (v : option nat) (r : PayoutBatch) : PayoutBatch :=
  mkPayoutBatch (pb_id r) (pb_batchReference r) (pb_payoutMethod r) (pb_scheduledDate r)
    (pb_totalAmount r) (pb_totalFees r) (pb_payoutCount r) v (pb_failedCount r)
    (pb_status r) (pb_processedAt r).

Definition set_pb_failedCount (v : option nat) (r : PayoutBatch) : PayoutBatch :=
  mkPayoutBatch (pb_id r) (pb_batchReference r) (pb_payoutMethod r) (pb_scheduledDate r)
    (pb_totalAmount r) (pb_totalFees r) (pb_payoutCount r) (pb_successfulCount r) v
    (pb_status r) (pb_processedAt r).

(* ================================================================== *)
(** ** decimal.js *)

Module Decimal.

Abbreviation Decimal := Q (only parsing).

Definition plus (a b : Decimal) : Decimal := (a + b)%Q.
Definition minus (a b : Decimal) : Decimal := (a - b)%Q.
Definition times (a b : Decimal) : Decimal := (a * b)%Q.

Definition lessThan (a b : Decimal) : bool := negb (Qle_bool b a).
Definition lessThanOrEqualTo (a b : Decimal) : bool := Qle_bool a b.
Definition greaterThan (a b : Decimal) : bool := negb (Qle_bool a b).

(** Nearest integer, a tie going away from zero: the library's default
    rounding mode, [ROUND_HALF_UP]. *)
Definition roundHalfUp (q : Q) : Z :=
  if Qle_bool 0 q then Qfloor (q + (1 # 2)) else - Qfloor (- q + (1 # 2)).

Definition pow10 (dp : nat) : Z := 10 ^ Z.of_nat dp.

(** [toDecimalPlaces(dp)] *)
Definition toDecimalPlaces (q : Decimal) (dp : nat) : Decimal :=
  (inject_Z (roundHalfUp (q * inject_Z (pow10 dp))) / inject_Z (pow10 dp))%Q.

(** [toNumber()]; the binary rounding of the result is not modelled. *)
Definition toNumber (q : Decimal) : Q := q.


End Decimal.

(* ================================================================== *)
(** ** Data shared by the payout services *)

Record PayoutDestination := mkPayoutDestination {
  pd_bankId : option string;
  pd_accountNumber : option string;
  pd_accountName : option string;
  pd_iban : option string;
  pd_swiftCode : option string;
  pd_ipa : option string;
  pd_provider : option string;
  pd_number : option string
}.

Definition emptyDestination : PayoutDestination :=
  mkPayoutDestination None None None None None None None None.

Record CreatePayoutDto := mkCreatePayoutDto {
  dto_subMerchantId : Id;
  dto_settlementId : option Id;
  dto_amount : Q;
  dto_fee : option Q;
  dto_method : PayoutMethod;
  dto_destinationDetails : PayoutDestination;
  dto_scheduledDate : option Date;
  dto_notes : option string
}.

(** The string values of the enumerations, as the specification spells
    them; the entity files that declare them are not part of the sources. *)
Definition payoutStatusName (st : PayoutStatus) : string :=
  match st with
  | PENDING => "pending"
  | APPROVED => "approved"
  | PROCESSING => "processing"
  | SENT => "sent"
  | COMPLETED => "completed"
  | FAILED => "failed"
  | CANCELLED => "cancelled"
  | RETURNED => "returned"
  end.

Definition settlementStatusName (st : SettlementStatus) : string :=
  match st with
  | ST_CALCULATED => "calculated"
  | ST_APPROVED => "approved"
  | ST_ON_HOLD => "on_hold"
  end.

Definition payoutMethodName (m : PayoutMethod) : string :=
  match m with
  | INSTAPAY => "instapay"
  | BANK_TRANSFER => "bank_transfer"
  | WALLET => "wallet"
  | OTHER_METHOD name => name
  end.

Definition payoutMethodOfString (name : string) : PayoutMethod :=
  if name =s? "instapay" then INSTAPAY
  else if name =s? "bank_transfer" then BANK_TRANSFER
  else if name =s? "wallet" then WALLET
  else OTHER_METHOD name.

Definition payoutStatus_eqb (a b : PayoutStatus) : bool :=
  match a, b with
  | PENDING, PENDING | APPROVED, APPROVED | PROCESSING, PROCESSING
  | SENT, SENT | COMPLETED, COMPLETED | FAILED, FAILED
  | CANCELLED, CANCELLED | RETURNED, RETURNED => true
  | _, _ => false
  end.

(** Decimal digits of a number, zero padded to [width]. *)
Definition digitChar (d : Z) : string :=
  String (Ascii.ascii_of_N (Z.to_N (48 + d mod 10))) EmptyString.

Fixpoint digits (width : nat) (n : Z) : string :=
  match width with
  | O => EmptyString
  | S w => (digits w (n / 10) ++ digitChar n)%string
  end.

(** [date.toISOString().slice(0, 10).replace(/-/g, '')] *)
Definition dateStr (d : Date) : string :=
  let '(y, m, dd) := civil_from_days (dayNumber d) in
  (digits 4 y ++ digits 2 m ++ digits 2 dd)%string.

(** A generated reference: prefix, date, random part. *)
Definition generateReference (env : Env) (prefix : string) : M string :=
  fun s =>
    (Ret (prefix ++ "-" ++ dateStr (now env) ++ "-" ++ random env (nextId s))%string, s).

(** The [subMerchant] relation of a loaded Payout. *)
Definition subMerchantOf (s : Store) (subMerchantId : Id) : option SubMerchant :=
  find (fun m => Nat.eqb (sm_id m) subMerchantId) (subMerchants s).

Definition findPayoutByProcessorReference (reference : string) : M (option Payout) :=
  fun s =>
    (Ret (find (fun p => option_string_eqb (po_processorReference p) reference)
               (payouts s)), s).

Definition findPayoutById (payoutId : Id) : M (option Payout) :=
  fun s => (Ret (find (fun p => Nat.eqb (po_id p) payoutId) (payouts s)), s).

Definition savePayout (payout : Payout) : M unit :=
  modify (with_payouts (save_row po_id payout)).

Definition saveSettlement (settlement : Settlement) : M unit :=
  modify (with_settlements (save_row st_id settlement)).

Definition savePayoutBatch (batch : PayoutBatch) : M unit :=
  modify (with_payoutBatches (save_row pb_id batch)).

(** [a || d] on an optional string. *)
Definition js_or_string (a : option string) (d : string) : string :=
  match a with
  | Some v => if v =s? "" then d else v
  | None => d
  end.

(* ================================================================== *)
(** ** Objects used as maps, loops with results, ordered queries *)

(** A JS object used as a map from strings: its keys in insertion order. *)
Definition JsObject (V : Type) : Type := list (string * V).

(** [o[key]] *)
Fixpoint obj_get {V} (key : string) (o : JsObject V) : option V :=
  match o with
  | [] => None
  | (k, v) :: rest => if k =s? key then Some v else obj_get key rest
  end.

(** [o[key] = v]: an existing key keeps its place, a new key comes last. *)
Fixpoint obj_set {V} (key : string) (v : V) (o : JsObject V) : JsObject V :=
  match o with
  | [] => [(key, v)]
  | (k, w) :: rest =>
      if k =s? key then (k, v) :: rest else (k, w) :: obj_set key v rest
  end.

Definition obj_keys {V} (o : JsObject V) : list string := map fst o.

(** The callback both payout services pass to [reduce] to group payouts by
    method: [if (!groups[method]) groups[method] = [];
    groups[method].push(payout)]. *)
Definition pushToGroup (groups : JsObject (list Payout)) (payout : Payout)
  : JsObject (list Payout) :=
  let method := payoutMethodName (po_payoutMethod payout) in
  let groups :=
    match obj_get method groups with
    | None => obj_set method [] groups
    | Some _ => groups
    end in
  match obj_get method groups with
  | Some members => obj_set method (members ++ [payout]) groups
  | None => groups
  end.

(** A loop that carries local variables [b] from one iteration to the
    next. *)
Fixpoint foldM {A B} (body : B -> A -> M B) (xs : list A) (b : B) : M B :=
  match xs with
  | [] => ret b
  | x :: rest => b' <- body b x ;; foldM body rest b'
  end.

(** [order: { scheduledDate: 'ASC' }]; rows with the same date keep the
    order of the table. *)
Definition scheduledAt (p : Payout) : Date :=
  match po_scheduledDate p with
  | Some d => d
  | None => 0
  end.

Fixpoint insertByScheduledDate (p : Payout) (sorted : list Payout) : list Payout :=
  match sorted with
  | [] => [p]
  | q :: rest =>
      if scheduledAt q <=? scheduledAt p
      then q :: insertByScheduledDate p rest
      else p :: q :: rest
  end.

Definition orderByScheduledDate (rows : list Payout) : list Payout :=
  fold_left (fun sorted p => insertByScheduledDate p sorted) rows [].

(** [scheduledDate: LessThanOrEqual(today)]; a row without a date does not
    match. *)
Definition scheduledOnOrBefore (today : Date) (p : Payout) : bool :=
  match po_scheduledDate p with
  | Some d => d <=? today
  | None => false
  end.

(* ================================================================== *)
(** ** Payout service (src/payfac/payout/payout.service.ts) *)

Module PayoutService.

Record PayoutResult := mkPayoutResult {
  success : bool;
  payoutId : Id;
  processorReference : option string;
  error : option string
}.

(** What a method-specific transfer reports back to [processPayout]. *)
Record TransferOutcome := mkTransferOutcome {
  to_success : bool;
  to_reference : option string;
  to_error : option string
}.

Section WithEnv.

Variable env : Env.

Definition generatePayoutReference : M string := generateReference env "PO".

Definition requiresApproval (amount : Q) : bool :=
  let threshold :=
    match payoutAutoApproveThreshold env with
    | Some t => t
    | None => 50000%Q
    end in
  Qgt_bool amount threshold.

Definition extractDestinationDetails (method : PayoutMethod)
           (details : PayoutDestination) : PayoutDestination :=
  match method with
  | BANK_TRANSFER =>
      mkPayoutDestination (pd_bankId details) (pd_accountNumber details)
                          (pd_accountName details) (pd_iban details)
                          None None None None
  | INSTAPAY =>
      mkPayoutDestination None None None None None (pd_ipa details) None None
  | WALLET =>
      mkPayoutDestination None None None None None None
                          (pd_provider details) (pd_number details)
  | OTHER_METHOD _ => emptyDestination
  end.

(** [createPayout]; the row it builds carries no settlement id. *)
Definition createPayout (dto : CreatePayoutDto) : M Payout :=
  match dto_fee dto with
  | None => throw "[DecimalError] Invalid argument: undefined"
  | Some fee =>
      let netAmount :=
        Decimal.toNumber (Decimal.minus (dto_amount dto) fee) in
      reference <- generatePayoutReference ;;
      let dest :=
        extractDestinationDetails (dto_method dto) (dto_destinationDetails dto) in
      id <- freshId ;;
      let savedPayout :=
        mkPayout id reference (dto_subMerchantId dto) None
                 (dto_amount dto) fee netAmount (dto_method dto)
                 (pd_bankId dest) (pd_accountNumber dest) (pd_accountName dest)
                 (pd_iban dest) (pd_ipa dest) (pd_number dest) (pd_provider dest)
                 (if requiresApproval (dto_amount dto) then PENDING else APPROVED)
                 (dto_scheduledDate dto) (dto_notes dto)
                 (requiresApproval (dto_amount dto))
                 None None None None None None None None
                 (defaultRetryCount env) (defaultMaxRetries env) None None in
      savePayout savedPayout ;;;
      match dto_settlementId dto with
      | Some settlementId =>
          modify (with_settlements
                    (update_where (fun st => Nat.eqb (st_id st) settlementId)
                                  (set_st_payoutId (Some id))))
      | None => ret tt
      end ;;;
      ret savedPayout
  end.

Definition approvePayout (payoutId : Id) (approvedBy : string) : M Payout :=
  found <- findPayoutById payoutId ;;
  match found with
  | None => throw "Payout not found"
  | Some payout =>
      if negb (payoutStatus_eqb (po_status payout) PENDING)
      then throw ("Cannot approve payout in status: "
                    ++ payoutStatusName (po_status payout))%string
      else
        let payout :=
          set_po_approvedBy (Some approvedBy)
            (set_po_approvedAt (Some (now env))
               (set_po_status APPROVED payout)) in
        savePayout payout ;;;
        ret payout
  end.

Definition processInstapayPayout (payout : Payout) : M TransferOutcome :=
  try_catch
    (result <- callRail env ;;
     ret (mkTransferOutcome true (rr_transactionId result) None))
    (fun message => ret (mkTransferOutcome false None (Some message))).

Definition processBankTransferPayout (payout : Payout) : M TransferOutcome :=
  try_catch
    (result <- callRail env ;;
     ret (mkTransferOutcome true (rr_transactionId result) None))
    (fun message => ret (mkTransferOutcome false None (Some message))).

Definition processWalletPayout (payout : Payout) : M TransferOutcome :=
  ret (mkTransferOutcome false None (Some "Wallet payouts not yet implemented")).

(** [new Error(m).message] for an optional [m]. *)
Definition errorMessage (m : option string) : string :=
  match m with
  | Some e => e
  | None => EmptyString
  end.

(** [processPayout] *)
Definition processPayout (payoutId : Id) : M PayoutResult :=
  found <- findPayoutById payoutId ;;
  match found with
  | None => ret (mkPayoutResult false payoutId None (Some "Payout not found"))
  | Some payout =>
      if negb (payoutStatus_eqb (po_status payout) APPROVED)
      then ret (mkPayoutResult false payoutId None
                  (Some ("Invalid status: "
                           ++ payoutStatusName (po_status payout))%string))
      else
        let payout :=
          set_po_initiatedAt (Some (now env)) (set_po_status PROCESSING payout) in
        savePayout payout ;;;
        try_catch
          (result <-
             match po_payoutMethod payout with
             | INSTAPAY => processInstapayPayout payout
             | BANK_TRANSFER => processBankTransferPayout payout
             | WALLET => processWalletPayout payout
             | OTHER_METHOD name =>
                 throw ("Unsupported payout method: " ++ name)%string
             end ;;
           if to_success result
           then
             let payout :=
               set_po_processorStatus (Some "sent")
                 (set_po_processorReference (to_reference result)
                    (set_po_status SENT payout)) in
             savePayout payout ;;;
             s <- get ;;
             notify (PayoutNotification (subMerchantOf s (po_subMerchantId payout))
                                        payout "sent") ;;;
             ret (mkPayoutResult true (po_id payout) (to_reference result) None)
           else throw (errorMessage (to_error result)))
          (fun message =>
             let payout :=
               set_po_failureMessage (Some message)
                 (set_po_failureCode (Some "PROCESSING_ERROR")
                    (set_po_retryCount (po_retryCount payout + 1) payout)) in
             payout <-
               (if po_retryCount payout >=? po_maxRetries payout
                then
                  let payout := set_po_status FAILED payout in
                  notify (PayoutFailureAlert payout) ;;;
                  ret payout
                else ret (set_po_status APPROVED payout)) ;;
             savePayout payout ;;;
             ret (mkPayoutResult false (po_id payout) None (Some message)))
  end.

(** [confirmPayoutCompletion] *)
Definition confirmPayoutCompletion (processorReference : string) (status : string)
           (details : option Details) : M unit :=
  found <- findPayoutByProcessorReference processorReference ;;
  match found with
  | None => ret tt
  | Some payout =>
      s <- get ;;
      let subMerchant := subMerchantOf s (po_subMerchantId payout) in
      payout <-
        (if status =s? "completed"
         then
           let payout :=
             set_po_processorResponse details
               (set_po_processorStatus (Some "completed")
                  (set_po_completedAt (Some (now env))
                     (set_po_status COMPLETED payout))) in
           notify (PayoutNotification subMerchant payout "completed") ;;;
           ret payout
         else
           let reason :=
             match details with
             | Some d => dt_reason d
             | None => None
             end in
           let payout :=
             set_po_failureMessage (Some (js_or_string reason "Transfer failed"))
               (set_po_processorResponse details
                  (set_po_processorStatus (Some "failed")
                     (set_po_status FAILED payout))) in
           notify (PayoutFailureAlert payout) ;;;
           ret payout) ;;
      savePayout payout
  end.

(** [groupPayoutsByMethod] *)
Definition groupPayoutsByMethod (payouts : list Payout) : JsObject (list Payout) :=
  fold_left pushToGroup payouts [].

Definition generateBatchReference : M string := generateReference env "BAT".

(** The status [processPayoutBatch] derives from the two counts. *)
Definition batchStatus (successCount failedCount : nat) : string :=
  if Nat.eqb failedCount 0 then "completed"
  else if Nat.eqb successCount 0 then "failed"
  else "partially_completed".

(** [processPayoutBatch]; the delay between two payouts is not modelled. *)
Definition processPayoutBatch (method : PayoutMethod) (payouts : list Payout)
  : M unit :=
  let totalAmount := fold_left (fun sum p => numberPlus env sum (po_amount p)) payouts 0%Q in
  let totalFees := fold_left (fun sum p => numberPlus env sum (po_fee p)) payouts 0%Q in
  reference <- generateBatchReference ;;
  batchId <- freshId ;;
  let batch :=
    mkPayoutBatch batchId reference method (now env) totalAmount totalFees
                  (List.length payouts) None None "processing" None in
  savePayoutBatch batch ;;;
  modify (with_payouts
            (update_where
               (fun p => existsb (Nat.eqb (po_id p)) (map po_id payouts))
               (set_po_batchId (Some batchId)))) ;;;
  counts <-
    foldM (fun (counts : nat * nat) payout =>
             result <- processPayout (po_id payout) ;;
             ret (if success result
                  then (S (fst counts), snd counts)
                  else (fst counts, S (snd counts))))
          payouts (0%nat, 0%nat) ;;
  let batch :=
    set_pb_processedAt (Some (now env))
      (set_pb_status (batchStatus (fst counts) (snd counts))
         (set_pb_failedCount (Some (snd counts))
            (set_pb_successfulCount (Some (fst counts)) batch))) in
  savePayoutBatch batch.

(** [processScheduledPayouts] *)
Definition processScheduledPayouts : M unit :=
  let today := setHours (now env) 0 0 0 0 in
  s <- get ;;
  let pendingPayouts :=
    orderByScheduledDate
      (filter (fun p => payoutStatus_eqb (po_status p) APPROVED
                        && scheduledOnOrBefore today p)
              (payouts s)) in
  match pendingPayouts with
  | [] => ret tt
  | _ =>
      for_each (groupPayoutsByMethod pendingPayouts)
               (fun entry =>
                  processPayoutBatch (payoutMethodOfString (fst entry)) (snd entry))
  end.

(** [getPayoutById] *)
Definition getPayoutById (payoutId : Id) : M (option Payout) :=
  findPayoutById payoutId.

Record MethodSummary := mkMethodSummary {
  ms_count : nat;
  ms_amount : Q
}.

Record PendingPayoutSummary := mkPendingPayoutSummary {
  totalPending : nat;
  totalAmount : Q;
  byMethod : JsObject MethodSummary
}.

(** One turn of the loop of [getPendingPayoutSummary]:
    [if (!byMethod[m]) byMethod[m] = { count: 0, amount: 0 };
    byMethod[m].count++; byMethod[m].amount += payout.netAmount]. *)
Definition addToSummary (byMethod : JsObject MethodSummary) (payout : Payout)
  : JsObject MethodSummary :=
  let method := payoutMethodName (po_payoutMethod payout) in
  let byMethod :=
    match obj_get method byMethod with
    | None => obj_set method (mkMethodSummary 0 0) byMethod
    | Some _ => byMethod
    end in
  match obj_get method byMethod with
  | Some entry =>
      obj_set method
              (mkMethodSummary (S (ms_count entry))
                               (numberPlus env (ms_amount entry) (po_netAmount payout)))
              byMethod
  | None => byMethod
  end.

(** [getPendingPayoutSummary] *)
Definition getPendingPayoutSummary : M PendingPayoutSummary :=
  s <- get ;;
  let pending :=
    filter (fun p => payoutStatus_eqb (po_status p) PENDING
                     || payoutStatus_eqb (po_status p) APPROVED)
           (payouts s) in
  let byMethod := fold_left addToSummary pending [] in
  ret (mkPendingPayoutSummary
         (List.length pending)
         (fold_left (fun sum p => numberPlus env sum (po_netAmount p)) pending 0%Q)
         byMethod).
End WithEnv.

End PayoutService.

(* ================================================================== *)
(** ** Payout service with batching, retry sweep and webhook
       (src/unnamed/part_003, second file) *)

Module PayoutServiceBatched.

Record PayoutResult := mkPayoutResult {
  success : bool;
  payoutId : Id;
  processorReference : option string;
  status : PayoutStatus;
  message : option string
}.

Section WithEnv.

Variable env : Env.

Definition generatePayoutReference : M string := generateReference env "PAY".

Definition generateBatchReference : M string := generateReference env "BATCH".

Definition calculatePayoutFee (method : PayoutMethod) (amount : Q) : Q :=
  (match method with
   | INSTAPAY => 5
   | BANK_TRANSFER => if Qgt_bool amount 50000 then 25 else 10
   | WALLET => 3
   | OTHER_METHOD _ => 10
   end)%Q.

(** [createPayout] *)
Definition createPayout (dto : CreatePayoutDto) : M Payout :=
  let netAmount :=
    Decimal.toNumber (Decimal.minus (dto_amount dto) (js_or_Q (dto_fee dto) 0)) in
  reference <- generatePayoutReference ;;
  let fee :=
    match dto_fee dto with
    | Some f =>
        if Qeq_bool f 0
        then calculatePayoutFee (dto_method dto) (dto_amount dto)
        else f
    | None => calculatePayoutFee (dto_method dto) (dto_amount dto)
    end in
  let dest := dto_destinationDetails dto in
  let scheduledDate :=
    match dto_scheduledDate dto with
    | Some d => d
    | None => now env
    end in
  id <- freshId ;;
  let payout :=
    mkPayout id reference (dto_subMerchantId dto) (dto_settlementId dto)
             (dto_amount dto) fee netAmount (dto_method dto)
             (pd_bankId dest) (pd_accountNumber dest) (pd_accountName dest)
             (pd_iban dest) (pd_ipa dest) (pd_number dest) (pd_provider dest)
             PENDING (Some scheduledDate) (dto_notes dto) false
             None None None None None None None None
             (defaultRetryCount env) (defaultMaxRetries env) None None in
  savePayout payout ;;;
  ret payout.

Definition notifyPayoutSuccess (payout : Payout) : M unit :=
  s <- get ;;
  match subMerchantOf s (po_subMerchantId payout) with
  | Some subMerchant =>
      notify (PayoutNotification (Some subMerchant) payout "success")
  | None => ret tt
  end.

Definition notifyPayoutFailure (payout : Payout) : M unit :=
  s <- get ;;
  match subMerchantOf s (po_subMerchantId payout) with
  | Some subMerchant =>
      notify (PayoutNotification (Some subMerchant) payout "failed")
  | None => ret tt
  end.

Definition processInstapayPayout (payout : Payout) : M PayoutResult :=
  if negb (truthy_string (po_destinationIpa payout))
  then throw "InstaPay IPA address is required"
  else
    result <- callRail env ;;
    ret (mkPayoutResult (rr_success result) (po_id payout)
                        (rr_transactionId result)
                        (if rr_success result then COMPLETED else FAILED)
                        (rr_message result)).

Definition processBankTransferPayout (payout : Payout) : M PayoutResult :=
  result <- callRail env ;;
  ret (mkPayoutResult (rr_success result) (po_id payout)
                      (rr_transactionId result)
                      (if rr_success result then SENT else FAILED)
                      (rr_message result)).

Definition processWalletPayout (payout : Payout) : M PayoutResult :=
  result <- callRail env ;;
  ret (mkPayoutResult (rr_success result) (po_id payout)
                      (rr_transactionId result)
                      (if rr_success result then COMPLETED else FAILED)
                      (rr_message result)).

(** [processSinglePayout] *)
Definition processSinglePayout (payout : Payout) : M PayoutResult :=
  let payout :=
    set_po_initiatedAt (Some (now env)) (set_po_status PROCESSING payout) in
  savePayout payout ;;;
  try_catch
    (result <-
       match po_payoutMethod payout with
       | INSTAPAY => processInstapayPayout payout
       | BANK_TRANSFER => processBankTransferPayout payout
       | WALLET => processWalletPayout payout
       | OTHER_METHOD name =>
           throw ("Unsupported payout method: " ++ name)%string
       end ;;
     payout <-
       (if success result
        then
          let payout :=
            set_po_processorReference (processorReference result)
              (set_po_completedAt (Some (now env))
                 (set_po_status COMPLETED payout)) in
          notifyPayoutSuccess payout ;;;
          ret payout
        else
          let payout :=
            set_po_retryCount (po_retryCount payout + 1)
              (set_po_failureMessage (message result)
                 (set_po_status FAILED payout)) in
          (if po_retryCount payout >=? po_maxRetries payout
           then notifyPayoutFailure payout
           else ret tt) ;;;
          ret payout) ;;
     savePayout payout ;;;
     ret result)
    (fun errorMessage =>
       let payout :=
         set_po_retryCount (po_retryCount payout + 1)
           (set_po_failureMessage (Some errorMessage)
              (set_po_status FAILED payout)) in
       savePayout payout ;;;
       ret (mkPayoutResult false (po_id payout) None FAILED (Some errorMessage))).

(** The filter of the retry sweep. *)
Definition retriable (p : Payout) : bool := po_retryCount p <? po_maxRetries p.

(** [retryFailedPayouts] *)
Definition retryFailedPayouts : M unit :=
  s <- get ;;
  let failedPayouts :=
    filter (fun p => payoutStatus_eqb (po_status p) FAILED) (payouts s) in
  for_each (filter retriable failedPayouts)
           (fun payout =>
              try_catch (processSinglePayout payout ;;; ret tt)
                        (fun _ => ret tt)).

(** [processInstapayPayouts] *)
Definition processInstapayPayouts (payouts : list Payout) : M unit :=
  for_each payouts
           (fun payout =>
              try_catch (processSinglePayout payout ;;; ret tt)
                        (fun _ => ret tt)).

(** [processWalletPayouts] *)
Definition processWalletPayouts (payouts : list Payout) : M unit :=
  for_each payouts
           (fun payout =>
              try_catch (processSinglePayout payout ;;; ret tt)
                        (fun _ => ret tt)).

(** [processBankTransferBatch]; [members] are the rows as they were
    loaded, before the batch id was written to the table. *)
Definition processBankTransferBatch (members : list Payout) : M unit :=
  reference <- generateBatchReference ;;
  batchId <- freshId ;;
  let batch :=
    mkPayoutBatch batchId reference BANK_TRANSFER (now env)
                  (fold_left (fun sum p => numberPlus env sum (po_netAmount p))
                             members 0%Q)
                  (fold_left (fun sum p => numberPlus env sum (po_fee p)) members 0%Q)
                  (List.length members) None None "processing" None in
  savePayoutBatch batch ;;;
  modify (with_payouts
            (update_where
               (fun p => existsb (Nat.eqb (po_id p)) (map po_id members))
               (set_po_batchId (Some batchId)))) ;;;
  try_catch
    (batchResult <- callRail env ;;
     batch <-
       (if rr_success batchResult
        then
          let batch :=
            set_pb_processedAt (Some (now env)) (set_pb_status "processing" batch) in
          modify (with_payouts
                    (update_where
                       (fun p => option_Id_eqb (po_batchId p) batchId)
                       (set_po_status SENT))) ;;;
          ret batch
        else ret (set_pb_status "failed" batch)) ;;
     savePayoutBatch batch)
    (fun errorMessage =>
       savePayoutBatch (set_pb_status "failed" batch) ;;;
       for_each members
                (fun payout =>
                   savePayout
                     (set_po_retryCount (po_retryCount payout + 1)
                        (set_po_failureMessage (Some errorMessage)
                           (set_po_status FAILED payout))))).

Definition cancelPayout (payoutId : Id) (reason : string) : M Payout :=
  found <- findPayoutById payoutId ;;
  match found with
  | None => throw "Payout not found"
  | Some payout =>
      if negb (payoutStatus_eqb (po_status payout) PENDING)
      then throw ("Cannot cancel payout in status: "
                    ++ payoutStatusName (po_status payout))%string
      else
        let payout := set_po_notes (Some reason) (set_po_status CANCELLED payout) in
        savePayout payout ;;;
        ret payout
  end.

(** [data.reason || fallback]; reading [reason] of a missing payload
    throws. *)
Definition reasonOr (data : option Details) (fallback : string) : M string :=
  match data with
  | Some d => ret (js_or_string (dt_reason d) fallback)
  | None => throw "TypeError: Cannot read properties of undefined (reading 'reason')"
  end.

(** [handlePayoutWebhook] *)
Definition handlePayoutWebhook (provider reference status : string)
           (data : option Details) : M unit :=
  found <- findPayoutByProcessorReference reference ;;
  match found with
  | None => ret tt
  | Some payout =>
      payout <-
        (if (status =s? "completed") || (status =s? "success")
         then
           let payout :=
             set_po_completedAt (Some (now env)) (set_po_status COMPLETED payout) in
           notifyPayoutSuccess payout ;;;
           ret payout
         else if (status =s? "failed") || (status =s? "rejected")
         then
           reason <- reasonOr data "Payment failed" ;;
           let payout :=
             set_po_retryCount (po_retryCount payout + 1)
               (set_po_failureMessage (Some reason)
                  (set_po_status FAILED payout)) in
           (if po_retryCount payout >=? po_maxRetries payout
            then notifyPayoutFailure payout
            else ret tt) ;;;
           ret payout
         else if status =s? "returned"
         then
           reason <- reasonOr data "Payment returned" ;;
           let payout :=
             set_po_failureMessage (Some reason) (set_po_status RETURNED payout) in
           notifyPayoutFailure payout ;;;
           ret payout
         else ret payout) ;;
      savePayout (set_po_processorResponse data payout)
  end.

(** [groupByMethod] *)
Definition groupByMethod (payouts : list Payout) : JsObject (list Payout) :=
  fold_left pushToGroup payouts [].

(** [byMethod[m]?.length > 0] *)
Definition nonEmptyGroup (groups : JsObject (list Payout)) (method : PayoutMethod)
  : option (list Payout) :=
  match obj_get (payoutMethodName method) groups with
  | Some (p :: rest) => Some (p :: rest)
  | _ => None
  end.

(** [processScheduledPayouts] *)
Definition processScheduledPayouts : M unit :=
  let today := setHours (now env) 0 0 0 0 in
  s <- get ;;
  let pendingPayouts :=
    orderByScheduledDate
      (filter (fun p => payoutStatus_eqb (po_status p) PENDING
                        && scheduledOnOrBefore today p)
              (payouts s)) in
  match pendingPayouts with
  | [] => ret tt
  | _ =>
      let byMethod := groupByMethod pendingPayouts in
      match nonEmptyGroup byMethod INSTAPAY with
      | Some group => processInstapayPayouts group
      | None => ret tt
      end ;;;
      match nonEmptyGroup byMethod BANK_TRANSFER with
      | Some group => processBankTransferBatch group
      | None => ret tt
      end ;;;
      match nonEmptyGroup byMethod WALLET with
      | Some group => processWalletPayouts group
      | None => ret tt
      end
  end.

(** [getPayoutById] *)
Definition getPayoutById (payoutId : Id) : M (option Payout) :=
  findPayoutById payoutId.


Record PayoutStats := mkPayoutStats {
  totalPaid : Q;
  pendingAmount : Q;
  failedCount : nat;
  todayPaid : Q
}.

(** The [where] object of [getPayoutStats]: an id that is given restricts
    the rows to those of the sub-merchant. *)
Definition statsScope (subMerchantId : option Id) (p : Payout) : bool :=
  match subMerchantId with
  | Some id => Nat.eqb (po_subMerchantId p) id
  | None => true
  end.

(** [payout.completedAt >= :today]; a row without the date does not
    match. *)
Definition completedSince (today : Date) (p : Payout) : bool :=
  match po_completedAt p with
  | Some d => today <=? d
  | None => false
  end.

(** [SUM(netAmount)] over the selected rows, [|| 0] when there is none. *)
Definition sumNetAmount (rows : list Payout) : Q :=
  fold_left (fun sum p => (sum + po_netAmount p)%Q) rows 0%Q.

(** [getPayoutStats]; the query for [todayPaid] is built without the
    [where] object.  The sums are numbers here, whatever the database
    driver returns for them. *)
Definition getPayoutStats (subMerchantId : option Id) : M PayoutStats :=
  s <- get ;;
  let completed :=
    sumNetAmount
      (filter (fun p => statsScope subMerchantId p
                        && payoutStatus_eqb (po_status p) COMPLETED)
              (payouts s)) in
  let pending :=
    sumNetAmount
      (filter (fun p => statsScope subMerchantId p
                        && payoutStatus_eqb (po_status p) PENDING)
              (payouts s)) in
  let failedCount :=
    List.length
      (filter (fun p => statsScope subMerchantId p
                        && payoutStatus_eqb (po_status p) FAILED)
              (payouts s)) in
  let today := setHours (now env) 0 0 0 0 in
  let todayCompleted :=
    sumNetAmount
      (filter (fun p => payoutStatus_eqb (po_status p) COMPLETED
                        && completedSince today p)
              (payouts s)) in
  ret (mkPayoutStats completed pending failedCount todayCompleted).
End WithEnv.

End PayoutServiceBatched.

(* ================================================================== *)
(** ** Settlement engine (src/unnamed/part_006, first file) *)

Module SettlementEngine.

Record SettlementCalculation := mkSettlementCalculation {
  subMerchantId : Id;
  periodStart : Date;
  periodEnd : Date;
  grossSales : Decimal.Decimal;
  grossRefunds : Decimal.Decimal;
  grossDisputes : Decimal.Decimal;
  grossAmount : Decimal.Decimal;
  processorFees : Decimal.Decimal;
  platformFees : Decimal.Decimal;
  refundFees : Decimal.Decimal;
  disputeFees : Decimal.Decimal;
  totalFees : Decimal.Decimal;
  reserveHeld : Decimal.Decimal;
  reserveReleased : Decimal.Decimal;
  netAmount : Decimal.Decimal;
  transactionCount : nat;
  refundCount : nat;
  disputeCount : nat;
  calc_transactions : list Transaction;
  calc_refunds : list Refund;
  calc_disputes : list Dispute;
  releasableReserves : list Reserve
}.

(** [shouldSettleToday] *)
Definition shouldSettleToday (subMerchant : SubMerchant) (date : Date) : bool :=
  let dayOfWeek := getDay date in
  let dayOfMonth := getDate date in
  let cycle := sm_settlementCycle subMerchant in
  if (cycle =s? "D+0") || (cycle =s? "D+1") || (cycle =s? "D+2") || (cycle =s? "D+3")
  then true
  else if cycle =s? "WEEKLY"
  then dayOfWeek =? js_or_Z (sm_settlementDayOfWeek subMerchant) 0
  else if cycle =s? "BIWEEKLY"
  then (dayOfWeek =? js_or_Z (sm_settlementDayOfWeek subMerchant) 0)
       && ((dayOfMonth / 7) mod 2 =? 0)
  else if cycle =s? "MONTHLY"
  then dayOfMonth =? js_or_Z (sm_settlementDayOfMonth subMerchant) 1
  else true.

Definition getSettlementCycleDays (cycle : string) : Z :=
  if (cycle =s? "D+0") || (cycle =s? "D+1") || (cycle =s? "D+2") || (cycle =s? "D+3")
  then 1
  else if cycle =s? "WEEKLY" then 7
  else if cycle =s? "BIWEEKLY" then 14
  else if cycle =s? "MONTHLY" then 30
  else 1.

(** [getSettlementPeriod]; [setHours] and [setDate] work on the local time,
    taken to be UTC as in [JSDate]. *)
Definition getSettlementPeriod (subMerchant : SubMerchant) (settlementDate : Date)
  : Date * Date :=
  let periodEnd := setHours settlementDate 23 59 59 999 in
  let periodStart := setHours settlementDate 0 0 0 0 in
  let cycleDays := getSettlementCycleDays (sm_settlementCycle subMerchant) in
  (addDays periodStart (- cycleDays + 1), periodEnd).

(** [Between(lo, hi)] *)
Definition Between (lo hi x : Date) : bool := (lo <=? x) && (x <=? hi).

(** The loop over the transactions: gross sales, processor fees and
    platform fees. *)
Definition sumTransactions (txs : list Transaction) : Q * Q * Q :=
  fold_left
    (fun acc tx =>
       let '(grossSales, processorFees, platformFees) := acc in
       (Decimal.plus grossSales (tx_amount tx),
        Decimal.plus processorFees (js_or_Q (tx_processorFee tx) 0),
        Decimal.plus platformFees (js_or_Q (tx_platformFee tx) 0)))
    txs (0%Q, 0%Q, 0%Q).

Definition sumRefunds (rfs : list Refund) : Q * Q :=
  fold_left
    (fun acc refund =>
       let '(grossRefunds, refundFees) := acc in
       (Decimal.plus grossRefunds (rf_amount refund),
        Decimal.plus refundFees (js_or_Q (rf_refundFee refund) 0)))
    rfs (0%Q, 0%Q).

Definition sumDisputes (dps : list Dispute) : Q * Q :=
  fold_left
    (fun acc dispute =>
       let '(grossDisputes, disputeFees) := acc in
       (Decimal.plus grossDisputes (dp_amount dispute),
        Decimal.plus disputeFees (js_or_Q (dp_disputeFee dispute) 0)))
    dps (0%Q, 0%Q).

Definition sumReserves (rss : list Reserve) : Q :=
  fold_left (fun reserveReleased reserve => Decimal.plus reserveReleased (rs_amount reserve))
            rss 0%Q.

(** [calculateAmounts] *)
Definition calculateAmounts (subMerchantId : Id) (periodStart periodEnd : Date)
  : M SettlementCalculation :=
  s <- get ;;
  let transactions :=
    filter (fun t => Nat.eqb (tx_subMerchantId t) subMerchantId
                     && (tx_status t =s? "captured")
                     && isNone (tx_settlementId t)
                     && Between periodStart periodEnd (tx_capturedAt t))
           (transactions s) in
  let refunds :=
    filter (fun r => Nat.eqb (rf_subMerchantId r) subMerchantId
                     && (rf_status r =s? "completed")
                     && isNone (rf_settlementId r)
                     && Between periodStart periodEnd (rf_completedAt r))
           (refunds s) in
  let disputes :=
    filter (fun d => Nat.eqb (dp_subMerchantId d) subMerchantId
                     && (dp_status d =s? "lost")
                     && isNone (dp_settlementId d)
                     && Between periodStart periodEnd (dp_resolvedAt d))
           (disputes s) in
  let releasableReserves :=
    filter (fun r => Nat.eqb (rs_subMerchantId r) subMerchantId
                     && (rs_status r =s? "held")
                     && (rs_releaseDate r <=? periodEnd))
           (reserves s) in
  let '(grossSales, processorFees, platformFees) := sumTransactions transactions in
  let '(grossRefunds, refundFees) := sumRefunds refunds in
  let '(grossDisputes, disputeFees) := sumDisputes disputes in
  let reserveReleased := sumReserves releasableReserves in
  let grossAmount := Decimal.minus (Decimal.minus grossSales grossRefunds) grossDisputes in
  let totalFees :=
    Decimal.plus (Decimal.plus (Decimal.plus processorFees platformFees) refundFees)
                 disputeFees in
  let netBeforeReserve := Decimal.minus grossAmount totalFees in
  let reservePercentage :=
    match subMerchantOf s subMerchantId with
    | Some subMerchant => js_or_Q (sm_reservePercentage subMerchant) 0
    | None => 0%Q
    end in
  let reserveHeld :=
    Decimal.toDecimalPlaces (Decimal.times grossSales reservePercentage) 2 in
  let netAmount :=
    Decimal.plus (Decimal.minus netBeforeReserve reserveHeld) reserveReleased in
  ret (mkSettlementCalculation
         subMerchantId periodStart periodEnd
         grossSales grossRefunds grossDisputes grossAmount
         processorFees platformFees refundFees disputeFees totalFees
         reserveHeld reserveReleased netAmount
         (List.length transactions) (List.length refunds) (List.length disputes)
         transactions refunds disputes releasableReserves).

Section WithCollaborators.

Variable env : Env.

(** [payoutService.createPayout], injected. *)
Variable createPayout : CreatePayoutDto -> M Payout.

Definition generateSettlementReference : M string := generateReference env "STL".

(** [createSettlement] *)
Definition createSettlement (subMerchant : SubMerchant) (settlementDate : Date)
           (calculation : SettlementCalculation) : M Settlement :=
  reference <- generateSettlementReference ;;
  id <- freshId ;;
  let settlement :=
    mkSettlement id reference (sm_id subMerchant) settlementDate
      (periodStart calculation) (periodEnd calculation)
      (Decimal.toNumber (grossSales calculation))
      (Decimal.toNumber (grossRefunds calculation))
      (Decimal.toNumber (grossDisputes calculation))
      (Decimal.toNumber (grossAmount calculation))
      (Decimal.toNumber (processorFees calculation))
      (Decimal.toNumber (platformFees calculation))
      (Decimal.toNumber (refundFees calculation))
      (Decimal.toNumber (disputeFees calculation))
      (Decimal.toNumber (totalFees calculation))
      (Decimal.toNumber (reserveHeld calculation))
      (Decimal.toNumber (reserveReleased calculation))
      (Decimal.toNumber (netAmount calculation))
      (transactionCount calculation) (refundCount calculation)
      (disputeCount calculation)
      ST_CALCULATED (now env) None None None None in
  saveSettlement settlement ;;;
  ret settlement.

(** [createSettlementItems] *)
Definition createSettlementItems (settlement : Settlement)
           (calculation : SettlementCalculation) : M unit :=
  let items :=
    map (fun tx =>
           mkSettlementItem (st_id settlement) "transaction" (Some (tx_id tx))
             (Some (tx_transactionReference tx))
             ("Payment - " ++ tx_paymentMethod tx)%string
             (tx_amount tx)
             (numberPlus env (js_or_Q (tx_processorFee tx) 0)
                             (js_or_Q (tx_platformFee tx) 0))
             (tx_netAmount tx))
        (calc_transactions calculation)
    ++ map (fun refund =>
              mkSettlementItem (st_id settlement) "refund" (Some (rf_id refund))
                (Some (rf_refundReference refund)) "Refund"
                (- rf_amount refund)%Q
                (js_or_Q (rf_refundFee refund) 0)
                (- rf_netAmount refund)%Q)
           (calc_refunds calculation)
    ++ map (fun dispute =>
              mkSettlementItem (st_id settlement) "dispute" (Some (dp_id dispute))
                (Some (dp_disputeReference dispute))
                ("Dispute - " ++ dp_reasonCode dispute)%string
                (- dp_amount dispute)%Q
                (js_or_Q (dp_disputeFee dispute) 0)
                (- numberPlus env (dp_amount dispute)
                                  (js_or_Q (dp_disputeFee dispute) 0))%Q)
           (calc_disputes calculation)
    ++ (if Decimal.greaterThan (reserveHeld calculation) 0%Q
        then [mkSettlementItem (st_id settlement) "reserve" None None
                "Rolling reserve held" 0 0
                (- Decimal.toNumber (reserveHeld calculation))%Q]
        else [])
    ++ map (fun reserve =>
              mkSettlementItem (st_id settlement) "reserve" (Some (rs_id reserve))
                None "Rolling reserve released" 0 0 (rs_amount reserve))
           (releasableReserves calculation) in
  modify (with_settlementItems (fun rows => rows ++ items)).

Definition markTransactionsSettled (transactions : list Transaction)
           (settlementId : Id) : M unit :=
  match transactions with
  | [] => ret tt
  | _ =>
      modify (with_transactions
                (update_where
                   (fun t => existsb (Nat.eqb (tx_id t)) (map tx_id transactions))
                   (fun t => set_tx_settledAt (Some (now env))
                               (set_tx_settlementId (Some settlementId) t))))
  end.

Definition markRefundsSettled (refunds : list Refund) (settlementId : Id) : M unit :=
  match refunds with
  | [] => ret tt
  | _ =>
      modify (with_refunds
                (update_where
                   (fun r => existsb (Nat.eqb (rf_id r)) (map rf_id refunds))
                   (set_rf_settlementId (Some settlementId))))
  end.

Definition markDisputesSettled (disputes : list Dispute) (settlementId : Id)
  : M unit :=
  match disputes with
  | [] => ret tt
  | _ =>
      modify (with_disputes
                (update_where
                   (fun d => existsb (Nat.eqb (dp_id d)) (map dp_id disputes))
                   (set_dp_settlementId (Some settlementId))))
  end.

(** [processReserves] *)
Definition processReserves (subMerchant : SubMerchant) (settlement : Settlement)
           (calculation : SettlementCalculation) : M unit :=
  (if Decimal.greaterThan (reserveHeld calculation) 0%Q
   then
     let releaseDate :=
       addDays (now env) (js_or_Z (sm_reserveDays subMerchant) 90) in
     id <- freshId ;;
     modify (with_reserves
               (fun rows =>
                  rows ++ [mkReserve id (sm_id subMerchant) (Some (st_id settlement))
                             "rolling" (Decimal.toNumber (reserveHeld calculation))
                             releaseDate "held" None]))
   else ret tt) ;;;
  for_each (releasableReserves calculation)
           (fun reserve =>
              modify (with_reserves
                        (save_row rs_id
                           (set_rs_releasedAt (Some (now env))
                              (set_rs_status "released" reserve))))).

(** [shouldAutoApprove] *)
Definition shouldAutoApprove (subMerchant : SubMerchant) (netAmount : Decimal.Decimal)
  : bool :=
  let autoApproveThreshold := 50000%Q in
  match sm_riskScore subMerchant with
  | Some riskScore =>
      if negb (riskScore =? 0) && (riskScore >? 70)
      then false
      else Decimal.lessThanOrEqualTo netAmount autoApproveThreshold
  | None => Decimal.lessThanOrEqualTo netAmount autoApproveThreshold
  end.

Definition calculatePayoutFee (method : string) (amount : Q) : Q :=
  (if method =s? "bank_transfer" then 10
   else if method =s? "instapay" then 5
   else if method =s? "wallet" then 3
   else 10)%Q.

Definition getPayoutDestination (subMerchant : SubMerchant) : M PayoutDestination :=
  let method := sm_payoutMethod subMerchant in
  if method =s? "bank_transfer"
  then ret (mkPayoutDestination (sm_bankId subMerchant)
              (sm_bankAccountNumber subMerchant) (sm_bankAccountName subMerchant)
              (sm_iban subMerchant) None None None None)
  else if method =s? "instapay"
  then ret (mkPayoutDestination None None None None None
              (sm_instapayIpa subMerchant) None None)
  else if method =s? "wallet"
  then ret (mkPayoutDestination None None None None None None
              (Some "vodafone") (sm_vodafoneCashNumber subMerchant))
  else throw "Invalid payout method".

Definition getPayoutDate (settlementCycle : string) : Date :=
  let date := now env in
  if settlementCycle =s? "D+0" then date
  else if settlementCycle =s? "D+1" then addDays date 1
  else if settlementCycle =s? "D+2" then addDays date 2
  else if settlementCycle =s? "D+3" then addDays date 3
  else addDays date 1.

(** [createPayoutForSettlement]; it assigns [payoutId] on the settlement
    object it is given, which is returned with the payout. *)
Definition createPayoutForSettlement (settlement : Settlement)
  : M (Payout * Settlement) :=
  s <- get ;;
  match subMerchantOf s (st_subMerchantId settlement) with
  | None => throw "TypeError: Cannot read properties of null (reading 'payoutMethod')"
  | Some subMerchant =>
      let payoutFee :=
        calculatePayoutFee (sm_payoutMethod subMerchant) (st_netAmount settlement) in
      destination <- getPayoutDestination subMerchant ;;
      payout <-
        createPayout
          (mkCreatePayoutDto (sm_id subMerchant) (Some (st_id settlement))
             (st_netAmount settlement) (Some payoutFee)
             (payoutMethodOfString (sm_payoutMethod subMerchant))
             destination
             (Some (getPayoutDate (sm_settlementCycle subMerchant))) None) ;;
      let settlement := set_st_payoutId (Some (po_id payout)) settlement in
      saveSettlement settlement ;;;
      ret (payout, settlement)
  end.

(** [approveSettlement] *)
Definition approveSettlement (settlementId : Id) (approvedBy : string)
  : M Settlement :=
  s <- get ;;
  match find (fun st => Nat.eqb (st_id st) settlementId) (settlements s) with
  | None => throw "Settlement not found"
  | Some settlement =>
      match st_status settlement with
      | ST_CALCULATED =>
          let settlement :=
            set_st_approvedBy (Some approvedBy)
              (set_st_approvedAt (Some (now env))
                 (set_st_status ST_APPROVED settlement)) in
          saveSettlement settlement ;;;
          created <- createPayoutForSettlement settlement ;;
          ret (snd created)
      | other =>
          throw ("Cannot approve settlement in status: "
                   ++ settlementStatusName other)%string
      end
  end.

(** [calculateSettlementForMerchant]; [None] is the [null] result. *)
Definition calculateSettlementForMerchant (subMerchant : SubMerchant)
           (settlementDate : Date) : M (option Settlement) :=
  let '(periodStart, periodEnd) := getSettlementPeriod subMerchant settlementDate in
  calculation <- calculateAmounts (sm_id subMerchant) periodStart periodEnd ;;
  if Nat.eqb (transactionCount calculation) 0
     && Nat.eqb (refundCount calculation) 0
     && Nat.eqb (disputeCount calculation) 0
     && Nat.eqb (List.length (releasableReserves calculation)) 0
  then ret None
  else if Decimal.lessThan (netAmount calculation)
                           (js_or_Q (sm_minimumPayoutAmount subMerchant) 100)
  then ret None
  else
    settlement <- createSettlement subMerchant settlementDate calculation ;;
    createSettlementItems settlement calculation ;;;
    markTransactionsSettled (calc_transactions calculation) (st_id settlement) ;;;
    markRefundsSettled (calc_refunds calculation) (st_id settlement) ;;;
    markDisputesSettled (calc_disputes calculation) (st_id settlement) ;;;
    processReserves subMerchant settlement calculation ;;;
    (if shouldAutoApprove subMerchant (netAmount calculation)
     then approveSettlement (st_id settlement) "system" ;;; ret tt
     else ret tt) ;;;
    notify (SettlementNotification subMerchant settlement) ;;;
    ret (Some settlement).

(** [calculateSettlementsForDate]: a failure for one sub-merchant is
    logged and the loop goes on. *)
Definition calculateSettlementsForDate (settlementDate : Date)
  : M (list Settlement) :=
  s <- get ;;
  let subMerchants := filter (fun m => sm_status m =s? "active") (subMerchants s) in
  fold_left
    (fun (acc : M (list Settlement)) subMerchant =>
       settlementsSoFar <- acc ;;
       if negb (shouldSettleToday subMerchant settlementDate)
       then ret settlementsSoFar
       else
         try_catch
           (settlement <- calculateSettlementForMerchant subMerchant settlementDate ;;
            match settlement with
            | Some st => ret (settlementsSoFar ++ [st])
            | None => ret settlementsSoFar
            end)
           (fun _ => ret settlementsSoFar))
    subMerchants (ret []).

(** [rejectSettlement] *)
Definition rejectSettlement (settlementId : Id) (rejectedBy reason : string)
  : M Settlement :=
  s <- get ;;
  match find (fun st => Nat.eqb (st_id st) settlementId) (settlements s) with
  | None => throw "Settlement not found"
  | Some settlement =>
      modify (with_transactions
                (update_where
                   (fun t => option_Id_eqb (tx_settlementId t) settlementId)
                   (fun t => set_tx_settledAt None (set_tx_settlementId None t)))) ;;;
      modify (with_refunds
                (update_where
                   (fun r => option_Id_eqb (rf_settlementId r) settlementId)
                   (set_rf_settlementId None))) ;;;
      let settlement :=
        set_st_adjustmentNotes (Some reason) (set_st_status ST_ON_HOLD settlement) in
      saveSettlement settlement ;;;
      ret settlement
  end.

(** [runDailySettlement]: settles the day before, and logs a failure. *)
Definition runDailySettlement : M unit :=
  let settlementDate := addDays (now env) (-1) in
  try_catch (calculateSettlementsForDate settlementDate ;;; ret tt)
            (fun _ => ret tt).

(** [getSettlementDetails] *)
Definition getSettlementDetails (settlementId : Id) : M (option Settlement) :=
  fun s => (Ret (find (fun st => Nat.eqb (st_id st) settlementId) (settlements s)), s).

End WithCollaborators.

End SettlementEngine.

(* ================================================================== *)
(** ** SMS service: phone numbers (src/unnamed/part_006, second file) *)

From Stdlib Require Import Ascii.

Module SmsService.

(** [\d] *)
Definition isDigit (c : Ascii.ascii) : bool :=
  (48 <=? Ascii.nat_of_ascii c)%nat && (Ascii.nat_of_ascii c <=? 57)%nat.

(** [phone.replace(/\D/g, '')] *)
Fixpoint removeNonDigits (phone : string) : string :=
  match phone with
  | EmptyString => EmptyString
  | String c rest =>
      if isDigit c then String c (removeNonDigits rest) else removeNonDigits rest
  end.

(** [s.startsWith(c)] for a one-character [c]. *)
Definition startsWith (c : Ascii.ascii) (s : string) : bool :=
  match s with
  | String c' _ => Ascii.eqb c' c
  | EmptyString => false
  end.

(** [formatPhoneNumber] *)
Definition formatPhoneNumber (phone : string) : string :=
  let cleaned := removeNonDigits phone in
  let cleaned :=
    if startsWith "0"%char cleaned then String "2"%char cleaned
    else if negb (startsWith "2"%char cleaned) then String "2"%char cleaned
    else cleaned in
  if negb (startsWith "+"%char cleaned) then String "+"%char cleaned else cleaned.

Fixpoint allDigits (s : string) : bool :=
  match s with
  | EmptyString => true
  | String c rest => isDigit c && allDigits rest
  end.

(** [[0125]] *)
Definition isOperatorDigit (c : Ascii.ascii) : bool :=
  Ascii.eqb c "0"%char || Ascii.eqb c "1"%char || Ascii.eqb c "2"%char || Ascii.eqb c "5"%char.

(** [/^01[0125]\d{8}$/] *)
Definition localFormat (s : string) : bool :=
  match s with
  | String a (String b (String c rest)) =>
      Ascii.eqb a "0"%char && Ascii.eqb b "1"%char && isOperatorDigit c
      && Nat.eqb (String.length rest) 8 && allDigits rest
  | _ => false
  end.

(** [/^201[0125]\d{8}$/] *)
Definition internationalFormat (s : string) : bool :=
  match s with
  | String a rest => Ascii.eqb a "2"%char && localFormat rest
  | EmptyString => false
  end.

(** [/^\+201[0125]\d{8}$/] *)
Definition internationalPlusFormat (s : string) : bool :=
  match s with
  | String a rest => Ascii.eqb a "+"%char && internationalFormat rest
  | EmptyString => false
  end.

(** [isValidEgyptianPhone] *)
Definition isValidEgyptianPhone (phone : string) : bool :=
  let cleaned := removeNonDigits phone in
  existsb (fun pattern => pattern cleaned || pattern phone)
          [localFormat; internationalFormat; internationalPlusFormat].

End SmsService.

(* ================================================================== *)
(** * Specification vocabulary and sample data *)

(** ** Sample data *)

Module Samples.

Definition clinic : SubMerchant :=
  mkSubMerchant 1 "CLINIC-001" "active" "D+1" None None (Some (5 # 100)) (Some 90)
                None (Some 10) "instapay" None None None None
                (Some "clinic@instapay") None.

Definition withCycle (cycle : string) (dayOfWeek dayOfMonth : option Z)
           (m : SubMerchant) : SubMerchant :=
  mkSubMerchant (sm_id m) (sm_merchantCode m) (sm_status m) cycle dayOfWeek dayOfMonth
                (sm_reservePercentage m) (sm_reserveDays m)
                (sm_minimumPayoutAmount m) (sm_riskScore m) (sm_payoutMethod m)
                (sm_bankId m) (sm_bankAccountNumber m) (sm_bankAccountName m)
                (sm_iban m) (sm_instapayIpa m) (sm_vodafoneCashNumber m).

Definition withMinimumPayout (minimum : option Q) (m : SubMerchant) : SubMerchant :=
  mkSubMerchant (sm_id m) (sm_merchantCode m) (sm_status m) (sm_settlementCycle m)
                (sm_settlementDayOfWeek m) (sm_settlementDayOfMonth m)
                (sm_reservePercentage m) (sm_reserveDays m)
                minimum (sm_riskScore m) (sm_payoutMethod m)
                (sm_bankId m) (sm_bankAccountNumber m) (sm_bankAccountName m)
                (sm_iban m) (sm_instapayIpa m) (sm_vodafoneCashNumber m).

(** Sunday 7 January 2024, noon. *)
Definition sunday : Date := ofCivil 2024 1 7 + 12 * 3600000.

(** A captured payment of the clinic on that Sunday. *)
Definition payment (id : Id) (amount : Q) : Transaction :=
  mkTransaction id 1 "captured" amount (Some (2 # 1)) (Some (1 # 1))
                (amount - 3) sunday None None "TXN" "card".

(** A store that holds the clinic and the given payments only. *)
Definition ledgerOf (payments : list Transaction) : Store :=
  mkStore [clinic] payments [] [] [] [] [] [] [] [] 100 0.

Definition emptyStore : Store := ledgerOf [].

(** The settlement period of the clinic for that Sunday. *)
Definition sundayStart : Date := fst (SettlementEngine.getSettlementPeriod clinic sunday).
Definition sundayEnd : Date := snd (SettlementEngine.getSettlementPeriod clinic sunday).

Definition env0 : Env :=
  mkEnv (ofCivil 2024 1 8) (fun _ => Rejected "timeout") (fun _ => "A1B2C3") 0 3 None
        Qplus.

End Samples.

(* ================================================================== *)
(** ** The settlement schedule, as specified *)

Module ScheduleSpec.










End ScheduleSpec.

(* ================================================================== *)
(** ** The settlement amounts, as specified *)

Module CalculationSpec.

Import SettlementEngine.

Local Open Scope Q_scope.

(** Sum of a list of amounts. *)
Fixpoint total (l : list Q) : Q :=
  match l with
  | [] => 0
  | x :: rest => x + total rest
  end.

(** The conservation law on a calculation. *)
Definition Conserved (c : SettlementCalculation) : Prop :=
  grossAmount c == grossSales c - grossRefunds c - grossDisputes c
  /\ totalFees c == processorFees c + platformFees c + refundFees c + disputeFees c
  /\ netAmount c == grossSales c - grossRefunds c - grossDisputes c
                    - totalFees c - reserveHeld c + reserveReleased c.

(** The conservation law on a persisted Settlement. *)
Definition ConservedSettlement (st : Settlement) : Prop :=
  st_grossAmount st == st_grossSales st - st_grossRefunds st - st_grossDisputes st
  /\ st_totalFees st == st_processorFees st + st_platformFees st
                        + st_refundFees st + st_disputeFees st
  /\ st_netAmount st == st_grossSales st - st_grossRefunds st - st_grossDisputes st
                        - st_totalFees st - st_reserveHeld st + st_reserveReleased st.

(** Every total is the sum over the ledger rows of the calculation. *)
Definition SumsOfRows (c : SettlementCalculation) : Prop :=
  grossSales c == total (map tx_amount (calc_transactions c))
  /\ processorFees c
     == total (map (fun t => js_or_Q (tx_processorFee t) 0) (calc_transactions c))
  /\ platformFees c
     == total (map (fun t => js_or_Q (tx_platformFee t) 0) (calc_transactions c))
  /\ grossRefunds c == total (map rf_amount (calc_refunds c))
  /\ refundFees c == total (map (fun r => js_or_Q (rf_refundFee r) 0) (calc_refunds c))
  /\ grossDisputes c == total (map dp_amount (calc_disputes c))
  /\ disputeFees c
     == total (map (fun d => js_or_Q (dp_disputeFee d) 0) (calc_disputes c))
  /\ reserveReleased c == total (map rs_amount (releasableReserves c)).

(** The monetary amounts of a calculation that are persisted. *)
Definition amounts (c : SettlementCalculation) : list Q :=
  [grossSales c; grossRefunds c; grossDisputes c; grossAmount c;
   processorFees c; platformFees c; refundFees c; disputeFees c; totalFees c;
   reserveHeld c; reserveReleased c; netAmount c].

(** [q] is a value rounded to 2 decimal places, half away from zero. *)
Definition RoundedTo2 (q : Q) : Prop := q == Decimal.toDecimalPlaces q 2.

Definition AllRounded (c : SettlementCalculation) : Prop :=
  Forall RoundedTo2 (amounts c).







(** The reserve percentage [calculateAmounts] reads. *)
Definition reservePercentageOf (s : Store) (subMerchantId : Id) : Q :=
  match subMerchantOf s subMerchantId with
  | Some subMerchant => js_or_Q (sm_reservePercentage subMerchant) 0
  | None => 0
  end.

End CalculationSpec.

(* ================================================================== *)
(** ** Skipped settlements, as specified *)

Module SkipSpec.

Import SettlementEngine.

Local Open Scope Q_scope.

(** No transaction, refund, dispute or releasable reserve in the period. *)
Definition ZeroActivity (c : SettlementCalculation) : Prop :=
  transactionCount c = 0%nat /\ refundCount c = 0%nat /\ disputeCount c = 0%nat
  /\ releasableReserves c = [].

(** The minimum payout threshold of a sub-merchant: the configured amount,
    or 100 when none is configured or the configured amount is zero. *)
Definition minimumPayoutThreshold (m : SubMerchant) : Q :=
  match sm_minimumPayoutAmount m with
  | Some amount => if Qeq_bool amount 0 then 100 else amount
  | None => 100
  end.

(** The minimum payout amount is unset or zero. *)
Definition MinimumUnsetOrZero (m : SubMerchant) : Prop :=
  match sm_minimumPayoutAmount m with
  | Some amount => amount == 0
  | None => True
  end.

(** The calculation the engine makes for a sub-merchant and a date. *)
Definition calculationFor (m : SubMerchant) (date : Date) : M SettlementCalculation :=
  calculateAmounts (sm_id m) (fst (getSettlementPeriod m date))
                   (snd (getSettlementPeriod m date)).

End SkipSpec.

(* ================================================================== *)
(** ** Rejection of a settlement, as specified *)

Module RejectionSpec.

(** A linked transaction loses its settlement id, and nothing else. *)
Definition unlinkTransaction (settlementId : Id) (t : Transaction) : Transaction :=
  if option_Id_eqb (tx_settlementId t) settlementId
  then set_tx_settlementId None t
  else t.

(** A linked transaction loses its settlement id and its settlement time. *)
Definition unsettleTransaction (settlementId : Id) (t : Transaction) : Transaction :=
  if option_Id_eqb (tx_settlementId t) settlementId
  then set_tx_settledAt None (set_tx_settlementId None t)
  else t.

Definition unlinkRefund (settlementId : Id) (r : Refund) : Refund :=
  if option_Id_eqb (rf_settlementId r) settlementId
  then set_rf_settlementId None r
  else r.

Definition onHold (reason : string) (st : Settlement) : Settlement :=
  set_st_adjustmentNotes (Some reason) (set_st_status ST_ON_HOLD st).

(** The store after a rejection that treats the linked transactions with
    [perTransaction]: the linked refunds are unlinked, the settlement is on
    hold with the reason recorded, every other table is as before. *)
Definition rejected (perTransaction : Id -> Transaction -> Transaction)
           (settlementId : Id) (reason : string) (st : Settlement) (s : Store)
  : Store :=
  mkStore (subMerchants s)
          (map (perTransaction settlementId) (transactions s))
          (map (unlinkRefund settlementId) (refunds s))
          (disputes s)
          (reserves s)
          (map (fun row => if Nat.eqb (st_id row) settlementId
                           then onHold reason st else row)
               (settlements s))
          (settlementItems s) (payouts s) (payoutBatches s)
          (notifications s) (nextId s) (extCalls s).

(** The effect the claim states: only the settlement id of a linked
    transaction changes. *)
Definition RejectsAsStated (settlementId : Id) (reason : string) (st : Settlement)
           (s s' : Store) : Prop :=
  s' = rejected unlinkTransaction settlementId reason st s.

Definition findSettlement (settlementId : Id) (s : Store) : option Settlement :=
  find (fun st => Nat.eqb (st_id st) settlementId) (settlements s).

(** A settlement with one transaction, one refund, one lost dispute and
    one reserve linked to it. *)
Definition settledStore : Store :=
  mkStore
    [Samples.clinic]
    [mkTransaction 7 1 "captured" 200 (Some (2 # 1)) (Some (1 # 1)) 197
                   Samples.sunday (Some 100%nat) (Some (ofCivil 2024 1 8))
                   "TXN-7" "card";
     mkTransaction 8 1 "captured" 80 None None 80
                   Samples.sunday None None "TXN-8" "card"]
    [mkRefund 20 1 "completed" 30 (Some (1 # 1)) 30 Samples.sunday
              (Some 100%nat) "RFD-20"]
    [mkDispute 30 1 "lost" 40 (Some (15 # 1)) Samples.sunday
               (Some 100%nat) "DSP-30" "fraud"]
    [mkReserve 101 1 (Some 100%nat) "rolling" 10 (ofCivil 2024 4 8) "held" None]
    [mkSettlement 100 "STL-20240108-A1B2C3" 1 Samples.sunday
                  Samples.sundayStart Samples.sundayEnd
                  200 30 40 130 2 1 1 15 19 10 0 101 1 1 1
                  ST_CALCULATED (ofCivil 2024 1 8) None None None None]
    [] [] [] [] 102 0.

End RejectionSpec.

(* ================================================================== *)
(** ** Reconciliation, as specified *)

Module ReconciliationSpec.

Definition hasProcessorReference (reference : string) (p : Payout) : bool :=
  option_string_eqb (po_processorReference p) reference.

Definition payoutByReference (reference : string) (s : Store) : option Payout :=
  find (hasProcessorReference reference) (payouts s).

(** A bank-transfer payout of the clinic that was sent under the processor
    reference REF-9. *)
Definition sentPayout : Payout :=
  mkPayout 9 "PO-20240108-A1B2C3" 1 (Some 100%nat) 101 10 91 BANK_TRANSFER
           (Some "CIB") (Some "1234567890") (Some "Clinic") None None None None
           SENT (Some (ofCivil 2024 1 9)) None false None None
           (Some (ofCivil 2024 1 9)) None None (Some "REF-9") (Some "sent") None
           0 3 None None.

Definition sentStore : Store :=
  mkStore [Samples.clinic] [] [] [] [] [] [] [sentPayout] [] [] 102 0.

(** The assignments a 'completed' confirmation makes on the payout. *)
Definition completedBy (env : Env) (details : option Details) (p : Payout) : Payout :=
  set_po_processorResponse details
    (set_po_processorStatus (Some "completed")
       (set_po_completedAt (Some (now env))
          (set_po_status COMPLETED p))).

(** The success notification about a payout. *)
Definition completedNotification (s : Store) (p : Payout) : Notification :=
  PayoutNotification (subMerchantOf s (po_subMerchantId p)) p "completed".

(** The store after one 'completed' confirmation of the payout [p]. *)
Definition confirmed (env : Env) (details : option Details) (p : Payout) (s : Store)
  : Store :=
  with_payouts (save_row po_id (completedBy env details p))
    (with_notifications
       (fun sent => sent ++ [completedNotification s (completedBy env details p)]) s).

(** The requirement the claim states: a second identical confirmation
    changes nothing. *)
Definition SecondConfirmationIsNoOp (env1 env2 : Env) (reference : string)
           (details : option Details) (s : Store) : Prop :=
  forall s1,
    PayoutService.confirmPayoutCompletion env1 reference "completed" details s
    = (Ret tt, s1) ->
    PayoutService.confirmPayoutCompletion env2 reference "completed" details s1
    = (Ret tt, s1).

(** The instant of a second confirmation, one hour after [env0]. *)
Definition env1 : Env :=
  mkEnv (now Samples.env0 + 3600000) (rail Samples.env0) (random Samples.env0)
        0 3 None Qplus.

End ReconciliationSpec.

(* ================================================================== *)
(** ** Sample data for the bank-transfer batch *)

Module BatchSamples.

(** A pending bank transfer of the clinic. *)
Definition bankPayout (id : Id) (amount : Q) : Payout :=
  mkPayout id "PAY-20240108-A1B2C3" 1 None amount 10 (amount - 10) BANK_TRANSFER
           (Some "CIB") (Some "1234567890") (Some "Clinic") None None None None
           PENDING (Some (ofCivil 2024 1 8)) None false None None None None None
           None None None 0 3 None None.

Definition members : list Payout := [bankPayout 11 100; bankPayout 12 200].

Definition pendingStore : Store :=
  mkStore [Samples.clinic] [] [] [] [] [] [] members [] [] 102 0.

(** An environment whose rail gives the same answer to every call. *)
Definition envAnswering (answer : RailResponse) : Env :=
  mkEnv (ofCivil 2024 1 8) (fun _ => answer) (fun _ => "A1B2") 0 3 None Qplus.

(** The bank answers the batch with [success: false]. *)
Definition declined : RailResponse :=
  Resolved (mkRailResult false None (Some "Insufficient funds")).

(** The bank accepts the batch. *)
Definition accepted : RailResponse :=
  Resolved (mkRailResult true (Some "BANK-77") None).

(** The call to the bank throws. *)
Definition unreachable : RailResponse := Rejected "ECONNRESET".

End BatchSamples.

(* ================================================================== *)
(** ** Retries, as specified *)

Module RetrySpec.

Definition payoutById (payoutId : Id) (s : Store) : option Payout :=
  find (fun p => Nat.eqb (po_id p) payoutId) (payouts s).

(** Every call made to a transfer service from the state [s] on is
    rejected. *)
Definition RailDown (env : Env) (s : Store) : Prop :=
  forall n, (extCalls s <= n)%nat -> exists message, rail env n = Rejected message.

(** [k] processing attempts of one payout, one after the other. *)
Fixpoint attempts (env : Env) (payoutId : Id) (k : nat) : M unit :=
  match k with
  | O => ret tt
  | S k' => PayoutService.processPayout env payoutId ;;; attempts env payoutId k'
  end.

(** [k] runs of the retry sweep. *)
Fixpoint sweeps (env : Env) (k : nat) : M unit :=
  match k with
  | O => ret tt
  | S k' => PayoutServiceBatched.retryFailedPayouts env ;;; sweeps env k'
  end.

(** The status a payout has after its retry count reached [retryCount]. *)
Definition statusAtRetryCount (retryCount maxRetries : Z) : PayoutStatus :=
  if retryCount <? maxRetries then APPROVED else FAILED.

(** An approved instant transfer of the clinic with three retries allowed. *)
Definition approvedPayout : Payout :=
  mkPayout 9 "PO-20240108-A1B2C3" 1 None 101 5 96 INSTAPAY
           None None None None (Some "clinic@instapay") None None
           APPROVED (Some (ofCivil 2024 1 8)) None false None None None None None
           None None None 0 3 None None.

Definition approvedStore : Store :=
  mkStore [Samples.clinic] [] [] [] [] [] [] [approvedPayout] [] [] 102 0.

(** The same payout after a first failed attempt in the service with the
    retry sweep. *)
Definition failedOnceStore : Store :=
  mkStore [Samples.clinic] [] [] [] [] [] []
          [set_po_failureMessage (Some "timeout")
             (set_po_retryCount 1 (set_po_status FAILED approvedPayout))]
          [] [] 102 0.

End RetrySpec.

(* ================================================================== *)
(** ** Claiming ledger rows, as the engine does it *)

Module ClaimSpec.

Import SettlementEngine.

(** The rows [calculateAmounts] selects. *)
Definition selectsTransaction (subMerchantId : Id) (periodStart periodEnd : Date)
           (t : Transaction) : bool :=
  Nat.eqb (tx_subMerchantId t) subMerchantId
  && (tx_status t =s? "captured")
  && isNone (tx_settlementId t)
  && Between periodStart periodEnd (tx_capturedAt t).

Definition selectsRefund (subMerchantId : Id) (periodStart periodEnd : Date)
           (r : Refund) : bool :=
  Nat.eqb (rf_subMerchantId r) subMerchantId
  && (rf_status r =s? "completed")
  && isNone (rf_settlementId r)
  && Between periodStart periodEnd (rf_completedAt r).

Definition selectsDispute (subMerchantId : Id) (periodStart periodEnd : Date)
           (d : Dispute) : bool :=
  Nat.eqb (dp_subMerchantId d) subMerchantId
  && (dp_status d =s? "lost")
  && isNone (dp_settlementId d)
  && Between periodStart periodEnd (dp_resolvedAt d).

Definition selectsReserve (subMerchantId : Id) (periodEnd : Date) (r : Reserve)
  : bool :=
  Nat.eqb (rs_subMerchantId r) subMerchantId
  && (rs_status r =s? "held")
  && (rs_releaseDate r <=? periodEnd).

(** What [processReserves] saves for a reserve it releases at [instant]. *)
Definition release (instant : Date) (r : Reserve) : Reserve :=
  set_rs_releasedAt (Some instant) (set_rs_status "released" r).

(** A reserve that was released at [instant]. *)
Definition ReleasedAt (instant : Date) (r : Reserve) : Prop :=
  rs_status r = "released" /\ rs_releasedAt r = Some instant.

(** The ledger tables of [s'] are those of [s]. *)
Definition SameLedger (s s' : Store) : Prop :=
  transactions s' = transactions s
  /\ refunds s' = refunds s
  /\ disputes s' = disputes s.

(** The injected [createPayout] writes to no ledger table. *)
Definition PreservesLedger (createPayout : CreatePayoutDto -> M Payout) : Prop :=
  forall dto s r s', createPayout dto s = (r, s') -> SameLedger s s'.

(** The id of [row] is the id of one of [rows]. *)
Definition hasIdIn {A} (key : A -> Id) (rows : list A) (row : A) : bool :=
  existsb (Nat.eqb (key row)) (map key rows).

(** A store in which the clinic, with a minimum payout of 40, has one
    unsettled payment of 50 on the sample Sunday. *)
Definition clinic40 : SubMerchant :=
  Samples.withMinimumPayout (Some 40%Q) Samples.clinic.

Definition oneSale : Store := Samples.ledgerOf [Samples.payment 7 50%Q].

End ClaimSpec.

(* ================================================================== *)
(** ** Sample data for approvals *)

Module ApprovalSamples.

(** The clinic with a payout method the engine does not know. *)
Definition cashClinic : SubMerchant :=
  mkSubMerchant 1 "CLINIC-001" "active" "D+1" None None (Some (5 # 100)%Q) (Some 90)
                None (Some 10) "cash" None None None None None None.

(** The settlement of [RejectionSpec.settledStore]. *)
Definition calculatedSettlement : Settlement :=
  mkSettlement 100 "STL-20240108-A1B2C3" 1 Samples.sunday
               Samples.sundayStart Samples.sundayEnd
               200 30 40 130 2 1 1 15 19 10 0 101 1 1 1
               ST_CALCULATED (ofCivil 2024 1 8) None None None None.

(** The store of [RejectionSpec.settledStore] with that sub-merchant. *)
Definition cashStore : Store :=
  mkStore [cashClinic]
          (transactions RejectionSpec.settledStore)
          (refunds RejectionSpec.settledStore)
          (disputes RejectionSpec.settledStore)
          (reserves RejectionSpec.settledStore)
          (settlements RejectionSpec.settledStore)
          [] [] [] [] 102 0.

End ApprovalSamples.

(* ================================================================== *)
(** ** The daily run, as the engine does it *)

Module DailyRunSpec.


(** A computation that never throws. *)
Definition NeverThrows {A} (m : M A) : Prop :=
  forall s, exists a s', m s = (Ret a, s').

End DailyRunSpec.

(* ================================================================== *)
(** ** The line items of a settlement *)

Module ItemsSpec.

(** The fee [createSettlementItems] writes on the item of a transaction:
    [(tx.processorFee || 0) + (tx.platformFee || 0)], an addition of JS
    numbers. *)
Definition transactionFee (env : Env) (tx : Transaction) : Q :=
  numberPlus env (js_or_Q (tx_processorFee tx) 0) (js_or_Q (tx_platformFee tx) 0).

End ItemsSpec.

(* ================================================================== *)
(** ** Groups and summaries of payouts *)

Module PayoutSpec.

(** The payout is paid by the method called [name]. *)
Definition paidBy (name : string) (p : Payout) : bool :=
  payoutMethodName (po_payoutMethod p) =s? name.

(** The payouts paid by [name], in the order of [payouts]; no entry when
    there is none. *)
Definition groupOf (name : string) (payouts : list Payout) : option (list Payout) :=
  match filter (paidBy name) payouts with
  | [] => None
  | members => Some members
  end.

(** Payouts that are pending or approved. *)
Definition awaitsTransfer (p : Payout) : bool :=
  payoutStatus_eqb (po_status p) PENDING || payoutStatus_eqb (po_status p) APPROVED.

(** The net amounts of [payouts], added up from zero in their order with
    the addition [plus] of JS numbers. *)
Definition netTotal (plus : Q -> Q -> Q) (payouts : list Payout) : Q :=
  fold_left (fun sum p => plus sum (po_netAmount p)) payouts 0%Q.

(** Count and net amount of the payouts paid by [name]. *)
Definition entryOf (plus : Q -> Q -> Q) (name : string) (payouts : list Payout)
  : option PayoutService.MethodSummary :=
  match filter (paidBy name) payouts with
  | [] => None
  | members =>
      Some (PayoutService.mkMethodSummary (List.length members)
                                          (netTotal plus members))
  end.

Fixpoint countAll (o : JsObject PayoutService.MethodSummary) : nat :=
  match o with
  | [] => 0%nat
  | (_, entry) :: rest => (PayoutService.ms_count entry + countAll rest)%nat
  end.

(** The tables a settlement run must not touch before approval: the
    settlements and the payouts of [s'] are those of [s]. *)
Definition SameBooks (s s' : Store) : Prop :=
  settlements s' = settlements s /\ payouts s' = payouts s.

(** The payout methods the settlement engine knows. *)
Definition knownMethod (name : string) : bool :=
  (name =s? "bank_transfer") || (name =s? "instapay") || (name =s? "wallet").

(** What the batching service saves for a payout that failed with
    [message]. *)
Definition failedWith (message : string) (q : Payout) : Payout :=
  set_po_retryCount (po_retryCount q + 1)
    (set_po_failureMessage (Some message) (set_po_status FAILED q)).

(** The row [p] is still in the payout table, and the table has the same
    ids. *)
Definition Kept (p : Payout) (s s' : Store) : Prop :=
  In p (payouts s') /\ map po_id (payouts s') = map po_id (payouts s).

(** A bank transfer of 60000 to the clinic, above the default threshold of
    50000. *)
Definition largeTransfer : CreatePayoutDto :=
  mkCreatePayoutDto 1 None 60000%Q (Some 10%Q) BANK_TRANSFER
                    (mkPayoutDestination (Some "CIB") (Some "1234567890")
                                         (Some "Clinic") None None None None None)
                    (Some (ofCivil 2024 1 9)) None.

(** A payout table with an approved instant transfer that is due and a
    pending bank transfer. *)
Definition mixedStore : Store :=
  mkStore [Samples.clinic] [] [] [] [] [] []
          [RetrySpec.approvedPayout; BatchSamples.bankPayout 11 100]
          [] [] 102 0.

(** A bank transfer of the clinic that failed once and may be tried twice
    more. *)
Definition failedOnce : Payout :=
  set_po_retryCount 1
    (set_po_failureMessage (Some "Transfer failed")
       (set_po_status FAILED (BatchSamples.bankPayout 9 250))).

(** A payout table with a failed bank transfer that may be retried and a
    pending bank transfer. *)
Definition retryStore : Store :=
  mkStore [Samples.clinic] [] [] [] [] [] []
          [failedOnce; BatchSamples.bankPayout 11 100]
          [] [] 102 0.

End PayoutSpec.

(* ================================================================== *)
(** * Properties *)

(* ================================================================== *)
(** ** Tables *)

Module TableLemmas.

Lemma In_save_row {A} (key : A -> Id) (row : A) (rows : list A) :
  In row (save_row key row rows).
Proof.
  unfold save_row, update_where.
  destruct (existsb _ rows) eqn:E.
  - apply existsb_exists in E. destruct E as (r & Hin & Hkey).
    apply in_map_iff. exists r. rewrite Hkey. auto.
  - apply in_or_app. right. simpl. auto.
Qed.

Lemma find_existsb {A} (f : A -> bool) (rows : list A) (row : A) :
  find f rows = Some row -> existsb f rows = true.
Proof.
  intros H. apply existsb_exists. exists row.
  apply find_some in H. exact H.
Qed.

Lemma find_save_row_same (keep : Payout -> bool) (p p' : Payout) (rows : list Payout) :
  find keep rows = Some p ->
  keep p' = true ->
  po_id p' = po_id p ->
  find keep (save_row po_id p' rows) = Some p'.
Proof.
  intros Hfind Hkeep Hid. unfold save_row.
  assert (Hex : existsb (fun r => Nat.eqb (po_id r) (po_id p')) rows = true).
  { apply existsb_exists. exists p. apply find_some in Hfind.
    split; [tauto|]. rewrite Hid. apply Nat.eqb_refl. }
  rewrite Hex. clear Hex. unfold update_where.
  induction rows as [|r rows IH]; simpl in *; [discriminate|].
  destruct (Nat.eqb (po_id r) (po_id p')) eqn:Er.
  - rewrite Hkeep. reflexivity.
  - destruct (keep r) eqn:Kr.
    + injection Hfind as ->. rewrite Hid, Nat.eqb_refl in Er. discriminate.
    + apply IH. exact Hfind.
Qed.

Lemma save_row_keys {A} (key : A -> Id) (row : A) (rows : list A) :
  In (key row) (map key rows) ->
  map key (save_row key row rows) = map key rows.
Proof.
  intros Hin. unfold save_row.
  assert (Hex : existsb (fun r => Nat.eqb (key r) (key row)) rows = true).
  { apply in_map_iff in Hin. destruct Hin as (r & Hr & Hin).
    apply existsb_exists. exists r. split; [exact Hin|].
    rewrite Hr. apply Nat.eqb_refl. }
  rewrite Hex. unfold update_where. rewrite map_map.
  apply map_ext. intros r.
  destruct (Nat.eqb_spec (key r) (key row)); congruence.
Qed.

Lemma save_row_keeps {A} (key : A -> Id) (row other : A) (rows : list A) :
  In other rows -> key other <> key row -> In other (save_row key row rows).
Proof.
  intros Hin Hkey. unfold save_row.
  destruct (existsb _ rows).
  - unfold update_where. apply in_map_iff. exists other. split; [|exact Hin].
    destruct (Nat.eqb_spec (key other) (key row)); congruence.
  - apply in_or_app. left. exact Hin.
Qed.

Lemma NoDup_map_eq {A} (key : A -> Id) (rows : list A) (a b : A) :
  NoDup (map key rows) -> In a rows -> In b rows -> key a = key b -> a = b.
Proof.
  induction rows as [|r rows IH]; simpl; intros Hnd Ha Hb Hk; [contradiction|].
  inversion Hnd as [|k ks Hnotin Hnd']; subst.
  destruct Ha as [<-|Ha], Hb as [<-|Hb]; auto.
  - exfalso. apply Hnotin. rewrite Hk. apply in_map. exact Hb.
  - exfalso. apply Hnotin. rewrite <- Hk. apply in_map. exact Ha.
Qed.

End TableLemmas.

(* ================================================================== *)
(** ** The settlement schedule *)

Module ScheduleProps.

Import SettlementEngine ScheduleSpec.







(** The scenarios of the specification. *)
Example daily_always_due (date : Date) :
  shouldSettleToday Samples.clinic date = true.
Proof. reflexivity. Qed.

Example weekly_sunday_due :
  shouldSettleToday (Samples.withCycle "WEEKLY" (Some 0) None Samples.clinic)
                    Samples.sunday = true
  /\ shouldSettleToday (Samples.withCycle "WEEKLY" (Some 0) None Samples.clinic)
                       (addDays Samples.sunday 1) = false.
Proof. split; vm_compute; reflexivity. Qed.

Example monthly_first_due :
  shouldSettleToday (Samples.withCycle "MONTHLY" None (Some 1) Samples.clinic)
                    (ofCivil 2024 2 1) = true
  /\ shouldSettleToday (Samples.withCycle "MONTHLY" None (Some 1) Samples.clinic)
                       (ofCivil 2024 2 29) = false.
Proof. split; vm_compute; reflexivity. Qed.

End ScheduleProps.

(* ================================================================== *)
(** ** The settlement amounts *)

Module CalculationProps.

Import SettlementEngine CalculationSpec TableLemmas.

Local Open Scope Q_scope.

(** *** Sums *)

Lemma sumTransactions_acc (txs : list Transaction) (a b c : Q) :
  let '(a', b', c') :=
    fold_left
      (fun acc tx =>
         let '(grossSales, processorFees, platformFees) := acc in
         (Decimal.plus grossSales (tx_amount tx),
          Decimal.plus processorFees (js_or_Q (tx_processorFee tx) 0),
          Decimal.plus platformFees (js_or_Q (tx_platformFee tx) 0)))
      txs (a, b, c) in
  a' == a + total (map tx_amount txs)
  /\ b' == b + total (map (fun t => js_or_Q (tx_processorFee t) 0) txs)
  /\ c' == c + total (map (fun t => js_or_Q (tx_platformFee t) 0) txs).
Proof.
  revert a b c. induction txs as [|tx txs IH]; intros a b c; simpl.
  - repeat split; ring.
  - specialize (IH (Decimal.plus a (tx_amount tx))
                   (Decimal.plus b (js_or_Q (tx_processorFee tx) 0))
                   (Decimal.plus c (js_or_Q (tx_platformFee tx) 0))).
    destruct (fold_left _ txs _) as [[a' b'] c'].
    destruct IH as (Ha & Hb & Hc). unfold Decimal.plus in *.
    rewrite Ha, Hb, Hc. repeat split; ring.
Qed.

Lemma sumPairs_acc {A} (f g : A -> Q) (rows : list A) (a b : Q) :
  let '(a', b') :=
    fold_left
      (fun acc row =>
         let '(x, y) := acc in (Decimal.plus x (f row), Decimal.plus y (g row)))
      rows (a, b) in
  a' == a + total (map f rows) /\ b' == b + total (map g rows).
Proof.
  revert a b. induction rows as [|row rows IH]; intros a b; simpl.
  - split; ring.
  - specialize (IH (Decimal.plus a (f row)) (Decimal.plus b (g row))).
    destruct (fold_left _ rows _) as [a' b'].
    destruct IH as (Ha & Hb). unfold Decimal.plus in *.
    rewrite Ha, Hb. split; ring.
Qed.

Lemma sumReserves_total (rss : list Reserve) :
  sumReserves rss == total (map rs_amount rss).
Proof.
  unfold sumReserves.
  assert (H : forall a, fold_left (fun acc r => Decimal.plus acc (rs_amount r)) rss a
                        == a + total (map rs_amount rss)).
  { induction rss as [|r rss IH]; intros a; simpl.
    - ring.
    - rewrite IH. unfold Decimal.plus. ring. }
  rewrite H. ring.
Qed.

Lemma sumTransactions_total (txs : list Transaction) :
  let '(a, b, c) := sumTransactions txs in
  a == total (map tx_amount txs)
  /\ b == total (map (fun t => js_or_Q (tx_processorFee t) 0) txs)
  /\ c == total (map (fun t => js_or_Q (tx_platformFee t) 0) txs).
Proof.
  unfold sumTransactions.
  pose proof (sumTransactions_acc txs 0 0 0) as H.
  destruct (fold_left _ txs _) as [[a b] c].
  destruct H as (Ha & Hb & Hc). rewrite Ha, Hb, Hc. repeat split; ring.
Qed.

Lemma sumRefunds_total (rfs : list Refund) :
  let '(a, b) := sumRefunds rfs in
  a == total (map rf_amount rfs)
  /\ b == total (map (fun r => js_or_Q (rf_refundFee r) 0) rfs).
Proof.
  unfold sumRefunds.
  pose proof (sumPairs_acc rf_amount (fun r => js_or_Q (rf_refundFee r) 0) rfs 0 0) as H.
  destruct (fold_left _ rfs _) as [a b].
  destruct H as (Ha & Hb). rewrite Ha, Hb. split; ring.
Qed.

Lemma sumDisputes_total (dps : list Dispute) :
  let '(a, b) := sumDisputes dps in
  a == total (map dp_amount dps)
  /\ b == total (map (fun d => js_or_Q (dp_disputeFee d) 0) dps).
Proof.
  unfold sumDisputes.
  pose proof (sumPairs_acc dp_amount (fun d => js_or_Q (dp_disputeFee d) 0) dps 0 0) as H.
  destruct (fold_left _ dps _) as [a b].
  destruct H as (Ha & Hb). rewrite Ha, Hb. split; ring.
Qed.

(** What [calculateAmounts] returns: the rows it selected, their sums, and
    the amounts derived from them. *)
Lemma calculateAmounts_returns (s : Store) (id : Id) (periodStart periodEnd : Date) :
  exists c,
    calculateAmounts id periodStart periodEnd s = (Ret c, s)
    /\ SumsOfRows c
    /\ Conserved c
    /\ reserveHeld c
       = Decimal.toDecimalPlaces
           (Decimal.times (grossSales c) (reservePercentageOf s id)) 2
    /\ (exists keep, calc_transactions c = filter keep (transactions s))
    /\ (exists keep, calc_refunds c = filter keep (refunds s))
    /\ (exists keep, calc_disputes c = filter keep (disputes s))
    /\ (exists keep, releasableReserves c = filter keep (reserves s)).
Proof.
  unfold calculateAmounts, bind, get, ret.
  set (txs := filter _ (transactions s)).
  set (rfs := filter _ (refunds s)).
  set (dps := filter _ (disputes s)).
  set (rss := filter _ (reserves s)).
  pose proof (sumTransactions_total txs) as Ht.
  pose proof (sumRefunds_total rfs) as Hr.
  pose proof (sumDisputes_total dps) as Hd.
  pose proof (sumReserves_total rss) as Hs.
  destruct (sumTransactions txs) as [[gs pf] plf].
  destruct (sumRefunds rfs) as [gr rfee].
  destruct (sumDisputes dps) as [gd dfee].
  eexists. split; [reflexivity|].
  destruct Ht as (? & ? & ?), Hr as (? & ?), Hd as (? & ?).
  split; [|split; [|split; [reflexivity|]]].
  - unfold SumsOfRows; simpl. repeat split; assumption.
  - unfold Conserved, Decimal.plus, Decimal.minus; simpl. repeat split; ring.
  - simpl. subst txs rfs dps rss. repeat split; eexists; reflexivity.
Qed.

(** [createSettlement] copies the amounts of the calculation to the row it
    saves. *)
Lemma createSettlement_conserves
      (env : Env) (subMerchant : SubMerchant) (settlementDate : Date)
      (c : SettlementCalculation) (s : Store) :
  Conserved c ->
  exists st s',
    createSettlement env subMerchant settlementDate c s = (Ret st, s')
    /\ In st (settlements s')
    /\ ConservedSettlement st.
Proof.
  intros (Hgross & Hfees & Hnet).
  unfold createSettlement, generateSettlementReference, generateReference,
    freshId, saveSettlement, modify, bind, ret.
  eexists. eexists. split; [reflexivity|]. split.
  - simpl. apply In_save_row.
  - unfold ConservedSettlement, Decimal.toNumber; simpl.
    repeat split; assumption.
Qed.

(** C1.  [calculateAmounts] always returns a calculation, leaving the
    store as it was, in which every total is the sum over the selected
    ledger rows, grossAmount = grossSales - grossRefunds - grossDisputes,
    totalFees is the sum of the processor, platform, refund and dispute
    fees, and netAmount = grossSales - grossRefunds - grossDisputes
    - totalFees - reserveHeld + reserveReleased, exactly; the Settlement
    that [createSettlement] persists from it satisfies the same
    equations. *)
Theorem calculateAmounts_conservation
        (s : Store) (id : Id) (periodStart periodEnd : Date) :
  exists c,
    calculateAmounts id periodStart periodEnd s = (Ret c, s)
    /\ SumsOfRows c
    /\ Conserved c
    /\ forall env subMerchant settlementDate s1,
        exists st s2,
          createSettlement env subMerchant settlementDate c s1 = (Ret st, s2)
          /\ In st (settlements s2)
          /\ ConservedSettlement st.
Proof.
  destruct (calculateAmounts_returns s id periodStart periodEnd)
    as (c & Hc & Hsums & Hcons & _).
  exists c. split; [exact Hc|]. split; [exact Hsums|]. split; [exact Hcons|].
  intros env subMerchant settlementDate s1.
  apply createSettlement_conserves. exact Hcons.
Qed.

(** *** Rounding and decimal places *)


Example roundHalfUp_ties :
  Decimal.roundHalfUp (5 # 2) = 3%Z /\ Decimal.roundHalfUp (- (5 # 2)) = (-3)%Z
  /\ Decimal.toDecimalPlaces (1005 # 1000) 2 == 101 # 100
  /\ Decimal.toDecimalPlaces (- (1005 # 1000)) 2 == - (101 # 100)
  /\ Decimal.toDecimalPlaces (1004 # 1000) 2 == 1.
Proof. repeat split. Qed.













(** The assumption on the entering amounts is needed: a captured payment of
    1.005 gives a grossSales of 1.005, which is not a value rounded to
    2 decimal places. *)
Example grossSales_not_rounded :
  exists c,
    calculateAmounts 1 Samples.sundayStart Samples.sundayEnd
                     (Samples.ledgerOf [Samples.payment 7 (1005 # 1000)])
    = (Ret c, Samples.ledgerOf [Samples.payment 7 (1005 # 1000)])
    /\ grossSales c == 1005 # 1000
    /\ ~ AllRounded c.
Proof.
  eexists. split; [reflexivity|]. split; [vm_compute; reflexivity|].
  intros H. inversion H as [|q l Hq _]; subst.
  unfold RoundedTo2 in Hq. apply Qeq_bool_iff in Hq.
  vm_compute in Hq. discriminate.
Qed.

End CalculationProps.

(* ================================================================== *)
(** ** Skipped settlements *)

Module SkipProps.

Import SettlementEngine SkipSpec.

Local Open Scope Q_scope.

Section WithCollaborators.

Variable env : Env.
Variable createPayout : CreatePayoutDto -> M Payout.

Lemma lessThan_true (a b : Q) : a < b -> Decimal.lessThan a b = true.
Proof.
  intros Hlt. unfold Decimal.lessThan.
  destruct (Qle_bool b a) eqn:E; [|reflexivity].
  apply Qle_bool_iff in E. lra.
Qed.

(** The two early returns of [calculateSettlementForMerchant]. *)
Lemma calculateSettlementForMerchant_skip
      (m : SubMerchant) (date : Date) (s : Store) (c : SettlementCalculation) :
  calculationFor m date s = (Ret c, s) ->
  ZeroActivity c
  \/ Decimal.lessThan (netAmount c) (js_or_Q (sm_minimumPayoutAmount m) 100) = true ->
  calculateSettlementForMerchant env createPayout m date s = (Ret None, s).
Proof.
  unfold calculationFor, calculateSettlementForMerchant.
  destruct (getSettlementPeriod m date) as [periodStart periodEnd]; simpl.
  intros Hc Hskip. unfold bind at 1. rewrite Hc.
  destruct Hskip as [(Ht & Hr & Hd & Hrel) | Hlow].
  - rewrite Ht, Hr, Hd, Hrel. reflexivity.
  - rewrite Hlow.
    destruct (_ && _); reflexivity.
Qed.

(** C7.  When the calculation for the period shows zero activity (no
    transaction, refund, dispute or releasable reserve), or a netAmount
    below the minimum payout threshold of the sub-merchant,
    [calculateSettlementForMerchant] returns null without throwing and
    leaves the store as it was: no Settlement row, no ledger row
    claimed. *)
Theorem calculateSettlementForMerchant_skips
        (m : SubMerchant) (date : Date) (s : Store) (c : SettlementCalculation) :
  calculationFor m date s = (Ret c, s) ->
  ZeroActivity c \/ netAmount c < minimumPayoutThreshold m ->
  calculateSettlementForMerchant env createPayout m date s = (Ret None, s).
Proof.
  intros Hc Hskip. apply (calculateSettlementForMerchant_skip m date s c Hc).
  destruct Hskip as [Hzero | Hlow]; [left; exact Hzero | right].
  apply lessThan_true. exact Hlow.
Qed.

(** C9.  When the minimum payout amount of the sub-merchant is unset or
    zero and the computed netAmount is below 100,
    [calculateSettlementForMerchant] returns null and leaves the store as
    it was: the threshold is then 100. *)
Theorem minimumPayout_defaults_to_100
        (m : SubMerchant) (date : Date) (s : Store) (c : SettlementCalculation) :
  calculationFor m date s = (Ret c, s) ->
  MinimumUnsetOrZero m ->
  netAmount c < 100 ->
  calculateSettlementForMerchant env createPayout m date s = (Ret None, s).
Proof.
  intros Hc Hmin Hlow. apply (calculateSettlementForMerchant_skip m date s c Hc).
  right. apply lessThan_true.
  unfold MinimumUnsetOrZero in Hmin. unfold js_or_Q.
  destruct (sm_minimumPayoutAmount m) as [amount|]; [|exact Hlow].
  apply Qeq_bool_iff in Hmin. rewrite Hmin. exact Hlow.
Qed.

End WithCollaborators.

(** A payment of 200 nets 187 after fees and reserve, below a configured
    minimum of 500. *)
Lemma calculateSettlementForMerchant_skips_witness :
  calculateSettlementForMerchant
    Samples.env0 (PayoutService.createPayout Samples.env0)
    (Samples.withMinimumPayout (Some 500) Samples.clinic) Samples.sunday
    (Samples.ledgerOf [Samples.payment 7 200])
  = (Ret None, Samples.ledgerOf [Samples.payment 7 200]).
Proof.
  eapply (calculateSettlementForMerchant_skips
            Samples.env0 (PayoutService.createPayout Samples.env0)
            (Samples.withMinimumPayout (Some 500) Samples.clinic) Samples.sunday
            (Samples.ledgerOf [Samples.payment 7 200])).
  - reflexivity.
  - right. vm_compute. reflexivity.
Defined.

(** A payment of 50 nets 44.5, below 100, with a configured minimum of 0. *)
Lemma minimumPayout_defaults_to_100_witness :
  calculateSettlementForMerchant
    Samples.env0 (PayoutService.createPayout Samples.env0)
    (Samples.withMinimumPayout (Some 0) Samples.clinic) Samples.sunday
    (Samples.ledgerOf [Samples.payment 7 50])
  = (Ret None, Samples.ledgerOf [Samples.payment 7 50]).
Proof.
  eapply (minimumPayout_defaults_to_100
            Samples.env0 (PayoutService.createPayout Samples.env0)
            (Samples.withMinimumPayout (Some 0) Samples.clinic) Samples.sunday
            (Samples.ledgerOf [Samples.payment 7 50])).
  - reflexivity.
  - vm_compute. reflexivity.
  - vm_compute. reflexivity.
Defined.

(** The same payment is settled once the minimum is 40: the threshold is
    what stops it. *)
Example settled_above_minimum :
  exists st s',
    calculateSettlementForMerchant
      Samples.env0 (PayoutService.createPayout Samples.env0)
      (Samples.withMinimumPayout (Some 40) Samples.clinic) Samples.sunday
      (Samples.ledgerOf [Samples.payment 7 50])
    = (Ret (Some st), s')
    /\ st_netAmount st == 445 # 10
    /\ List.length (settlements s') = 1%nat.
Proof.
  eexists. eexists. split; [vm_compute; reflexivity|].
  split; vm_compute; reflexivity.
Qed.

End SkipProps.

(* ================================================================== *)
(** ** Rejection of a settlement *)

Module RejectionProps.

Import SettlementEngine RejectionSpec TableLemmas.

(** C8, as amended.  [rejectSettlement] on an existing settlement clears
    the settlement id and the settlement time of every transaction linked
    to it, clears the settlement id of every refund linked to it, puts the
    settlement on hold and records the reason; every other row and table is
    as before, the disputes and the reserves among them. *)
Theorem rejectSettlement_effect
        (settlementId : Id) (rejectedBy reason : string) (s : Store)
        (st : Settlement) :
  findSettlement settlementId s = Some st ->
  exists s',
    rejectSettlement settlementId rejectedBy reason s = (Ret (onHold reason st), s')
    /\ s' = rejected unsettleTransaction settlementId reason st s
    /\ disputes s' = disputes s
    /\ reserves s' = reserves s.
Proof.
  unfold findSettlement. intros Hfind.
  eexists. split; [|split; [reflexivity|split; reflexivity]].
  unfold rejectSettlement, bind, get, modify, saveSettlement, ret.
  rewrite Hfind. cbn [fst snd]. f_equal.
  unfold rejected, with_settlements, with_refunds, with_transactions; simpl.
  f_equal.
  unfold save_row. fold (onHold reason st).
  assert (Hid : st_id (onHold reason st) = settlementId).
  { apply find_some in Hfind. destruct Hfind as [_ H].
    apply Nat.eqb_eq in H. exact H. }
  rewrite Hid, (find_existsb _ _ _ Hfind). reflexivity.
Qed.

Lemma rejectSettlement_effect_witness :
  exists s',
    rejectSettlement 100 "ops" "duplicate run" settledStore
    = (Ret (onHold "duplicate run"
                   (mkSettlement 100 "STL-20240108-A1B2C3" 1 Samples.sunday
                      Samples.sundayStart Samples.sundayEnd
                      200 30 40 130 2 1 1 15 19 10 0 101 1 1 1
                      ST_CALCULATED (ofCivil 2024 1 8) None None None None)), s')
    /\ s' = rejected unsettleTransaction 100 "duplicate run"
              (mkSettlement 100 "STL-20240108-A1B2C3" 1 Samples.sunday
                 Samples.sundayStart Samples.sundayEnd
                 200 30 40 130 2 1 1 15 19 10 0 101 1 1 1
                 ST_CALCULATED (ofCivil 2024 1 8) None None None None)
              settledStore
    /\ disputes s' = disputes settledStore
    /\ reserves s' = reserves settledStore.
Proof.
  apply rejectSettlement_effect. reflexivity.
Defined.

(** C8, as stated, fails: the rejection also clears the settlement time of
    the linked transaction, so more than its settlement id changes. *)
Lemma rejectSettlement_clears_settledAt :
  exists st s',
    findSettlement 100 settledStore = Some st
    /\ rejectSettlement 100 "ops" "duplicate run" settledStore
       = (Ret (onHold "duplicate run" st), s')
    /\ ~ RejectsAsStated 100 "duplicate run" st settledStore s'.
Proof.
  eexists. eexists. split; [reflexivity|]. split; [vm_compute; reflexivity|].
  unfold RejectsAsStated. intros H.
  apply (f_equal transactions) in H. vm_compute in H. discriminate.
Qed.

End RejectionProps.

(* ================================================================== *)
(** ** Reconciliation *)

Module ReconciliationProps.

Import ReconciliationSpec TableLemmas.

(** One 'completed' confirmation of a known payout. *)
Lemma confirmPayoutCompletion_completed
      (env : Env) (reference : string) (details : option Details) (s : Store)
      (p : Payout) :
  payoutByReference reference s = Some p ->
  PayoutService.confirmPayoutCompletion env reference "completed" details s
  = (Ret tt, confirmed env details p s)
  /\ payoutByReference reference (confirmed env details p s)
     = Some (completedBy env details p).
Proof.
  intros Hfind. split.
  - unfold PayoutService.confirmPayoutCompletion, findPayoutByProcessorReference,
      bind, get, notify, savePayout, modify, ret.
    unfold payoutByReference, hasProcessorReference in Hfind.
    rewrite Hfind. reflexivity.
  - unfold payoutByReference, confirmed. simpl.
    apply (find_save_row_same _ p); [exact Hfind| |reflexivity].
    apply find_some in Hfind. destruct Hfind as [_ H]. exact H.
Qed.

(** C2, as amended.  Two 'completed' confirmations of the same processor
    reference both return normally and leave the payout completed, but the
    second is not a no-op: it assigns completedAt (the instant of the second
    call), processorStatus and processorResponse again, saves the payout, and
    sends the success notification a second time. *)
Theorem confirmPayoutCompletion_twice
        (env1 env2 : Env) (reference : string) (details : option Details)
        (s : Store) (p : Payout) :
  payoutByReference reference s = Some p ->
  let p1 := completedBy env1 details p in
  let p2 := completedBy env2 details p1 in
  let s1 := confirmed env1 details p s in
  let s2 := confirmed env2 details p1 s1 in
  PayoutService.confirmPayoutCompletion env1 reference "completed" details s
  = (Ret tt, s1)
  /\ PayoutService.confirmPayoutCompletion env2 reference "completed" details s1
     = (Ret tt, s2)
  /\ payoutByReference reference s1 = Some p1
  /\ payoutByReference reference s2 = Some p2
  /\ po_status p1 = COMPLETED
  /\ po_status p2 = COMPLETED
  /\ po_completedAt p1 = Some (now env1)
  /\ po_completedAt p2 = Some (now env2)
  /\ po_processorStatus p2 = Some "completed"
  /\ po_processorResponse p2 = details
  /\ payouts s2 = save_row po_id p2 (payouts s1)
  /\ notifications s1 = notifications s ++ [completedNotification s p1]
  /\ notifications s2
     = notifications s
         ++ [completedNotification s p1; completedNotification s p2].
Proof.
  intros Hfind p1 p2 s1 s2.
  destruct (confirmPayoutCompletion_completed env1 reference details s p Hfind)
    as [Hcall1 Hfind1].
  destruct (confirmPayoutCompletion_completed
              env2 reference details _ _ Hfind1) as [Hcall2 Hfind2].
  repeat split; try assumption.
  unfold s2, s1. simpl. rewrite <- app_assoc. reflexivity.
Qed.

Lemma confirmPayoutCompletion_twice_witness :
  exists s1 s2 p2,
    PayoutService.confirmPayoutCompletion Samples.env0 "REF-9" "completed" None
                                          sentStore
    = (Ret tt, s1)
    /\ PayoutService.confirmPayoutCompletion env1 "REF-9" "completed" None s1
       = (Ret tt, s2)
    /\ payoutByReference "REF-9" s2 = Some p2
    /\ po_status p2 = COMPLETED
    /\ po_completedAt p2 = Some (now env1)
    /\ List.length (notifications s2) = 2%nat.
Proof.
  destruct (confirmPayoutCompletion_twice Samples.env0 env1 "REF-9" None sentStore
                                          sentPayout)
    as (H1 & H2 & _ & Hfind2 & _ & Hstatus2 & _ & Hat2 & _ & _ & _ & _ & Hnotes);
    [reflexivity|].
  eexists; eexists; eexists.
  split; [exact H1|]. split; [exact H2|]. split; [exact Hfind2|].
  split; [exact Hstatus2|]. split; [exact Hat2|].
  rewrite Hnotes. reflexivity.
Defined.

(** C2, as stated, fails: the second confirmation of REF-9 changes the
    store, and the success notification is in it twice. *)
Lemma second_confirmation_notifies_again :
  ~ SecondConfirmationIsNoOp Samples.env0 env1 "REF-9" None sentStore
  /\ exists s1 s2,
      PayoutService.confirmPayoutCompletion Samples.env0 "REF-9" "completed" None
                                            sentStore
      = (Ret tt, s1)
      /\ PayoutService.confirmPayoutCompletion env1 "REF-9" "completed" None s1
         = (Ret tt, s2)
      /\ List.length (notifications s1) = 1%nat
      /\ List.length (notifications s2) = 2%nat.
Proof.
  split.
  - intros H. specialize (H _ eq_refl).
    apply (f_equal (fun r => List.length (notifications (snd r)))) in H.
    vm_compute in H. discriminate.
  - eexists. eexists. split; [vm_compute; reflexivity|].
    split; [vm_compute; reflexivity|]. split; reflexivity.
Qed.

(** C10.  When no payout carries the processor reference,
    [confirmPayoutCompletion] and [handlePayoutWebhook] return normally,
    whatever the status, and leave the store as it was: no payout or
    settlement is changed and no notification is sent. *)
Theorem unknown_reference_ignored
        (env : Env) (provider reference status : string)
        (details : option Details) (s : Store) :
  payoutByReference reference s = None ->
  PayoutService.confirmPayoutCompletion env reference status details s = (Ret tt, s)
  /\ PayoutServiceBatched.handlePayoutWebhook env provider reference status details s
     = (Ret tt, s).
Proof.
  unfold payoutByReference, hasProcessorReference. intros Hfind.
  unfold PayoutService.confirmPayoutCompletion,
    PayoutServiceBatched.handlePayoutWebhook, findPayoutByProcessorReference, bind.
  rewrite Hfind. split; reflexivity.
Qed.

Lemma unknown_reference_ignored_witness :
  PayoutService.confirmPayoutCompletion Samples.env0 "REF-404" "failed" None sentStore
  = (Ret tt, sentStore)
  /\ PayoutServiceBatched.handlePayoutWebhook
       Samples.env0 "instapay" "REF-404" "failed" None sentStore
     = (Ret tt, sentStore).
Proof.
  apply unknown_reference_ignored. reflexivity.
Defined.

End ReconciliationProps.

(* ================================================================== *)
(** ** The bank-transfer batch *)

Module BatchProps.

Import PayoutServiceBatched BatchSamples.

(** When the bank accepts the batch, every row of a member is sent. *)
Lemma accepted_batch_sends_members
      (env : Env) (members : list Payout) (s : Store) (result : RailResult) :
  rail env (extCalls s) = Resolved result ->
  rr_success result = true ->
  exists s',
    processBankTransferBatch env members s = (Ret tt, s')
    /\ forall p, In p (payouts s') -> In (po_id p) (map po_id members) ->
                 po_status p = SENT.
Proof.
  intros Hrail Hok.
  unfold processBankTransferBatch, generateBatchReference, generateReference,
    freshId, savePayoutBatch, try_catch, bind, modify, callRail, ret.
  cbn [extCalls with_payouts with_payoutBatches with_nextId].
  rewrite Hrail, Hok.
  eexists. split; [reflexivity|].
  cbn [payouts with_payouts with_payoutBatches with_nextId with_extCalls nextId].
  unfold update_where. intros p Hin Hmember.
  apply in_map_iff in Hin. destruct Hin as (r1 & Hp & Hin).
  apply in_map_iff in Hin. destruct Hin as (r & Hr1 & Hin).
  assert (Hid : po_id p = po_id r).
  { subst p r1.
    destruct (existsb _ _); destruct (option_Id_eqb _ _); reflexivity. }
  assert (Hex : existsb (Nat.eqb (po_id r)) (map po_id members) = true).
  { apply existsb_exists. exists (po_id r). rewrite <- Hid.
    split; [exact Hmember|apply Nat.eqb_refl]. }
  rewrite Hex in Hr1. subst r1 p.
  cbn [po_batchId set_po_batchId option_Id_eqb]. rewrite Nat.eqb_refl. reflexivity.
Qed.

(** When the bank answers with [success: false], the rows of the payouts
    change in their batch id only. *)
Lemma declined_batch_keeps_members
      (env : Env) (members : list Payout) (s : Store) (result : RailResult) :
  rail env (extCalls s) = Resolved result ->
  rr_success result = false ->
  exists s',
    processBankTransferBatch env members s = (Ret tt, s')
    /\ map po_status (payouts s') = map po_status (payouts s)
    /\ map po_retryCount (payouts s') = map po_retryCount (payouts s)
    /\ map po_failureMessage (payouts s') = map po_failureMessage (payouts s).
Proof.
  intros Hrail Hno.
  unfold processBankTransferBatch, generateBatchReference, generateReference,
    freshId, savePayoutBatch, try_catch, bind, modify, callRail, ret.
  cbn [extCalls with_payouts with_payoutBatches with_nextId].
  rewrite Hrail, Hno.
  eexists. split; [reflexivity|].
  cbn [payouts with_payouts with_payoutBatches with_nextId with_extCalls nextId].
  unfold update_where. rewrite !map_map.
  repeat split; apply map_ext; intros r; destruct (existsb _ _); reflexivity.
Qed.

(** C6, the successful submission: every member is sent. *)
Example accepted_batch_members_sent :
  exists s',
    processBankTransferBatch (envAnswering accepted) members pendingStore
    = (Ret tt, s')
    /\ map po_status (payouts s') = [SENT; SENT]
    /\ map po_batchId (payouts s') = [Some 102%nat; Some 102%nat]
    /\ map pb_status (payoutBatches s') = ["processing"].
Proof.
  eexists. split; [vm_compute; reflexivity|]. repeat split.
Qed.

(** C6, the submission that throws: every member is failed, with the error
    as failure message and one more retry counted. *)
Example unreachable_batch_members_failed :
  exists s',
    processBankTransferBatch (envAnswering unreachable) members pendingStore
    = (Ret tt, s')
    /\ map po_status (payouts s') = [FAILED; FAILED]
    /\ map po_failureMessage (payouts s') = [Some "ECONNRESET"; Some "ECONNRESET"]
    /\ map po_retryCount (payouts s') = [1; 1]
    /\ map pb_status (payoutBatches s') = ["failed"].
Proof.
  eexists. split; [vm_compute; reflexivity|]. repeat split.
Qed.

(** C6, the submission the bank answers with [success: false]: the batch
    is failed, but no member is; each keeps its status, has no failure
    message and no retry counted. *)
Theorem declined_batch_members_not_failed :
  exists s',
    processBankTransferBatch (envAnswering declined) members pendingStore
    = (Ret tt, s')
    /\ map pb_status (payoutBatches s') = ["failed"]
    /\ map po_status (payouts s') = [PENDING; PENDING]
    /\ map po_failureMessage (payouts s') = [None; None]
    /\ map po_retryCount (payouts s') = [0; 0].
Proof.
  eexists. split; [vm_compute; reflexivity|]. repeat split.
Qed.

End BatchProps.

(* ================================================================== *)
(** ** Retries *)

Module RetryProps.

Import RetrySpec TableLemmas.

(** *** Processing attempts (payfac/payout/payout.service.ts) *)

Lemma payoutById_save (payoutId : Id) (p p' : Payout) (rows : list Payout) :
  find (fun r => Nat.eqb (po_id r) payoutId) rows = Some p ->
  po_id p' = po_id p ->
  find (fun r => Nat.eqb (po_id r) payoutId) (save_row po_id p' rows) = Some p'.
Proof.
  intros Hfind Hid. apply (find_save_row_same _ p); [exact Hfind| |exact Hid].
  apply find_some in Hfind. rewrite Hid. tauto.
Qed.

Lemma processPayout_failure (env : Env) (payoutId : Id) (s : Store) (p : Payout) :
  payoutById payoutId s = Some p ->
  po_status p = APPROVED ->
  RailDown env s ->
  exists r s' p',
    PayoutService.processPayout env payoutId s = (Ret r, s')
    /\ PayoutService.success r = false
    /\ payoutById payoutId s' = Some p'
    /\ po_retryCount p' = po_retryCount p + 1
    /\ po_maxRetries p' = po_maxRetries p
    /\ po_status p' = statusAtRetryCount (po_retryCount p') (po_maxRetries p')
    /\ map po_id (payouts s') = map po_id (payouts s)
    /\ (extCalls s <= extCalls s')%nat.
Proof.
  unfold payoutById. intros Hfind Hstatus Hdown.
  destruct (Hdown (extCalls s) (le_n _)) as [e He].
  unfold PayoutService.processPayout, findPayoutById, bind at 1.
  rewrite Hfind, Hstatus. cbn [payoutStatus_eqb negb].
  set (p1 := set_po_initiatedAt _ _).
  assert (Hid1 : po_id p1 = po_id p) by reflexivity.
  assert (Hin : In (po_id p) (map po_id (payouts s))).
  { apply in_map. apply find_some in Hfind. tauto. }
  unfold statusAtRetryCount.
  assert (Hm : po_payoutMethod p1 = po_payoutMethod p) by reflexivity.
  assert (Hrc1 : po_retryCount p1 = po_retryCount p) by reflexivity.
  assert (Hmx1 : po_maxRetries p1 = po_maxRetries p) by reflexivity.
  clearbody p1.
  unfold try_catch, bind, savePayout, modify, notify, get, ret, throw,
    PayoutService.processInstapayPayout, PayoutService.processBankTransferPayout,
    PayoutService.processWalletPayout, callRail, try_catch, bind, ret.
  rewrite Hm.
  destruct (po_payoutMethod p); cbn [extCalls with_payouts]; rewrite ?He;
    cbn [PayoutService.to_success PayoutService.to_error PayoutService.errorMessage].
  all: simpl (po_retryCount (set_po_failureMessage _ _));
    simpl (po_maxRetries (set_po_failureMessage _ _)).
  all: destruct (po_retryCount p1 + 1 >=? po_maxRetries p1) eqn:E;
    (eexists; eexists; eexists; split; [reflexivity|]);
    (split; [reflexivity|]);
    cbn [payouts with_payouts with_notifications with_extCalls extCalls];
    (split; [apply (payoutById_save _ p1); [apply (payoutById_save _ p);
                [exact Hfind|exact Hid1]|reflexivity]|]);
    (split; [simpl; lia|]);
    (split; [simpl; lia|]);
    (split; [simpl; rewrite Z.geb_leb in E;
             destruct (Z.ltb_spec (po_retryCount p1 + 1) (po_maxRetries p1));
             destruct (Z.leb_spec (po_maxRetries p1) (po_retryCount p1 + 1));
             try reflexivity; try discriminate; lia|]);
    (split; [|lia]);
    rewrite save_row_keys; rewrite save_row_keys; try reflexivity;
    try (rewrite Hid1; exact Hin);
    try (simpl; rewrite Hid1; exact Hin).
Qed.

Lemma RailDown_later (env : Env) (s s' : Store) :
  (extCalls s <= extCalls s')%nat -> RailDown env s -> RailDown env s'.
Proof.
  intros Hle Hdown n Hn. apply Hdown. lia.
Qed.

Lemma attempts_fail (env : Env) (payoutId : Id) (k : nat) :
  forall (s : Store) (p : Payout),
    payoutById payoutId s = Some p ->
    po_status p = APPROVED ->
    RailDown env s ->
    (0 < k)%nat ->
    po_retryCount p + Z.of_nat k <= po_maxRetries p ->
    exists s' p',
      attempts env payoutId k s = (Ret tt, s')
      /\ payoutById payoutId s' = Some p'
      /\ po_retryCount p' = po_retryCount p + Z.of_nat k
      /\ po_maxRetries p' = po_maxRetries p
      /\ po_status p' = statusAtRetryCount (po_retryCount p') (po_maxRetries p')
      /\ map po_id (payouts s') = map po_id (payouts s).
Proof.
  induction k as [|k IH]; intros s p Hfind Hstatus Hdown Hk Hbound; [lia|].
  destruct (processPayout_failure env payoutId s p Hfind Hstatus Hdown)
    as (r & s1 & p1 & Hrun & _ & Hfind1 & Hrc1 & Hmx1 & Hst1 & Hids1 & Hcalls).
  cbn [attempts]. unfold bind at 1. rewrite Hrun.
  destruct k as [|k'].
  - exists s1, p1. cbn [attempts]. unfold ret.
    repeat split; try assumption; try lia.
  - assert (Happroved : po_status p1 = APPROVED).
    { rewrite Hst1. unfold statusAtRetryCount.
      destruct (Z.ltb_spec (po_retryCount p1) (po_maxRetries p1)); [reflexivity|lia]. }
    destruct (IH s1 p1 Hfind1 Happroved (RailDown_later env s s1 Hcalls Hdown))
      as (s' & p' & Hrun' & Hfind' & Hrc' & Hmx' & Hst' & Hids'); [lia|lia|].
    exists s', p'. repeat split; try assumption; try lia; congruence.
Qed.

Lemma processPayout_refuses_failed (env : Env) (payoutId : Id) (s : Store) (p : Payout) :
  payoutById payoutId s = Some p ->
  po_status p = FAILED ->
  exists r,
    PayoutService.processPayout env payoutId s = (Ret r, s)
    /\ PayoutService.success r = false.
Proof.
  unfold payoutById. intros Hfind Hstatus.
  unfold PayoutService.processPayout, findPayoutById, bind.
  rewrite Hfind, Hstatus. cbn [payoutStatus_eqb negb].
  eexists. split; reflexivity.
Qed.

(** *** The retry sweep (unnamed/part_003) *)

Lemma processSinglePayout_others
      (env : Env) (q p : Payout) (s s' : Store)
      (r : Outcome PayoutServiceBatched.PayoutResult) :
  PayoutServiceBatched.processSinglePayout env q s = (r, s') ->
  In (po_id q) (map po_id (payouts s)) ->
  In p (payouts s) ->
  po_id p <> po_id q ->
  In p (payouts s') /\ map po_id (payouts s') = map po_id (payouts s).
Proof.
  intros Hrun Hq Hp Hne.
  unfold PayoutServiceBatched.processSinglePayout in Hrun.
  set (q1 := set_po_initiatedAt _ _) in Hrun.
  assert (Hid1 : po_id q1 = po_id q) by reflexivity.
  assert (Hm : po_payoutMethod q1 = po_payoutMethod q) by reflexivity.
  assert (Hipa : po_destinationIpa q1 = po_destinationIpa q) by reflexivity.
  clearbody q1.
  assert (Hsave : forall q2 rows,
             po_id q2 = po_id q ->
             In p rows /\ map po_id rows = map po_id (payouts s) ->
             In p (save_row po_id q2 rows)
             /\ map po_id (save_row po_id q2 rows) = map po_id (payouts s)).
  { intros q2 rows Hid [Hin Hids]. split.
    - apply save_row_keeps; [exact Hin|congruence].
    - rewrite save_row_keys; [exact Hids|]. rewrite Hid, Hids. exact Hq. }
  revert Hrun.
  unfold try_catch, bind, savePayout, modify, get, ret, throw,
    PayoutServiceBatched.notifyPayoutSuccess, PayoutServiceBatched.notifyPayoutFailure,
    PayoutServiceBatched.processInstapayPayout,
    PayoutServiceBatched.processBankTransferPayout,
    PayoutServiceBatched.processWalletPayout, callRail, notify, modify, bind, get, ret.
  rewrite Hm, Hipa.
  destruct (po_payoutMethod q); [destruct (truthy_string (po_destinationIpa q))|..];
    cbn [negb extCalls with_payouts];
    try destruct (rail env (extCalls s)) as [res|e];
    cbn [PayoutServiceBatched.success];
    try destruct (rr_success res).
  all: repeat match goal with
       | |- context [match subMerchantOf ?a ?b with _ => _ end] =>
           destruct (subMerchantOf a b)
       | |- context [if ?c then _ else _] => destruct c
       end.
  all: intros Hrun; injection Hrun as _ <-;
    cbn [payouts with_payouts with_notifications with_extCalls];
    repeat (apply Hsave; [exact Hid1|]); split; [exact Hp|reflexivity].
Qed.

Lemma for_each_invariant {A} (I : Store -> Prop) (body : A -> M unit) (xs : list A) :
  (forall x, In x xs -> forall s r s', I s -> body x s = (r, s') -> I s') ->
  forall s r s', I s -> for_each xs body s = (r, s') -> I s'.
Proof.
  induction xs as [|x xs IH]; intros Hbody s r s' Hs Hrun; simpl in Hrun.
  - unfold ret in Hrun. injection Hrun as _ <-. exact Hs.
  - unfold bind in Hrun. destruct (body x s) as [[[]|e] s1] eqn:Hx.
    + apply (IH (fun y Hy => Hbody y (or_intror Hy)) s1 r s'); [|exact Hrun].
      apply (Hbody x (or_introl eq_refl) s _ s1 Hs Hx).
    + injection Hrun as _ <-. apply (Hbody x (or_introl eq_refl) s _ s1 Hs Hx).
Qed.

Lemma retryFailedPayouts_keeps
      (env : Env) (p : Payout) (s s' : Store) (r : Outcome unit) :
  NoDup (map po_id (payouts s)) ->
  In p (payouts s) ->
  po_maxRetries p <= po_retryCount p ->
  PayoutServiceBatched.retryFailedPayouts env s = (r, s') ->
  In p (payouts s') /\ map po_id (payouts s') = map po_id (payouts s).
Proof.
  intros Hnd Hp Hex Hrun.
  unfold PayoutServiceBatched.retryFailedPayouts, bind, get in Hrun.
  revert Hrun.
  apply (for_each_invariant
           (fun st => In p (payouts st)
                      /\ map po_id (payouts st) = map po_id (payouts s)));
    [|split; [exact Hp|reflexivity]].
  intros q Hq st r1 st' [Hin Hids] Hbody.
  apply filter_In in Hq. destruct Hq as [Hq Hretriable].
  apply filter_In in Hq. destruct Hq as [Hq _].
  assert (Hne : po_id p <> po_id q).
  { intros Heq. assert (p = q) by (apply (NoDup_map_eq po_id (payouts s)); assumption).
    subst q. unfold PayoutServiceBatched.retriable in Hretriable.
    apply Z.ltb_lt in Hretriable. lia. }
  unfold try_catch, bind, ret in Hbody.
  destruct (PayoutServiceBatched.processSinglePayout env q st) as [out st1] eqn:Hsingle.
  assert (Hst1 : In p (payouts st1) /\ map po_id (payouts st1) = map po_id (payouts st)).
  { apply (processSinglePayout_others env q p st st1 out Hsingle); [|exact Hin|exact Hne].
    rewrite Hids. apply in_map. exact Hq. }
  destruct out; injection Hbody as _ <-; (split; [tauto|]); destruct Hst1; congruence.
Qed.

Lemma sweeps_keep (env : Env) (p : Payout) (k : nat) :
  forall (s s' : Store) (r : Outcome unit),
    NoDup (map po_id (payouts s)) ->
    In p (payouts s) ->
    po_maxRetries p <= po_retryCount p ->
    sweeps env k s = (r, s') ->
    In p (payouts s') /\ map po_id (payouts s') = map po_id (payouts s).
Proof.
  induction k as [|k IH]; intros s s' r Hnd Hp Hex Hrun; simpl in Hrun.
  - unfold ret in Hrun. injection Hrun as _ <-. auto.
  - unfold bind in Hrun.
    destruct (PayoutServiceBatched.retryFailedPayouts env s) as [out s1] eqn:Hsweep.
    destruct (retryFailedPayouts_keeps env p s s1 out Hnd Hp Hex Hsweep) as [Hin Hids].
    destruct out as [[]|e].
    + destruct (IH s1 s' r) as [Hin' Hids']; try assumption; [congruence|].
      split; [exact Hin'|congruence].
    + injection Hrun as _ <-. auto.
Qed.

Lemma find_by_id_NoDup (p : Payout) (rows : list Payout) :
  NoDup (map po_id rows) -> In p rows ->
  find (fun r => Nat.eqb (po_id r) (po_id p)) rows = Some p.
Proof.
  induction rows as [|r rows IH]; simpl; intros Hnd Hin; [contradiction|].
  inversion Hnd as [|k ks Hnotin Hnd']; subst.
  destruct Hin as [->|Hin].
  - rewrite Nat.eqb_refl. reflexivity.
  - destruct (Nat.eqb_spec (po_id r) (po_id p)) as [Heq|_]; [|auto].
    exfalso. apply Hnotin. rewrite Heq. apply in_map. exact Hin.
Qed.


(** C3.  A payout that is approved and whose next [k >= 1] processing
    attempts all fail, with retryCount + k <= maxRetries, has its retry
    count raised by [k]; after them it is back in approved while its retry
    count is below maxRetries, and failed once the count has reached
    maxRetries.  From then on failed is terminal: [processPayout] refuses
    the payout and changes nothing, the filter of [retryFailedPayouts]
    rejects it, and any number of retry sweeps leaves its row as it is. *)
Theorem retry_bound
        (env : Env) (payoutId : Id) (k : nat) (s : Store) (p : Payout) :
  payoutById payoutId s = Some p ->
  po_status p = APPROVED ->
  RailDown env s ->
  NoDup (map po_id (payouts s)) ->
  (0 < k)%nat ->
  po_retryCount p + Z.of_nat k <= po_maxRetries p ->
  exists s' p',
    attempts env payoutId k s = (Ret tt, s')
    /\ payoutById payoutId s' = Some p'
    /\ po_retryCount p' = po_retryCount p + Z.of_nat k
    /\ po_maxRetries p' = po_maxRetries p
    /\ po_status p' = statusAtRetryCount (po_retryCount p') (po_maxRetries p')
    /\ (po_maxRetries p' <= po_retryCount p' ->
        po_status p' = FAILED
        /\ (exists r,
               PayoutService.processPayout env payoutId s' = (Ret r, s')
               /\ PayoutService.success r = false)
        /\ PayoutServiceBatched.retriable p' = false
        /\ forall n out s'',
              sweeps env n s' = (out, s'') -> payoutById payoutId s'' = Some p').
Proof.
  intros Hfind Hstatus Hdown Hnd Hk Hbound.
  destruct (attempts_fail env payoutId k s p Hfind Hstatus Hdown Hk Hbound)
    as (s' & p' & Hrun & Hfind' & Hrc & Hmx & Hst & Hids).
  exists s', p'. do 5 (split; [assumption|]).
  intros Hspent. repeat split.
  - rewrite Hst. unfold statusAtRetryCount.
    destruct (Z.ltb_spec (po_retryCount p') (po_maxRetries p')); [lia|reflexivity].
  - apply (processPayout_refuses_failed env payoutId s' p' Hfind').
    rewrite Hst. unfold statusAtRetryCount.
    destruct (Z.ltb_spec (po_retryCount p') (po_maxRetries p')); [lia|reflexivity].
  - unfold PayoutServiceBatched.retriable. apply Z.ltb_ge. assumption.
  - intros n out s'' Hsweeps.
    assert (Hnd' : NoDup (map po_id (payouts s'))) by (rewrite Hids; exact Hnd).
    pose proof Hfind' as Hin. unfold payoutById in Hin. apply find_some in Hin.
    destruct Hin as [Hin Hid]. apply Nat.eqb_eq in Hid.
    destruct (sweeps_keep env p' n s' s'' out Hnd' Hin Hspent Hsweeps)
      as [Hin'' Hids''].
    unfold payoutById. rewrite <- Hid. apply find_by_id_NoDup; [|exact Hin''].
    rewrite Hids''. exact Hnd'.
Qed.

(** A payout with maxRetries = 3 whose three attempts time out. *)
Lemma retry_bound_witness :
  exists s' p',
    attempts Samples.env0 9 3 approvedStore = (Ret tt, s')
    /\ payoutById 9 s' = Some p'
    /\ po_retryCount p' = po_retryCount approvedPayout + Z.of_nat 3
    /\ po_maxRetries p' = po_maxRetries approvedPayout
    /\ po_status p' = statusAtRetryCount (po_retryCount p') (po_maxRetries p')
    /\ (po_maxRetries p' <= po_retryCount p' ->
        po_status p' = FAILED
        /\ (exists r,
               PayoutService.processPayout Samples.env0 9 s' = (Ret r, s')
               /\ PayoutService.success r = false)
        /\ PayoutServiceBatched.retriable p' = false
        /\ forall n out s'',
              sweeps Samples.env0 n s' = (out, s'') -> payoutById 9 s'' = Some p').
Proof.
  apply (retry_bound Samples.env0 9 3 approvedStore approvedPayout).
  - reflexivity.
  - reflexivity.
  - intros n _. exists "timeout". reflexivity.
  - simpl. repeat constructor. simpl. tauto.
  - lia.
  - simpl. lia.
Defined.

(** The same bound in the service with the retry sweep: a failed instant
    transfer with one retry counted is attempted again by two sweeps, and by
    none after its third failure. *)
Example sweeps_stop_at_maxRetries :
  exists s1 s2 p1 p2,
    sweeps Samples.env0 1 failedOnceStore = (Ret tt, s1)
    /\ sweeps Samples.env0 1 s1 = (Ret tt, s2)
    /\ payoutById 9 s1 = Some p1 /\ payoutById 9 s2 = Some p2
    /\ (po_status p1, po_retryCount p1, extCalls s1) = (FAILED, 2, 1%nat)
    /\ (po_status p2, po_retryCount p2, extCalls s2) = (FAILED, 3, 2%nat)
    /\ sweeps Samples.env0 5 s2 = (Ret tt, s2).
Proof.
  do 4 eexists.
  split; [vm_compute; reflexivity|]. split; [vm_compute; reflexivity|].
  split; [vm_compute; reflexivity|]. split; [vm_compute; reflexivity|].
  repeat split.
Qed.

(** The scenario of the specification, step by step. *)
Example three_failures :
  exists s1 s2 s3 p1 p2 p3,
    attempts Samples.env0 9 1 approvedStore = (Ret tt, s1)
    /\ attempts Samples.env0 9 1 s1 = (Ret tt, s2)
    /\ attempts Samples.env0 9 1 s2 = (Ret tt, s3)
    /\ payoutById 9 s1 = Some p1 /\ payoutById 9 s2 = Some p2
    /\ payoutById 9 s3 = Some p3
    /\ (po_status p1, po_retryCount p1) = (APPROVED, 1)
    /\ (po_status p2, po_retryCount p2) = (APPROVED, 2)
    /\ (po_status p3, po_retryCount p3) = (FAILED, 3)
    /\ sweeps Samples.env0 2 s3 = (Ret tt, s3).
Proof.
  do 6 eexists.
  split; [vm_compute; reflexivity|]. split; [vm_compute; reflexivity|].
  split; [vm_compute; reflexivity|]. split; [vm_compute; reflexivity|].
  split; [vm_compute; reflexivity|]. split; [vm_compute; reflexivity|].
  repeat split.
Qed.

End RetryProps.

(* ================================================================== *)
(** * Further properties of the services *)

(* ================================================================== *)
(** ** Claiming ledger rows *)

Module ClaimProps.

Import SettlementEngine ClaimSpec SkipSpec.

Lemma calculateAmounts_selection
      (s : Store) (id : Id) (periodStart periodEnd : Date) :
  exists c,
    calculateAmounts id periodStart periodEnd s = (Ret c, s)
    /\ calc_transactions c
       = filter (selectsTransaction id periodStart periodEnd) (transactions s)
    /\ calc_refunds c = filter (selectsRefund id periodStart periodEnd) (refunds s)
    /\ calc_disputes c = filter (selectsDispute id periodStart periodEnd) (disputes s)
    /\ transactionCount c = List.length (calc_transactions c)
    /\ refundCount c = List.length (calc_refunds c)
    /\ disputeCount c = List.length (calc_disputes c).
Proof.
  unfold calculateAmounts, bind, get, ret.
  destruct (sumTransactions _) as [[gs pf] plf].
  destruct (sumRefunds _) as [gr rfee].
  destruct (sumDisputes _) as [gd dfee].
  eexists. split; [reflexivity|]. simpl. repeat split.
Qed.

(** A row that was selected and then marked by id is not selected again. *)
Lemma filter_update_where_nil {A} (key : A -> Id) (select : A -> bool)
      (mark : A -> A) (rows : list A) :
  (forall r, select (mark r) = false) ->
  filter select (update_where (hasIdIn key (filter select rows)) mark rows) = [].
Proof.
  intros Hmark.
  assert (H : forall r, In r rows ->
                        select (if hasIdIn key (filter select rows) r
                                then mark r else r) = false).
  { intros r Hin. destruct (hasIdIn key (filter select rows) r) eqn:E.
    - apply Hmark.
    - destruct (select r) eqn:Hsel; [|reflexivity].
      exfalso. unfold hasIdIn in E.
      assert (Hex : existsb (Nat.eqb (key r)) (map key (filter select rows)) = true).
      { apply existsb_exists. exists (key r). split; [|apply Nat.eqb_refl].
        apply in_map. apply filter_In. auto. }
      congruence. }
  unfold update_where. revert H.
  generalize (hasIdIn key (filter select rows)). intros h H.
  induction rows as [|r rows IH]; [reflexivity|].
  cbn [map filter]. rewrite (H r (or_introl eq_refl)).
  apply IH. intros r' Hin. apply H. right. exact Hin.
Qed.

Lemma SameLedger_refl (s : Store) : SameLedger s s.
Proof. repeat split. Qed.

Lemma SameLedger_trans (s1 s2 s3 : Store) :
  SameLedger s1 s2 -> SameLedger s2 s3 -> SameLedger s1 s3.
Proof.
  intros (? & ? & ?) (? & ? & ?). repeat split; congruence.
Qed.

Lemma createSettlement_ledger
      (env : Env) (m : SubMerchant) (date : Date) (c : SettlementCalculation)
      (s : Store) :
  exists st s1,
    createSettlement env m date c s = (Ret st, s1)
    /\ SameLedger s s1
    /\ st_subMerchantId st = sm_id m
    /\ st_id st = nextId s.
Proof.
  unfold createSettlement, generateSettlementReference, generateReference,
    freshId, saveSettlement, modify, bind, ret.
  eexists. eexists. split; [reflexivity|]. repeat split.
Qed.

Lemma createSettlementItems_ledger
      (env : Env) (st : Settlement) (c : SettlementCalculation) (s : Store) :
  exists s1,
    createSettlementItems env st c s = (Ret tt, s1) /\ SameLedger s s1.
Proof.
  unfold createSettlementItems, modify. eexists. split; [reflexivity|].
  repeat split.
Qed.

Lemma markTransactionsSettled_effect
      (env : Env) (txs : list Transaction) (sid : Id) (s : Store) :
  exists s1,
    markTransactionsSettled env txs sid s = (Ret tt, s1)
    /\ transactions s1
       = update_where (hasIdIn tx_id txs)
                      (fun t => set_tx_settledAt (Some (now env))
                                  (set_tx_settlementId (Some sid) t))
                      (transactions s)
    /\ refunds s1 = refunds s
    /\ disputes s1 = disputes s.
Proof.
  unfold markTransactionsSettled. destruct txs as [|t txs].
  - exists s. split; [reflexivity|]. repeat split.
    unfold update_where, hasIdIn. simpl. symmetry. apply map_id.
  - eexists. split; [reflexivity|]. repeat split.
Qed.

Lemma markRefundsSettled_effect (rfs : list Refund) (sid : Id) (s : Store) :
  exists s1,
    markRefundsSettled rfs sid s = (Ret tt, s1)
    /\ transactions s1 = transactions s
    /\ refunds s1
       = update_where (hasIdIn rf_id rfs) (set_rf_settlementId (Some sid)) (refunds s)
    /\ disputes s1 = disputes s.
Proof.
  unfold markRefundsSettled. destruct rfs as [|r rfs].
  - exists s. split; [reflexivity|]. repeat split.
    unfold update_where, hasIdIn. simpl. symmetry. apply map_id.
  - eexists. split; [reflexivity|]. repeat split.
Qed.

Lemma markDisputesSettled_effect (dps : list Dispute) (sid : Id) (s : Store) :
  exists s1,
    markDisputesSettled dps sid s = (Ret tt, s1)
    /\ transactions s1 = transactions s
    /\ refunds s1 = refunds s
    /\ disputes s1
       = update_where (hasIdIn dp_id dps) (set_dp_settlementId (Some sid)) (disputes s).
Proof.
  unfold markDisputesSettled. destruct dps as [|d dps].
  - exists s. split; [reflexivity|]. repeat split.
    unfold update_where, hasIdIn. simpl. symmetry. apply map_id.
  - eexists. split; [reflexivity|]. repeat split.
Qed.

Lemma for_each_reserves_ledger (g : Reserve -> list Reserve -> list Reserve)
      (rss : list Reserve) :
  forall s, exists s1,
    for_each rss (fun r => modify (with_reserves (g r))) s = (Ret tt, s1)
    /\ SameLedger s s1.
Proof.
  induction rss as [|r rss IH]; intros s; simpl.
  - exists s. split; [reflexivity|apply SameLedger_refl].
  - unfold bind, modify at 1.
    destruct (IH (with_reserves (g r) s)) as (s1 & Hrun & Hsame).
    exists s1. split; [exact Hrun|]. exact Hsame.
Qed.

Lemma processReserves_ledger
      (env : Env) (m : SubMerchant) (st : Settlement) (c : SettlementCalculation)
      (s : Store) :
  exists s1, processReserves env m st c s = (Ret tt, s1) /\ SameLedger s s1.
Proof.
  unfold processReserves.
  destruct (Decimal.greaterThan (reserveHeld c) 0).
  - unfold bind at 1. unfold bind at 1. unfold freshId, modify at 1.
    match goal with
    | |- context [for_each ?l (fun r => modify (with_reserves (@?g r))) ?s0] =>
        destruct (for_each_reserves_ledger g l s0) as (s1 & Hrun & Hsame)
    end.
    exists s1. split; [exact Hrun|]. exact Hsame.
  - unfold bind at 1, ret at 1.
    match goal with
    | |- context [for_each ?l (fun r => modify (with_reserves (@?g r))) ?s0] =>
        destruct (for_each_reserves_ledger g l s0) as (s1 & Hrun & Hsame)
    end.
    exists s1. split; [exact Hrun|]. exact Hsame.
Qed.

Lemma getPayoutDestination_state
      (sm : SubMerchant) (s s' : Store) (r : Outcome PayoutDestination) :
  getPayoutDestination sm s = (r, s') -> s' = s.
Proof.
  unfold getPayoutDestination, ret, throw.
  repeat match goal with |- context [if ?b then _ else _] => destruct b end;
    intros H; injection H as _ <-; reflexivity.
Qed.

Lemma approveSettlement_ledger
      (env : Env) (createPayout : CreatePayoutDto -> M Payout)
      (sid : Id) (approvedBy : string) (s s1 : Store) (r : Outcome Settlement) :
  PreservesLedger createPayout ->
  approveSettlement env createPayout sid approvedBy s = (r, s1) ->
  SameLedger s s1.
Proof.
  intros Hcp. unfold approveSettlement, bind at 1, get.
  destruct (find _ (settlements s)) as [st|];
    [|unfold throw; intros H; injection H as _ <-; apply SameLedger_refl].
  destruct (st_status st);
    try (unfold throw; intros H; injection H as _ <-; apply SameLedger_refl).
  unfold bind at 1, saveSettlement at 1, modify at 1.
  unfold bind at 1, createPayoutForSettlement, bind at 1, get.
  set (st1 := set_st_approvedBy _ _).
  set (s0 := with_settlements _ s).
  assert (H0 : SameLedger s s0) by (repeat split).
  clearbody s0.
  destruct (subMerchantOf s0 _) as [sm|];
    [|unfold throw; intros H; injection H as _ <-; exact H0].
  unfold bind at 1.
  destruct (getPayoutDestination sm s0) as [[dest|e] s2] eqn:Hdest;
    apply getPayoutDestination_state in Hdest; subst s2;
    [|intros H; injection H as _ <-; exact H0].
  unfold bind at 1.
  match goal with
  | |- context [createPayout ?dto s0] =>
      destruct (createPayout dto s0) as [[p|e] s3] eqn:Hpay
  end.
  - unfold bind, saveSettlement, modify, ret. intros H. injection H as _ <-.
    apply (SameLedger_trans s s0); [exact H0|].
    apply (SameLedger_trans s0 s3); [exact (Hcp _ _ _ _ Hpay)|]. repeat split.
  - intros H. injection H as _ <-.
    apply (SameLedger_trans s s0); [exact H0|]. exact (Hcp _ _ _ _ Hpay).
Qed.

(** What a run that does not skip does to the ledger: the selected rows
    are marked with the id of the new settlement, which is the next id of
    the store, also when the approval that follows throws. *)
Lemma calculateSettlementForMerchant_marks
      (env : Env) (createPayout : CreatePayoutDto -> M Payout)
      (m : SubMerchant) (date : Date) (s s' : Store)
      (r : Outcome (option Settlement)) :
  PreservesLedger createPayout ->
  calculateSettlementForMerchant env createPayout m date s = (r, s') ->
  r <> Ret None ->
  transactions s'
  = update_where
      (hasIdIn tx_id
         (filter (selectsTransaction (sm_id m) (fst (getSettlementPeriod m date))
                                     (snd (getSettlementPeriod m date)))
                 (transactions s)))
      (fun t => set_tx_settledAt (Some (now env))
                  (set_tx_settlementId (Some (nextId s)) t))
      (transactions s)
  /\ refunds s'
     = update_where
         (hasIdIn rf_id
            (filter (selectsRefund (sm_id m) (fst (getSettlementPeriod m date))
                                   (snd (getSettlementPeriod m date)))
                    (refunds s)))
         (set_rf_settlementId (Some (nextId s))) (refunds s)
  /\ disputes s'
     = update_where
         (hasIdIn dp_id
            (filter (selectsDispute (sm_id m) (fst (getSettlementPeriod m date))
                                    (snd (getSettlementPeriod m date)))
                    (disputes s)))
         (set_dp_settlementId (Some (nextId s))) (disputes s)
  /\ forall st, r = Ret (Some st) ->
                st_id st = nextId s /\ st_subMerchantId st = sm_id m.
Proof.
  intros Hcp. unfold calculateSettlementForMerchant.
  destruct (getSettlementPeriod m date) as [ps pe]. cbn [fst snd].
  destruct (calculateAmounts_selection s (sm_id m) ps pe)
    as (c & Hc & Htx & Hrf & Hdp & _).
  unfold bind at 1. rewrite Hc.
  destruct (_ && _); [intros H; injection H as <- _; congruence|].
  destruct (Decimal.lessThan _ _); [intros H; injection H as <- _; congruence|].
  destruct (createSettlement_ledger env m date c s)
    as (st & s1 & H1 & L1 & Hsm & Hid).
  unfold bind at 1. rewrite H1.
  destruct (createSettlementItems_ledger env st c s1) as (s2 & H2 & L2).
  unfold bind at 1. rewrite H2.
  destruct (markTransactionsSettled_effect env (calc_transactions c) (st_id st) s2)
    as (s3 & H3 & T3 & R3 & D3).
  unfold bind at 1. rewrite H3.
  destruct (markRefundsSettled_effect (calc_refunds c) (st_id st) s3)
    as (s4 & H4 & T4 & R4 & D4).
  unfold bind at 1. rewrite H4.
  destruct (markDisputesSettled_effect (calc_disputes c) (st_id st) s4)
    as (s5 & H5 & T5 & R5 & D5).
  unfold bind at 1. rewrite H5.
  destruct (processReserves_ledger env m st c s5) as (s6 & H6 & L6).
  unfold bind at 1. rewrite H6.
  assert (Hfinal : forall s7, SameLedger s6 s7 ->
            transactions s7
            = update_where (hasIdIn tx_id (calc_transactions c))
                (fun t => set_tx_settledAt (Some (now env))
                            (set_tx_settlementId (Some (st_id st)) t))
                (transactions s)
            /\ refunds s7
               = update_where (hasIdIn rf_id (calc_refunds c))
                   (set_rf_settlementId (Some (st_id st))) (refunds s)
            /\ disputes s7
               = update_where (hasIdIn dp_id (calc_disputes c))
                   (set_dp_settlementId (Some (st_id st))) (disputes s)).
  { intros s7 (T7 & R7 & D7).
    destruct L1 as (T1 & R1 & D1), L2 as (T2 & R2 & D2), L6 as (T6 & R6 & D6).
    repeat split; congruence. }
  rewrite <- Htx, <- Hrf, <- Hdp, <- Hid.
  intros Hrun Hr.
  assert (Hboth : SameLedger s6 s' /\ forall st', r = Ret (Some st') -> st' = st).
  { revert Hrun. unfold bind at 1.
    destruct (shouldAutoApprove m (netAmount c)).
    - unfold bind at 1.
      destruct (approveSettlement env createPayout (st_id st) "system" s6)
        as [[a|e] s7] eqn:Ha;
        pose proof (approveSettlement_ledger _ _ _ _ _ _ _ Hcp Ha) as L7.
      + unfold ret at 1, bind, notify, modify, ret.
        intros H. injection H as <- <-. split; [exact L7|].
        intros st' E. injection E as <-. reflexivity.
      + intros H. injection H as <- <-. split; [exact L7|]. discriminate.
    - unfold ret at 1, bind, notify, modify, ret.
      intros H. injection H as <- <-. split; [repeat split|].
      intros st' E. injection E as <-. reflexivity. }
  destruct Hboth as [Hledger Hst].
  destruct (Hfinal s' Hledger) as (Ft & Fr & Fd).
  split; [exact Ft|]. split; [exact Fr|]. split; [exact Fd|].
  intros st' E. rewrite (Hst _ E). split; [reflexivity|exact Hsm].
Qed.

Lemma marked_not_selected :
  (forall env sid id ps pe t,
      selectsTransaction id ps pe
        (set_tx_settledAt (Some (now env)) (set_tx_settlementId (Some sid) t)) = false)
  /\ (forall sid id ps pe r,
         selectsRefund id ps pe (set_rf_settlementId (Some sid) r) = false)
  /\ (forall sid id ps pe d,
         selectsDispute id ps pe (set_dp_settlementId (Some sid) d) = false).
Proof.
  unfold selectsTransaction, selectsRefund, selectsDispute.
  repeat split; intros; simpl;
    rewrite andb_false_r; reflexivity.
Qed.

(** X3.  A run of [calculateSettlementForMerchant] that does not skip
    claims every ledger row it selected: a second calculation for the same
    sub-merchant and date, on the store the run left, selects no
    transaction, no refund and no dispute, whatever the injected
    [createPayout] does outside the ledger, and also when the approval
    threw. *)
Theorem claimed_rows_not_selected_again
        (env : Env) (createPayout : CreatePayoutDto -> M Payout)
        (m : SubMerchant) (date : Date) (s s' : Store)
        (r : Outcome (option Settlement)) :
  PreservesLedger createPayout ->
  calculateSettlementForMerchant env createPayout m date s = (r, s') ->
  r <> Ret None ->
  exists c,
    calculationFor m date s' = (Ret c, s')
    /\ transactionCount c = 0%nat
    /\ refundCount c = 0%nat
    /\ disputeCount c = 0%nat.
Proof.
  intros Hcp Hrun Hr.
  destruct (calculateSettlementForMerchant_marks env createPayout m date s s' r
              Hcp Hrun Hr) as (Ht & Hf & Hd & _).
  unfold calculationFor.
  destruct (calculateAmounts_selection
              s' (sm_id m) (fst (getSettlementPeriod m date))
              (snd (getSettlementPeriod m date)))
    as (c & Hc & Htx & Hrf & Hdp & Ntx & Nrf & Ndp).
  exists c. split; [exact Hc|].
  destruct marked_not_selected as (Mt & Mr & Md).
  rewrite Ntx, Nrf, Ndp, Htx, Hrf, Hdp, Ht, Hf, Hd.
  rewrite !filter_update_where_nil; auto.
Qed.

Lemma createPayout_preserves_ledger (env : Env) :
  PreservesLedger (PayoutService.createPayout env)
  /\ PreservesLedger (PayoutServiceBatched.createPayout env).
Proof.
  split; intros dto s r s'.
  - unfold PayoutService.createPayout.
    destruct (dto_fee dto);
      [|unfold throw; intros H; injection H as _ <-; apply SameLedger_refl].
    unfold PayoutService.generatePayoutReference, generateReference, freshId,
      savePayout, modify, bind, ret.
    destruct (dto_settlementId dto); intros H; injection H as _ <-; repeat split.
  - unfold PayoutServiceBatched.createPayout,
      PayoutServiceBatched.generatePayoutReference, generateReference, freshId,
      savePayout, modify, bind, ret.
    intros H; injection H as _ <-; repeat split.
Qed.

Lemma claimed_rows_not_selected_again_witness :
  exists c,
    calculationFor
      clinic40 Samples.sunday
      (snd (calculateSettlementForMerchant
              Samples.env0 (PayoutService.createPayout Samples.env0)
              clinic40 Samples.sunday oneSale))
    = (Ret c,
       snd (calculateSettlementForMerchant
              Samples.env0 (PayoutService.createPayout Samples.env0)
              clinic40 Samples.sunday oneSale))
    /\ transactionCount c = 0%nat
    /\ refundCount c = 0%nat
    /\ disputeCount c = 0%nat.
Proof.
  apply (claimed_rows_not_selected_again
           Samples.env0 (PayoutService.createPayout Samples.env0)
           clinic40 Samples.sunday oneSale _
           (fst (calculateSettlementForMerchant
                   Samples.env0 (PayoutService.createPayout Samples.env0)
                   clinic40 Samples.sunday oneSale))).
  - apply createPayout_preserves_ledger.
  - apply surjective_pairing.
  - vm_compute. discriminate.
Defined.

(** *** Settling, then rejecting *)

Lemma rejectSettlement_tables
      (sid : Id) (rejectedBy reason : string) (s s' : Store) (st : Settlement) :
  rejectSettlement sid rejectedBy reason s = (Ret st, s') ->
  transactions s'
  = update_where (fun t => option_Id_eqb (tx_settlementId t) sid)
                 (fun t => set_tx_settledAt None (set_tx_settlementId None t))
                 (transactions s)
  /\ refunds s'
     = update_where (fun r => option_Id_eqb (rf_settlementId r) sid)
                    (set_rf_settlementId None) (refunds s)
  /\ disputes s' = disputes s
  /\ reserves s' = reserves s.
Proof.
  unfold rejectSettlement, bind at 1, get.
  destruct (find _ (settlements s)); [|discriminate].
  unfold bind, modify, saveSettlement, ret.
  intros H. injection H as _ <-. repeat split.
Qed.

Lemma map_fixed {A} (f : A -> A) (rows : list A) :
  (forall r, In r rows -> f r = r) -> map f rows = rows.
Proof.
  intros H. rewrite <- (map_id rows) at 2. apply map_ext_in. exact H.
Qed.

Lemma hasIdIn_selected {A} (key : A -> Id) (select : A -> bool)
      (rows : list A) (row : A) :
  NoDup (map key rows) ->
  In row rows ->
  hasIdIn key (filter select rows) row = true ->
  select row = true.
Proof.
  intros Hnd Hin Hhas. unfold hasIdIn in Hhas.
  apply existsb_exists in Hhas. destruct Hhas as (k & Hk & Heq).
  apply Nat.eqb_eq in Heq. subst k.
  apply in_map_iff in Hk. destruct Hk as (other & Hkey & Hother).
  apply filter_In in Hother. destruct Hother as [Hother Hsel].
  assert (other = row)
    by (apply (TableLemmas.NoDup_map_eq key rows); assumption).
  subst other. exact Hsel.
Qed.

(** X4.  Rejecting the settlement a run has just created gives the
    claimed transactions and refunds back: in a ledger whose row ids are
    unique, whose unsettled transactions carry no settlement time and where
    no row is linked to the id the store hands out next, the transactions
    and refunds after the rejection are those before the run.  The disputes
    stay as the run left them, claimed. *)
Theorem reject_undoes_claims
        (env : Env) (createPayout : CreatePayoutDto -> M Payout)
        (m : SubMerchant) (date : Date) (s s' s'' : Store)
        (st st' : Settlement) (rejectedBy reason : string) :
  PreservesLedger createPayout ->
  NoDup (map tx_id (transactions s)) ->
  NoDup (map rf_id (refunds s)) ->
  (forall t, In t (transactions s) ->
             tx_settlementId t = None -> tx_settledAt t = None) ->
  (forall t, In t (transactions s) -> tx_settlementId t <> Some (nextId s)) ->
  (forall r, In r (refunds s) -> rf_settlementId r <> Some (nextId s)) ->
  calculateSettlementForMerchant env createPayout m date s = (Ret (Some st), s') ->
  rejectSettlement (st_id st) rejectedBy reason s' = (Ret st', s'') ->
  transactions s'' = transactions s
  /\ refunds s'' = refunds s
  /\ disputes s'' = disputes s'.
Proof.
  intros Hcp Hndt Hndr Htime Hfresht Hfreshr Hrun Hreject.
  destruct (calculateSettlementForMerchant_marks
              env createPayout m date s s' _ Hcp Hrun ltac:(discriminate))
    as (Ht & Hr & _ & Hst).
  destruct (Hst st eq_refl) as [Hid _].
  destruct (rejectSettlement_tables _ _ _ _ _ _ Hreject) as (Rt & Rr & Rd & _).
  rewrite Hid in Rt, Rr.
  split; [|split; [|exact Rd]].
  - rewrite Rt, Ht. unfold update_where. rewrite map_map.
    apply map_fixed. intros t Hin.
    destruct (hasIdIn tx_id _ t) eqn:Hhas.
    + apply (hasIdIn_selected tx_id _ _ t Hndt Hin) in Hhas.
      unfold selectsTransaction in Hhas.
      apply andb_prop in Hhas. destruct Hhas as [Hhas _].
      apply andb_prop in Hhas. destruct Hhas as [_ Hnone].
      assert (Hlink : tx_settlementId t = None)
        by (destruct (tx_settlementId t); [discriminate|reflexivity]).
      pose proof (Htime t Hin Hlink) as Hsettled.
      cbn [tx_settlementId set_tx_settledAt set_tx_settlementId option_Id_eqb].
      rewrite Nat.eqb_refl. destruct t. simpl in *. subst. reflexivity.
    + pose proof (Hfresht t Hin) as Hfresh.
      destruct (tx_settlementId t) as [k|] eqn:Hk; simpl; [|reflexivity].
      destruct (Nat.eqb_spec k (nextId s)) as [Heq|_]; [|reflexivity].
      subst k. exfalso. apply Hfresh. reflexivity.
  - rewrite Rr, Hr. unfold update_where. rewrite map_map.
    apply map_fixed. intros r Hin.
    destruct (hasIdIn rf_id _ r) eqn:Hhas.
    + apply (hasIdIn_selected rf_id _ _ r Hndr Hin) in Hhas.
      unfold selectsRefund in Hhas.
      apply andb_prop in Hhas. destruct Hhas as [Hhas _].
      apply andb_prop in Hhas. destruct Hhas as [_ Hnone].
      assert (Hlink : rf_settlementId r = None)
        by (destruct (rf_settlementId r); [discriminate|reflexivity]).
      cbn [rf_settlementId set_rf_settlementId option_Id_eqb].
      rewrite Nat.eqb_refl. destruct r. simpl in *. subst. reflexivity.
    + pose proof (Hfreshr r Hin) as Hfresh.
      destruct (rf_settlementId r) as [k|] eqn:Hk; simpl; [|reflexivity].
      destruct (Nat.eqb_spec k (nextId s)) as [Heq|_]; [|reflexivity].
      subst k. exfalso. apply Hfresh. reflexivity.
Qed.

Lemma reject_undoes_claims_witness :
  exists st s' st' s'',
    calculateSettlementForMerchant
      Samples.env0 (PayoutService.createPayout Samples.env0)
      clinic40 Samples.sunday oneSale
    = (Ret (Some st), s')
    /\ rejectSettlement (st_id st) "ops" "duplicate run" s' = (Ret st', s'')
    /\ transactions s'' = transactions oneSale
    /\ refunds s'' = refunds oneSale
    /\ disputes s'' = disputes s'.
Proof.
  do 4 eexists. split; [vm_compute; reflexivity|].
  split; [vm_compute; reflexivity|].
  eapply (reject_undoes_claims
            Samples.env0 (PayoutService.createPayout Samples.env0)
            clinic40 Samples.sunday oneSale)
    with (rejectedBy := "ops") (reason := "duplicate run").
  - apply createPayout_preserves_ledger.
  - simpl. repeat constructor. simpl. tauto.
  - simpl. constructor.
  - simpl. intros t [<-|[]] _. reflexivity.
  - simpl. intros t [<-|[]]. discriminate.
  - simpl. intros r [].
  - vm_compute. reflexivity.
  - vm_compute. reflexivity.
Defined.

End ClaimProps.

(* ================================================================== *)
(** ** Approval and rejection of a settlement *)

Module ApprovalProps.

Import SettlementEngine RejectionSpec.

Lemma find_save_row_key {A} (key : A -> Id) (row : A) (rows : list A) :
  find (fun r => Nat.eqb (key r) (key row)) (save_row key row rows) = Some row.
Proof.
  unfold save_row, update_where.
  induction rows as [|r rows IH]; simpl.
  - rewrite Nat.eqb_refl. reflexivity.
  - destruct (Nat.eqb (key r) (key row)) eqn:E; simpl.
    + rewrite Nat.eqb_refl. reflexivity.
    + destruct (existsb _ rows); simpl; rewrite E; exact IH.
Qed.

Lemma save_row_twice {A} (key : A -> Id) (row : A) (rows : list A) :
  save_row key row (save_row key row rows) = save_row key row rows.
Proof.
  assert (Hex : existsb (fun r => Nat.eqb (key r) (key row))
                        (save_row key row rows) = true).
  { apply existsb_exists. exists row.
    split; [apply TableLemmas.In_save_row|apply Nat.eqb_refl]. }
  unfold save_row at 1. rewrite Hex. unfold update_where.
  apply ClaimProps.map_fixed. intros r Hin.
  destruct (Nat.eqb (key r) (key row)) eqn:E; [|reflexivity].
  unfold save_row, update_where in Hin.
  destruct (existsb (fun r0 => Nat.eqb (key r0) (key row)) rows) eqn:Hrows.
  - apply in_map_iff in Hin. destruct Hin as (r0 & Hr & _).
    revert Hr. destruct (Nat.eqb (key r0) (key row)) eqn:E0; intros Hr.
    + exact Hr.
    + subst r0. congruence.
  - apply in_app_or in Hin. destruct Hin as [Hin|[<-|[]]]; [|reflexivity].
    exfalso. clear Hex.
    assert (Hex : existsb (fun r0 => Nat.eqb (key r0) (key row)) rows = true).
    { apply existsb_exists. exists r. auto. }
    congruence.
Qed.

(** X5.  A settlement is approved at most once: when [approveSettlement]
    has returned, the settlement it returns is the stored one, it is
    approved and carries the id of its payout, and a second approval throws
    and changes nothing, whatever the injected [createPayout] does. *)
Theorem approveSettlement_once
        (env : Env) (createPayout : CreatePayoutDto -> M Payout)
        (sid : Id) (approvedBy : string) (s s1 : Store) (st : Settlement) :
  approveSettlement env createPayout sid approvedBy s = (Ret st, s1) ->
  findSettlement sid s1 = Some st
  /\ st_status st = ST_APPROVED
  /\ st_approvedBy st = Some approvedBy
  /\ st_payoutId st <> None
  /\ forall env' again,
        approveSettlement env' createPayout sid again s1
        = (Throw "Cannot approve settlement in status: approved", s1).
Proof.
  unfold approveSettlement at 1, bind at 1, get.
  destruct (find _ (settlements s)) as [st0|] eqn:Hfind; [|discriminate].
  assert (Hsid : st_id st0 = sid).
  { apply find_some in Hfind. apply Nat.eqb_eq. tauto. }
  destruct (st_status st0); try discriminate.
  unfold bind at 1, saveSettlement at 1, modify at 1.
  unfold bind at 1, createPayoutForSettlement, bind at 1, get.
  set (st1 := set_st_approvedBy _ _).
  set (s0 := with_settlements _ s). clearbody s0.
  destruct (subMerchantOf s0 _) as [sm|]; [|discriminate].
  unfold bind at 1.
  destruct (getPayoutDestination sm s0) as [[dest|e] s2]; [|discriminate].
  unfold bind at 1.
  match goal with
  | |- context [createPayout ?dto s2] =>
      destruct (createPayout dto s2) as [[p|e] s3]
  end; [|discriminate].
  unfold bind, saveSettlement, modify, ret. cbn [snd].
  intros H. injection H as <- <-.
  assert (Hfound : findSettlement sid
                     (with_settlements
                        (save_row st_id (set_st_payoutId (Some (po_id p)) st1)) s3)
                   = Some (set_st_payoutId (Some (po_id p)) st1)).
  { unfold findSettlement. cbn [settlements with_settlements].
    rewrite <- Hsid.
    apply (find_save_row_key st_id (set_st_payoutId (Some (po_id p)) st1)). }
  split; [exact Hfound|]. repeat split; try discriminate.
  intros env' again. unfold findSettlement in Hfound.
  unfold approveSettlement, bind, get. rewrite Hfound. reflexivity.
Qed.

Lemma rejectSettlement_stored
      (sid : Id) (rejectedBy reason : string) (s s1 : Store) (st : Settlement) :
  rejectSettlement sid rejectedBy reason s = (Ret st, s1) ->
  findSettlement sid s1 = Some st.
Proof.
  unfold rejectSettlement, bind at 1, get.
  destruct (find _ (settlements s)) as [st0|] eqn:Hfind; [|discriminate].
  assert (Hsid : st_id st0 = sid).
  { apply find_some in Hfind. apply Nat.eqb_eq. tauto. }
  unfold bind, modify, saveSettlement, ret.
  intros H. injection H as <- <-.
  unfold findSettlement. cbn [settlements with_settlements].
  rewrite <- Hsid.
  apply (find_save_row_key
           st_id (set_st_adjustmentNotes (Some reason)
                    (set_st_status ST_ON_HOLD st0))).
Qed.

(** X6.  A rejected settlement cannot be approved: after
    [rejectSettlement] has returned, the settlement is on hold and
    [approveSettlement] throws and changes nothing. *)
Theorem rejected_settlement_not_approvable
        (sid : Id) (rejectedBy reason : string) (s s1 : Store) (st : Settlement) :
  rejectSettlement sid rejectedBy reason s = (Ret st, s1) ->
  findSettlement sid s1 = Some st
  /\ st_status st = ST_ON_HOLD
  /\ forall env createPayout approvedBy,
        approveSettlement env createPayout sid approvedBy s1
        = (Throw "Cannot approve settlement in status: on_hold", s1).
Proof.
  unfold rejectSettlement, bind at 1, get.
  destruct (find _ (settlements s)) as [st0|] eqn:Hfind; [|discriminate].
  assert (Hsid : st_id st0 = sid).
  { apply find_some in Hfind. apply Nat.eqb_eq. tauto. }
  unfold bind, modify, saveSettlement, ret.
  intros H. injection H as <- <-.
  assert (Hfound : forall s0,
             findSettlement sid
               (with_settlements
                  (save_row st_id
                     (set_st_adjustmentNotes (Some reason)
                        (set_st_status ST_ON_HOLD st0))) s0)
             = Some (set_st_adjustmentNotes (Some reason)
                       (set_st_status ST_ON_HOLD st0))).
  { intros s0. unfold findSettlement. cbn [settlements with_settlements].
    rewrite <- Hsid.
    apply (find_save_row_key
             st_id (set_st_adjustmentNotes (Some reason)
                      (set_st_status ST_ON_HOLD st0))). }
  split; [apply Hfound|]. split; [reflexivity|].
  intros env createPayout approvedBy.
  unfold approveSettlement, bind, get.
  specialize (Hfound (with_refunds
                        (update_where
                           (fun r => option_Id_eqb (rf_settlementId r) sid)
                           (set_rf_settlementId None))
                        (with_transactions
                           (update_where
                              (fun t => option_Id_eqb (tx_settlementId t) sid)
                              (fun t => set_tx_settledAt None
                                          (set_tx_settlementId None t))) s))).
  unfold findSettlement in Hfound. rewrite Hfound. reflexivity.
Qed.

Lemma approveSettlement_once_witness :
  exists st s1,
    approveSettlement Samples.env0 (PayoutService.createPayout Samples.env0)
                      100 "ops" settledStore
    = (Ret st, s1)
    /\ findSettlement 100 s1 = Some st
    /\ st_status st = ST_APPROVED
    /\ st_approvedBy st = Some "ops"
    /\ st_payoutId st <> None
    /\ forall env' again,
          approveSettlement env' (PayoutService.createPayout Samples.env0)
                            100 again s1
          = (Throw "Cannot approve settlement in status: approved", s1).
Proof.
  do 2 eexists. split; [vm_compute; reflexivity|].
  eapply (approveSettlement_once
            Samples.env0 (PayoutService.createPayout Samples.env0) 100 "ops"
            settledStore).
  vm_compute. reflexivity.
Defined.

Lemma rejected_settlement_not_approvable_witness :
  exists st s1,
    rejectSettlement 100 "ops" "duplicate run" settledStore = (Ret st, s1)
    /\ findSettlement 100 s1 = Some st
    /\ st_status st = ST_ON_HOLD
    /\ forall env createPayout approvedBy,
          approveSettlement env createPayout 100 approvedBy s1
          = (Throw "Cannot approve settlement in status: on_hold", s1).
Proof.
  do 2 eexists. split; [vm_compute; reflexivity|].
  eapply (rejected_settlement_not_approvable 100 "ops" "duplicate run" settledStore).
  vm_compute. reflexivity.
Defined.

Lemma update_where_twice {A} (criteria : A -> bool) (partial : A -> A)
      (rows : list A) :
  (forall r, criteria (partial r) = false) ->
  update_where criteria partial (update_where criteria partial rows)
  = update_where criteria partial rows.
Proof.
  intros H. unfold update_where. rewrite map_map. apply map_ext. intros r.
  destruct (criteria r) eqn:E; [rewrite H; reflexivity|rewrite E; reflexivity].
Qed.

(** X7.  Rejecting is idempotent: a second [rejectSettlement] of the same
    settlement with the same reason returns the same settlement and leaves
    the store as the first rejection left it. *)
Theorem rejectSettlement_idempotent
        (sid : Id) (rejectedBy reason : string) (s s1 : Store) (st : Settlement) :
  rejectSettlement sid rejectedBy reason s = (Ret st, s1) ->
  forall again, rejectSettlement sid again reason s1 = (Ret st, s1).
Proof.
  intros Hreject again.
  pose proof (rejectSettlement_stored _ _ _ _ _ _ Hreject) as Hfound.
  revert Hreject Hfound. unfold rejectSettlement at 1, bind at 1, get.
  destruct (find _ (settlements s)) as [st0|] eqn:Hfind; [|discriminate].
  unfold bind, modify, saveSettlement, ret.
  intros H. injection H as <- <-. intros Hfound.
  unfold findSettlement in Hfound.
  unfold rejectSettlement, bind, get, modify, saveSettlement, ret.
  rewrite Hfound.
  change (set_st_adjustmentNotes (Some reason)
            (set_st_status ST_ON_HOLD
               (set_st_adjustmentNotes (Some reason)
                  (set_st_status ST_ON_HOLD st0))))
    with (set_st_adjustmentNotes (Some reason) (set_st_status ST_ON_HOLD st0)).
  unfold with_settlements, with_refunds, with_transactions; simpl.
  match goal with
  | |- (_, ?a) = (_, ?b) => assert (Hs : a = b); [|rewrite Hs; reflexivity]
  end.
  f_equal.
  - apply update_where_twice. intros t. reflexivity.
  - apply update_where_twice. intros r. reflexivity.
  - apply (save_row_twice
             st_id (set_st_adjustmentNotes (Some reason)
                      (set_st_status ST_ON_HOLD st0))).
Qed.

Lemma rejectSettlement_idempotent_witness :
  rejectSettlement
    100 "risk" "duplicate run"
    (snd (rejectSettlement 100 "ops" "duplicate run" settledStore))
  = (Ret (onHold "duplicate run" ApprovalSamples.calculatedSettlement),
     snd (rejectSettlement 100 "ops" "duplicate run" settledStore)).
Proof.
  apply (rejectSettlement_idempotent 100 "ops" "duplicate run" settledStore).
  vm_compute. reflexivity.
Defined.

(** X8.  When the sub-merchant of a calculated settlement has a payout
    method other than bank_transfer, instapay and wallet,
    [approveSettlement] throws 'Invalid payout method' after it has saved
    the approval: the settlement is left approved, with the payout id it
    had before, and no payout is created. *)
Theorem approveSettlement_invalid_method
        (env : Env) (createPayout : CreatePayoutDto -> M Payout)
        (sid : Id) (approvedBy : string) (s : Store) (st : Settlement)
        (sm : SubMerchant) :
  findSettlement sid s = Some st ->
  st_status st = ST_CALCULATED ->
  subMerchantOf s (st_subMerchantId st) = Some sm ->
  (sm_payoutMethod sm =s? "bank_transfer") = false ->
  (sm_payoutMethod sm =s? "instapay") = false ->
  (sm_payoutMethod sm =s? "wallet") = false ->
  exists s1 st1,
    approveSettlement env createPayout sid approvedBy s
    = (Throw "Invalid payout method", s1)
    /\ findSettlement sid s1 = Some st1
    /\ st_status st1 = ST_APPROVED
    /\ st_payoutId st1 = st_payoutId st
    /\ payouts s1 = payouts s.
Proof.
  unfold findSettlement. intros Hfind Hstatus Hsm Hbank Hinsta Hwallet.
  assert (Hsid : st_id st = sid).
  { apply find_some in Hfind. apply Nat.eqb_eq. tauto. }
  unfold approveSettlement, bind at 1, get. rewrite Hfind, Hstatus.
  unfold bind at 1, saveSettlement at 1, modify at 1.
  unfold bind at 1, createPayoutForSettlement, bind at 1, get.
  change (subMerchantOf
            (with_settlements
               (save_row st_id
                  (set_st_approvedBy (Some approvedBy)
                     (set_st_approvedAt (Some (now env))
                        (set_st_status ST_APPROVED st)))) s)
            (st_subMerchantId
               (set_st_approvedBy (Some approvedBy)
                  (set_st_approvedAt (Some (now env))
                     (set_st_status ST_APPROVED st)))))
    with (subMerchantOf s (st_subMerchantId st)).
  rewrite Hsm. unfold bind at 1, getPayoutDestination.
  rewrite Hbank, Hinsta, Hwallet. unfold throw.
  eexists.
  exists (set_st_approvedBy (Some approvedBy)
            (set_st_approvedAt (Some (now env)) (set_st_status ST_APPROVED st))).
  split; [reflexivity|].
  split; [|repeat split].
  cbn [settlements with_settlements]. rewrite <- Hsid.
  apply (find_save_row_key
           st_id (set_st_approvedBy (Some approvedBy)
                    (set_st_approvedAt (Some (now env))
                       (set_st_status ST_APPROVED st)))).
Qed.

Lemma approveSettlement_invalid_method_witness :
  exists s1 st1,
    approveSettlement Samples.env0 (PayoutService.createPayout Samples.env0)
                      100 "ops" ApprovalSamples.cashStore
    = (Throw "Invalid payout method", s1)
    /\ findSettlement 100 s1 = Some st1
    /\ st_status st1 = ST_APPROVED
    /\ st_payoutId st1 = st_payoutId ApprovalSamples.calculatedSettlement
    /\ payouts s1 = payouts ApprovalSamples.cashStore.
Proof.
  apply (approveSettlement_invalid_method
           Samples.env0 (PayoutService.createPayout Samples.env0) 100 "ops"
           ApprovalSamples.cashStore ApprovalSamples.calculatedSettlement
           ApprovalSamples.cashClinic);
    reflexivity.
Defined.

End ApprovalProps.

(* ================================================================== *)
(** ** The daily settlement run *)

Module DailyRunProps.

Import SettlementEngine DailyRunSpec.




(** [runDailySettlement] never throws. *)
Lemma runDailySettlement_never_throws
        (env : Env) (createPayout : CreatePayoutDto -> M Payout) :
  NeverThrows (runDailySettlement env createPayout).
Proof.
  intros s. unfold runDailySettlement, try_catch, bind.
  destruct (calculateSettlementsForDate env createPayout _ s) as [[sts|e] s'];
    unfold ret; eexists; eexists; reflexivity.
Qed.

End DailyRunProps.

(* ================================================================== *)
(** ** The line items of a settlement *)

Module ItemsProps.

Import SettlementEngine CalculationSpec ItemsSpec.

Local Open Scope Q_scope.

Lemma total_app (a b : list Q) : total (a ++ b) == total a + total b.
Proof.
  induction a as [|x a IH]; simpl; [ring|]. rewrite IH. ring.
Qed.

Lemma total_map_opp {A} (f : A -> Q) (rows : list A) :
  total (map (fun r => - f r) rows) == - total (map f rows).
Proof.
  induction rows as [|r rows IH]; simpl; [ring|]. rewrite IH. ring.
Qed.

Lemma total_map_zero {A} (rows : list A) :
  total (map (fun _ : A => 0) rows) == 0.
Proof.
  induction rows as [|r rows IH]; simpl; [ring|]. rewrite IH. ring.
Qed.

Lemma total_map_plus {A} (f g : A -> Q) (rows : list A) :
  total (map (fun r => f r + g r) rows) == total (map f rows) + total (map g rows).
Proof.
  induction rows as [|r rows IH]; simpl; [ring|]. rewrite IH. ring.
Qed.

Lemma transactionFees_exact (env : Env) (txs : list Transaction) :
  Forall (fun tx =>
            transactionFee env tx
            == js_or_Q (tx_processorFee tx) 0 + js_or_Q (tx_platformFee tx) 0) txs ->
  total (map (transactionFee env) txs)
  == total (map (fun t => js_or_Q (tx_processorFee t) 0) txs)
     + total (map (fun t => js_or_Q (tx_platformFee t) 0) txs).
Proof.
  induction 1 as [|tx txs Htx _ IH]; simpl; [ring|].
  rewrite Htx, IH. ring.
Qed.

(** X10.  The line items [createSettlementItems] writes for a calculation
    of [calculateAmounts] are appended to the table and all carry the id of
    the settlement.  There is one item per transaction, refund, dispute and
    released reserve, and one more when a reserve is held.  Their gross
    amounts add up to the grossAmount of the calculation.  Their fee
    amounts add up to the fees written on the transaction items, each a
    JS-number addition of the processor fee and the platform fee, plus the
    refundFees and disputeFees of the calculation; that is the totalFees of
    the calculation when each of those additions is exact. *)
Theorem createSettlementItems_add_up
        (env : Env) (s : Store) (id : Id) (periodStart periodEnd : Date)
        (st : Settlement) (s0 : Store) :
  exists c s1 items,
    calculateAmounts id periodStart periodEnd s = (Ret c, s)
    /\ createSettlementItems env st c s0 = (Ret tt, s1)
    /\ settlementItems s1 = settlementItems s0 ++ items
    /\ Forall (fun item => si_settlementId item = st_id st) items
    /\ List.length items
       = (transactionCount c + refundCount c + disputeCount c
          + (if Decimal.greaterThan (reserveHeld c) 0 then 1 else 0)
          + List.length (releasableReserves c))%nat
    /\ total (map si_grossAmount items) == grossAmount c
    /\ total (map si_feeAmount items)
       == total (map (transactionFee env) (calc_transactions c))
          + refundFees c + disputeFees c
    /\ (Forall (fun tx =>
                  transactionFee env tx
                  == js_or_Q (tx_processorFee tx) 0 + js_or_Q (tx_platformFee tx) 0)
               (calc_transactions c) ->
        total (map si_feeAmount items) == totalFees c).
Proof.
  destruct (CalculationProps.calculateAmounts_returns s id periodStart periodEnd)
    as (c & Hc & Hsum & Hcons & _).
  destruct (ClaimProps.calculateAmounts_selection s id periodStart periodEnd)
    as (c' & Hc' & _ & _ & _ & Ntx & Nrf & Ndp).
  assert (c' = c) by congruence. subst c'.
  exists c. unfold createSettlementItems, modify.
  eexists. eexists. split; [exact Hc|]. split; [reflexivity|].
  split; [reflexivity|].
  destruct Hsum as (Hgs & Hpf & Hplf & Hgr & Hrfee & Hgd & Hdfee & _).
  destruct Hcons as (Hga & Htf & _).
  split; [|split; [|split; [|split]]].
  - repeat (apply Forall_app; split);
      try (apply Forall_forall; intros item Hin; apply in_map_iff in Hin;
           destruct Hin as (row & <- & _); reflexivity).
    destruct (Decimal.greaterThan (reserveHeld c) 0); repeat constructor.
  - rewrite !length_app, !length_map, Ntx, Nrf, Ndp.
    destruct (Decimal.greaterThan (reserveHeld c) 0); simpl; lia.
  - rewrite !map_app, !total_app, !map_map. cbn [si_grossAmount].
    rewrite (total_map_opp rf_amount), (total_map_opp dp_amount), total_map_zero.
    rewrite Hga, Hgs, Hgr, Hgd.
    change (fun x : Transaction => tx_amount x) with tx_amount.
    destruct (Decimal.greaterThan (reserveHeld c) 0);
      cbn [map total si_grossAmount]; ring.
  - rewrite !map_app, !total_app, !map_map. cbn [si_feeAmount].
    rewrite total_map_zero, Hrfee, Hdfee.
    fold (transactionFee env).
    destruct (Decimal.greaterThan (reserveHeld c) 0);
      cbn [map total si_feeAmount]; ring.
  - intros Hexact.
    rewrite !map_app, !total_app, !map_map. cbn [si_feeAmount].
    rewrite total_map_zero.
    fold (transactionFee env).
    rewrite (transactionFees_exact env _ Hexact), Htf, Hpf, Hplf, Hrfee, Hdfee.
    destruct (Decimal.greaterThan (reserveHeld c) 0);
      cbn [map total si_feeAmount]; ring.
Qed.

End ItemsProps.

(* ================================================================== *)
(** ** Reserves *)

Module ReserveProps.

Import SettlementEngine ClaimSpec.

Lemma calculateAmounts_reserves
      (s : Store) (id : Id) (periodStart periodEnd : Date) :
  exists c,
    calculateAmounts id periodStart periodEnd s = (Ret c, s)
    /\ releasableReserves c = filter (selectsReserve id periodEnd) (reserves s).
Proof.
  unfold calculateAmounts, bind, get, ret.
  destruct (sumTransactions _) as [[gs pf] plf].
  destruct (sumRefunds _) as [gr rfee].
  destruct (sumDisputes _) as [gd dfee].
  eexists. split; reflexivity.
Qed.

Lemma In_save_row_inv {A} (key : A -> Id) (row other : A) (rows : list A) :
  In other (save_row key row rows) ->
  other = row \/ (In other rows /\ key other <> key row).
Proof.
  unfold save_row, update_where. destruct (existsb _ rows) eqn:Hex; intros Hin.
  - apply in_map_iff in Hin. destruct Hin as (r & Hr & Hin).
    destruct (Nat.eqb_spec (key r) (key row)) as [Heq|Hne].
    + left. symmetry. exact Hr.
    + right. subst other. auto.
  - apply in_app_or in Hin. destruct Hin as [Hin|[<-|[]]]; [|left; reflexivity].
    right. split; [exact Hin|]. intros Heq.
    assert (existsb (fun r => Nat.eqb (key r) (key row)) rows = true).
    { apply existsb_exists. exists other. split; [exact Hin|].
      apply Nat.eqb_eq. exact Heq. }
    congruence.
Qed.

Lemma for_each_modify {A} (f : A -> Store -> Store) (xs : list A) :
  forall s, for_each xs (fun x => modify (f x)) s
            = (Ret tt, fold_left (fun st x => f x st) xs s).
Proof.
  induction xs as [|x xs IH]; intros s; simpl; [reflexivity|].
  unfold bind, modify at 1. apply IH.
Qed.

Lemma fold_with_reserves (g : Reserve -> list Reserve -> list Reserve)
      (xs : list Reserve) :
  forall s,
    reserves (fold_left (fun st x => with_reserves (g x) st) xs s)
    = fold_left (fun rows x => g x rows) xs (reserves s).
Proof.
  induction xs as [|x xs IH]; intros s; simpl; [reflexivity|]. rewrite IH. reflexivity.
Qed.

Section Releasing.

Variable instant : Date.

Lemma fold_release_released (xs : list Reserve) :
  forall (rows : list Reserve) (done : list Id),
    (forall row, In row rows -> In (rs_id row) done -> ReleasedAt instant row) ->
    forall row,
      In row (fold_left (fun rows r => save_row rs_id (release instant r) rows) xs rows) ->
      In (rs_id row) (done ++ map rs_id xs) ->
      ReleasedAt instant row.
Proof.
  induction xs as [|x xs IH]; intros rows done Hdone row Hin Hid; simpl in *.
  - rewrite app_nil_r in Hid. apply (Hdone row Hin Hid).
  - apply (IH (save_row rs_id (release instant x) rows) (done ++ [rs_id x])); [|exact Hin|].
    + intros row' Hin' Hid'.
      apply In_save_row_inv in Hin'. destruct Hin' as [->|[Hin' Hne]].
      * split; reflexivity.
      * apply in_app_or in Hid'. destruct Hid' as [Hid'|[Heq|[]]].
        -- apply (Hdone row' Hin' Hid').
        -- exfalso. apply Hne. symmetry. exact Heq.
    + rewrite <- app_assoc. exact Hid.
Qed.

Lemma fold_release_keeps (xs : list Reserve) (other : Reserve) :
  forall rows,
    In other rows ->
    ~ In (rs_id other) (map rs_id xs) ->
    In other (fold_left (fun rows r => save_row rs_id (release instant r) rows) xs rows).
Proof.
  induction xs as [|x xs IH]; intros rows Hin Hid; simpl in *; [exact Hin|].
  apply IH; [|tauto].
  apply TableLemmas.save_row_keeps; [exact Hin|].
  intros Heq. apply Hid. left. symmetry. exact Heq.
Qed.

End Releasing.

(** X11.  [processReserves], run on the reserves [calculateAmounts]
    found releasable, releases each of them: afterwards every reserve row
    with the id of one of them is released, with the instant of the run as
    release time, and no later calculation selects a row with such an id
    again.  When the ids of the reserve table are below the next id of the
    store and a reserve is held, the table also has the new reserve: held,
    of the amount reserveHeld, linked to the settlement and due after the
    reserve days of the sub-merchant (90 when unset or zero). *)
Theorem processReserves_releases
        (env : Env) (m : SubMerchant) (st : Settlement)
        (s : Store) (id : Id) (periodStart periodEnd : Date) :
  exists c s1,
    calculateAmounts id periodStart periodEnd s = (Ret c, s)
    /\ processReserves env m st c s = (Ret tt, s1)
    /\ (forall r, In r (reserves s1) ->
                  hasIdIn rs_id (releasableReserves c) r = true ->
                  ReleasedAt (now env) r)
    /\ (forall id' start' end', exists c',
           calculateAmounts id' start' end' s1 = (Ret c', s1)
           /\ forall r, In r (releasableReserves c') ->
                        hasIdIn rs_id (releasableReserves c) r = false)
    /\ ((forall r, In r (reserves s) -> rs_id r <> nextId s) ->
        Decimal.greaterThan (SettlementEngine.reserveHeld c) 0 = true ->
        In (mkReserve (nextId s) (sm_id m) (Some (st_id st)) "rolling"
                      (SettlementEngine.reserveHeld c)
                      (addDays (now env) (js_or_Z (sm_reserveDays m) 90))
                      "held" None)
           (reserves s1)).
Proof.
  destruct (calculateAmounts_reserves s id periodStart periodEnd) as (c & Hc & Hsel).
  exists c.
  assert (Hrun : exists s1,
             processReserves env m st c s = (Ret tt, s1)
             /\ reserves s1
                = fold_left (fun rows r => save_row rs_id (release (now env) r) rows)
                            (releasableReserves c)
                            (if Decimal.greaterThan (SettlementEngine.reserveHeld c) 0
                             then reserves s
                                  ++ [mkReserve (nextId s) (sm_id m) (Some (st_id st))
                                        "rolling" (SettlementEngine.reserveHeld c)
                                        (addDays (now env)
                                                 (js_or_Z (sm_reserveDays m) 90))
                                        "held" None]
                             else reserves s)).
  { unfold processReserves.
    destruct (Decimal.greaterThan (SettlementEngine.reserveHeld c) 0).
    - unfold bind at 1. unfold bind at 1. unfold freshId, modify at 1.
      rewrite (for_each_modify
                 (fun reserve =>
                    with_reserves (save_row rs_id (release (now env) reserve)))).
      eexists. split; [reflexivity|].
      rewrite (fold_with_reserves
                 (fun reserve => save_row rs_id (release (now env) reserve))).
      reflexivity.
    - unfold bind at 1, ret at 1.
      rewrite (for_each_modify
                 (fun reserve =>
                    with_reserves (save_row rs_id (release (now env) reserve)))).
      eexists. split; [reflexivity|].
      rewrite (fold_with_reserves
                 (fun reserve => save_row rs_id (release (now env) reserve))).
      reflexivity. }
  destruct Hrun as (s1 & Hrun & Hres).
  exists s1. split; [exact Hc|]. split; [exact Hrun|].
  assert (Hreleased : forall r, In r (reserves s1) ->
                                hasIdIn rs_id (releasableReserves c) r = true ->
                                ReleasedAt (now env) r).
  { intros r Hin Hhas. rewrite Hres in Hin.
    refine (fold_release_released (now env) (releasableReserves c) _ [] _ r Hin _);
      [intros ? _ []|].
    unfold hasIdIn in Hhas. apply existsb_exists in Hhas.
    destruct Hhas as (k & Hk & Heq). apply Nat.eqb_eq in Heq. subst k. exact Hk. }
  split; [exact Hreleased|]. split.
  - intros id' start' end'.
    destruct (calculateAmounts_reserves s1 id' start' end') as (c' & Hc' & Hsel').
    exists c'. split; [exact Hc'|].
    intros r Hin. rewrite Hsel' in Hin. apply filter_In in Hin.
    destruct Hin as [Hin Hselected].
    destruct (hasIdIn rs_id (releasableReserves c) r) eqn:Hhas; [|reflexivity].
    destruct (Hreleased r Hin Hhas) as [Hstatus _].
    unfold selectsReserve in Hselected. rewrite Hstatus in Hselected.
    rewrite andb_false_r in Hselected. discriminate.
  - intros Hfresh Hheld. rewrite Hres, Hheld.
    apply fold_release_keeps; [apply in_or_app; right; left; reflexivity|].
    cbn [rs_id]. rewrite Hsel. intros Hin.
    apply in_map_iff in Hin. destruct Hin as (r & Hid & Hin).
    apply filter_In in Hin. destruct Hin as [Hin _].
    apply (Hfresh r Hin Hid).
Qed.

End ReserveProps.

(* ================================================================== *)
(** ** Objects used as maps *)

Module ObjectLemmas.

Lemma obj_get_set_same {V} (key : string) (v : V) (o : JsObject V) :
  obj_get key (obj_set key v o) = Some v.
Proof.
  induction o as [|[k w] rest IH]; simpl.
  - rewrite String.eqb_refl. reflexivity.
  - destruct (k =s? key) eqn:E; simpl; rewrite E; [reflexivity|exact IH].
Qed.

Lemma obj_get_set_other {V} (key other : string) (v : V) (o : JsObject V) :
  other <> key -> obj_get key (obj_set other v o) = obj_get key o.
Proof.
  intros Hne. induction o as [|[k w] rest IH]; simpl.
  - apply String.eqb_neq in Hne. rewrite Hne. reflexivity.
  - destruct (String.eqb_spec k other) as [->|Hk]; simpl.
    + apply String.eqb_neq in Hne. rewrite Hne. reflexivity.
    + destruct (k =s? key); [reflexivity|exact IH].
Qed.

Lemma obj_keys_set {V} (key : string) (v : V) (o : JsObject V) :
  obj_keys (obj_set key v o)
  = match obj_get key o with
    | Some _ => obj_keys o
    | None => obj_keys o ++ [key]
    end.
Proof.
  unfold obj_keys. induction o as [|[k w] rest IH]; simpl; [reflexivity|].
  destruct (k =s? key); simpl; [reflexivity|].
  rewrite IH. destruct (obj_get key rest); reflexivity.
Qed.

Lemma obj_get_None_keys {V} (key : string) (o : JsObject V) :
  obj_get key o = None -> ~ In key (obj_keys o).
Proof.
  unfold obj_keys. induction o as [|[k w] rest IH]; simpl; [tauto|].
  destruct (String.eqb_spec k key) as [->|Hk]; [discriminate|].
  intros Hget [Heq|Hin]; [congruence|]. apply (IH Hget Hin).
Qed.

Lemma NoDup_snoc {A} (x : A) (l : list A) :
  NoDup l -> ~ In x l -> NoDup (l ++ [x]).
Proof.
  induction l as [|y l IH]; simpl; intros Hnd Hin.
  - constructor; [tauto|constructor].
  - inversion Hnd as [|z zs Hy Hl]; subst. constructor.
    + intros H. apply in_app_or in H. destruct H as [H|[H|[]]]; [tauto|].
      apply Hin. left. symmetry. exact H.
    + apply IH; [exact Hl|tauto].
Qed.

Lemma obj_set_NoDup {V} (key : string) (v : V) (o : JsObject V) :
  NoDup (obj_keys o) -> NoDup (obj_keys (obj_set key v o)).
Proof.
  intros Hnd. rewrite obj_keys_set.
  destruct (obj_get key o) eqn:Hget; [exact Hnd|].
  apply NoDup_snoc; [exact Hnd|]. apply obj_get_None_keys. exact Hget.
Qed.

End ObjectLemmas.

(* ================================================================== *)
(** ** Grouping payouts by method *)

Module GroupProps.

Import PayoutSpec ObjectLemmas.

Lemma pushToGroup_get (name : string) (groups : JsObject (list Payout)) (p : Payout) :
  obj_get name (pushToGroup groups p)
  = if paidBy name p
    then Some (match obj_get name groups with
               | Some members => members
               | None => []
               end ++ [p])
    else obj_get name groups.
Proof.
  unfold pushToGroup, paidBy.
  set (method := payoutMethodName (po_payoutMethod p)).
  destruct (obj_get method groups) as [members|] eqn:Hm.
  - rewrite Hm. destruct (String.eqb_spec method name) as [<-|Hne].
    + rewrite obj_get_set_same, Hm. reflexivity.
    + apply obj_get_set_other. exact Hne.
  - rewrite obj_get_set_same. destruct (String.eqb_spec method name) as [<-|Hne].
    + rewrite obj_get_set_same, Hm. reflexivity.
    + rewrite !obj_get_set_other by exact Hne. reflexivity.
Qed.

Lemma pushToGroup_NoDup (groups : JsObject (list Payout)) (p : Payout) :
  NoDup (obj_keys groups) -> NoDup (obj_keys (pushToGroup groups p)).
Proof.
  intros Hnd. unfold pushToGroup.
  set (method := payoutMethodName (po_payoutMethod p)).
  destruct (obj_get method groups) as [members|] eqn:Hm.
  - rewrite Hm. apply obj_set_NoDup. exact Hnd.
  - rewrite obj_get_set_same. apply obj_set_NoDup, obj_set_NoDup. exact Hnd.
Qed.

Lemma fold_pushToGroup_get (name : string) (payouts : list Payout) :
  forall groups,
    obj_get name (fold_left pushToGroup payouts groups)
    = match obj_get name groups, filter (paidBy name) payouts with
      | None, [] => None
      | None, members => Some members
      | Some before, members => Some (before ++ members)
      end.
Proof.
  induction payouts as [|p rest IH]; intros groups; simpl.
  - destruct (obj_get name groups); [rewrite app_nil_r|]; reflexivity.
  - rewrite IH, pushToGroup_get.
    destruct (paidBy name p); [|reflexivity].
    destruct (obj_get name groups); simpl; [rewrite <- app_assoc|]; reflexivity.
Qed.

Lemma fold_pushToGroup_NoDup (payouts : list Payout) :
  forall groups,
    NoDup (obj_keys groups) -> NoDup (obj_keys (fold_left pushToGroup payouts groups)).
Proof.
  induction payouts as [|p rest IH]; intros groups Hnd; simpl; [exact Hnd|].
  apply IH, pushToGroup_NoDup, Hnd.
Qed.

(** X12.  Grouping by method, in both payout services, is a partition
    that keeps the order: the group found under a method name holds the
    payouts paid by that method, all of them, once each and in the order
    of the input; a method without payouts has no entry (so no group is
    empty), and no method name is listed twice. *)
Theorem grouping_partitions (payouts : list Payout) :
  (forall name,
      obj_get name (PayoutService.groupPayoutsByMethod payouts) = groupOf name payouts)
  /\ (forall name,
         obj_get name (PayoutServiceBatched.groupByMethod payouts)
         = groupOf name payouts)
  /\ NoDup (obj_keys (PayoutService.groupPayoutsByMethod payouts))
  /\ NoDup (obj_keys (PayoutServiceBatched.groupByMethod payouts)).
Proof.
  unfold PayoutService.groupPayoutsByMethod, PayoutServiceBatched.groupByMethod, groupOf.
  repeat split; intros;
    try (rewrite fold_pushToGroup_get; reflexivity);
    apply fold_pushToGroup_NoDup; constructor.
Qed.

End GroupProps.

(* ================================================================== *)
(** ** The summary of pending payouts *)

Module SummaryProps.

Import PayoutSpec ObjectLemmas PayoutService.

Lemma countAll_set (name : string) (entry : MethodSummary)
      (o : JsObject MethodSummary) :
  (countAll (obj_set name entry o)
   + match obj_get name o with
     | Some before => ms_count before
     | None => 0
     end
   = countAll o + ms_count entry)%nat.
Proof.
  induction o as [|[k w] rest IH]; simpl; [lia|].
  destruct (k =s? name); simpl; lia.
Qed.

Lemma addToSummary_get (env : Env) (name : string)
      (byMethod : JsObject MethodSummary) (p : Payout) :
  obj_get name (addToSummary env byMethod p)
  = if paidBy name p
    then Some (match obj_get name byMethod with
               | Some before =>
                   mkMethodSummary (S (ms_count before))
                                   (numberPlus env (ms_amount before) (po_netAmount p))
               | None => mkMethodSummary 1 (numberPlus env 0 (po_netAmount p))
               end)
    else obj_get name byMethod.
Proof.
  unfold addToSummary, paidBy.
  set (method := payoutMethodName (po_payoutMethod p)).
  destruct (obj_get method byMethod) as [before|] eqn:Hm.
  - rewrite Hm. destruct (String.eqb_spec method name) as [<-|Hne].
    + rewrite obj_get_set_same, Hm. reflexivity.
    + apply obj_get_set_other. exact Hne.
  - rewrite obj_get_set_same. destruct (String.eqb_spec method name) as [<-|Hne].
    + rewrite obj_get_set_same, Hm. reflexivity.
    + rewrite !obj_get_set_other by exact Hne. reflexivity.
Qed.

Lemma addToSummary_count (env : Env) (byMethod : JsObject MethodSummary)
      (p : Payout) :
  countAll (addToSummary env byMethod p) = S (countAll byMethod).
Proof.
  unfold addToSummary.
  set (method := payoutMethodName (po_payoutMethod p)).
  destruct (obj_get method byMethod) as [before|] eqn:Hm.
  - rewrite Hm.
    pose proof (countAll_set method
                  (mkMethodSummary (S (ms_count before))
                                   (numberPlus env (ms_amount before) (po_netAmount p)))
                  byMethod) as Hc.
    rewrite Hm in Hc. cbn [ms_count] in Hc. lia.
  - rewrite obj_get_set_same.
    pose proof (countAll_set method (mkMethodSummary 0 0) byMethod) as Hc0.
    rewrite Hm in Hc0. cbn [ms_count ms_amount] in *.
    pose proof (countAll_set method
                  (mkMethodSummary 1 (numberPlus env 0 (po_netAmount p)))
                  (obj_set method (mkMethodSummary 0 0) byMethod)) as Hc.
    rewrite obj_get_set_same in Hc. cbn [ms_count] in Hc. lia.
Qed.

Lemma fold_addToSummary_get (env : Env) (name : string) (pending : list Payout) :
  forall byMethod,
    obj_get name (fold_left (addToSummary env) pending byMethod)
    = match filter (paidBy name) pending with
      | [] => obj_get name byMethod
      | members =>
          let before :=
            match obj_get name byMethod with
            | Some entry => entry
            | None => mkMethodSummary 0 0
            end in
          Some (mkMethodSummary
                  (ms_count before + List.length members)%nat
                  (fold_left (fun sum p => numberPlus env sum (po_netAmount p))
                             members (ms_amount before)))
      end.
Proof.
  induction pending as [|p rest IH]; intros byMethod; simpl; [reflexivity|].
  rewrite IH, addToSummary_get.
  destruct (paidBy name p); [|reflexivity].
  destruct (obj_get name byMethod) as [before|];
    destruct (filter (paidBy name) rest) as [|q members];
    cbn [ms_count ms_amount List.length fold_left];
    f_equal; f_equal; lia.
Qed.

Lemma fold_addToSummary_count (env : Env) (pending : list Payout) :
  forall byMethod,
    countAll (fold_left (addToSummary env) pending byMethod)
    = (countAll byMethod + List.length pending)%nat.
Proof.
  induction pending as [|p rest IH]; intros byMethod; simpl; [lia|].
  rewrite IH, addToSummary_count. lia.
Qed.

(** X13.  [getPendingPayoutSummary] reads only: it returns with the
    store unchanged.  totalPending is the number of the pending or approved
    payouts and totalAmount their net amounts, added up from zero in the
    order of the table with the addition of JS numbers.  The entry for a
    method holds the number of those payouts paid by that method and their
    net amounts, added up the same way; there is no entry for a method
    without such a payout, and the counts of the entries add up to
    totalPending. *)
Theorem pending_summary_adds_up (env : Env) (s : Store) :
  exists summary,
    getPendingPayoutSummary env s = (Ret summary, s)
    /\ totalPending summary = List.length (filter awaitsTransfer (payouts s))
    /\ totalAmount summary
       = netTotal (numberPlus env) (filter awaitsTransfer (payouts s))
    /\ (forall name,
           obj_get name (byMethod summary)
           = entryOf (numberPlus env) name (filter awaitsTransfer (payouts s)))
    /\ countAll (byMethod summary) = totalPending summary.
Proof.
  unfold getPendingPayoutSummary, bind, get, ret.
  eexists. split; [reflexivity|].
  cbn [totalPending totalAmount byMethod].
  change (fun p => payoutStatus_eqb (po_status p) PENDING
                   || payoutStatus_eqb (po_status p) APPROVED) with awaitsTransfer.
  set (pending := filter awaitsTransfer (payouts s)).
  split; [reflexivity|]. split; [reflexivity|]. split.
  - intros name. rewrite fold_addToSummary_get. unfold entryOf, netTotal.
    destruct (filter (paidBy name) pending); reflexivity.
  - apply (fold_addToSummary_count env pending []).
Qed.

End SummaryProps.

(* ================================================================== *)
(** ** Processing one payout (payfac/payout/payout.service.ts) *)

Module ProcessProps.

Import RetrySpec TableLemmas PayoutService.

(** X14.  [processPayout] never throws.  When it reports success, the
    payout was approved and is paid by InstaPay or bank transfer; one call
    went to the transfer service, the payout is now sent under the
    reference the result carries, and one notification about it was added.
    When it reports a failure, either nothing was changed at all, or the
    payout was approved and the failed attempt was counted: its retry count
    went up by one, it is back in approved while the count is below
    maxRetries and failed otherwise, and it records the error returned. *)
Theorem processPayout_outcome (env : Env) (payoutId : Id) (s : Store) :
  exists r s',
    processPayout env payoutId s = (Ret r, s')
    /\ (success r = true ->
        exists p p',
          payoutById payoutId s = Some p
          /\ po_status p = APPROVED
          /\ (po_payoutMethod p = INSTAPAY \/ po_payoutMethod p = BANK_TRANSFER)
          /\ payoutById payoutId s' = Some p'
          /\ po_status p' = SENT
          /\ po_processorReference p' = processorReference r
          /\ extCalls s' = S (extCalls s)
          /\ notifications s'
             = notifications s
               ++ [PayoutNotification (subMerchantOf s (po_subMerchantId p)) p' "sent"])
    /\ (success r = false ->
        s' = s
        \/ exists p p',
            payoutById payoutId s = Some p
            /\ po_status p = APPROVED
            /\ payoutById payoutId s' = Some p'
            /\ po_retryCount p' = po_retryCount p + 1
            /\ po_status p'
               = statusAtRetryCount (po_retryCount p') (po_maxRetries p')
            /\ po_failureMessage p' = error r).
Proof.
  unfold processPayout, findPayoutById, bind at 1.
  destruct (payoutById payoutId s) as [p|] eqn:Hfind; unfold payoutById in Hfind;
    rewrite Hfind.
  2: { eexists; eexists. split; [reflexivity|].
       split; [discriminate|]. left. reflexivity. }
  destruct (po_status p) eqn:Hstatus; cbn [payoutStatus_eqb negb].
  all: try (eexists; eexists; split; [reflexivity|];
            split; [discriminate|]; left; reflexivity).
  set (p1 := set_po_initiatedAt _ _).
  assert (Hid1 : po_id p1 = po_id p) by reflexivity.
  assert (Hm : po_payoutMethod p1 = po_payoutMethod p) by reflexivity.
  assert (Hrc1 : po_retryCount p1 = po_retryCount p) by reflexivity.
  assert (Hsm1 : po_subMerchantId p1 = po_subMerchantId p) by reflexivity.
  clearbody p1.
  assert (Hsaved : forall p2,
             po_id p2 = po_id p1 ->
             find (fun r => Nat.eqb (po_id r) payoutId)
                  (save_row po_id p2 (save_row po_id p1 (payouts s)))
             = Some p2).
  { intros p2 H2.
    apply (RetryProps.payoutById_save _ p1); [|exact H2].
    apply (RetryProps.payoutById_save _ p); [exact Hfind|exact Hid1]. }
  unfold try_catch, bind, savePayout, modify, notify, get, ret, throw,
    processInstapayPayout, processBankTransferPayout, processWalletPayout,
    callRail, try_catch, bind, ret.
  rewrite Hm.
  destruct (po_payoutMethod p) eqn:Hmethod; cbn [extCalls with_payouts];
    try destruct (rail env (extCalls s)) as [res|e];
    cbn [to_success to_error to_reference errorMessage].
  all: try simpl (po_retryCount (set_po_failureMessage _ _));
    try simpl (po_maxRetries (set_po_failureMessage _ _)).
  all: try (destruct (po_retryCount p1 + 1 >=? po_maxRetries p1) eqn:E).
  all: unfold modify; cbn [to_success].
  all: eexists; eexists; (split; [reflexivity|]);
    cbn [success error processorReference].
  all: split; [try discriminate|try discriminate].
  all: intros _; try right; exists p.
  all: eexists; (split; [reflexivity|]); (split; [exact Hstatus|]).
  all: try (split; [solve [auto]|]).
  all: unfold payoutById, statusAtRetryCount;
    cbn [payouts with_payouts with_notifications with_extCalls extCalls notifications].
  all: (split; [apply Hsaved; reflexivity|]).
  all: try (split; [reflexivity|]; split; [reflexivity|]; split; [reflexivity|];
            unfold subMerchantOf; simpl; rewrite Hsm1; reflexivity).
  all: (split; [simpl; lia|]); (split; [|reflexivity]); simpl;
    rewrite Z.geb_leb in E;
    destruct (Z.ltb_spec (po_retryCount p1 + 1) (po_maxRetries p1));
    destruct (Z.leb_spec (po_maxRetries p1) (po_retryCount p1 + 1));
    try reflexivity; try discriminate; lia.
Qed.

(** X15.  A payout created for an amount above the auto-approval
    threshold waits for approval: [createPayout] stores it as pending with
    netAmount = amount - fee, [processPayout] refuses it and changes
    nothing, and [approvePayout] moves it to approved and records who
    approved it and when; once it is approved, [approvePayout] throws and
    changes nothing. *)
Theorem large_payout_needs_approval
        (env : Env) (dto : CreatePayoutDto) (fee : Q) (approvedBy : string)
        (s : Store) :
  dto_fee dto = Some fee ->
  requiresApproval env (dto_amount dto) = true ->
  exists p s1,
    createPayout env dto s = (Ret p, s1)
    /\ payoutById (po_id p) s1 = Some p
    /\ po_status p = PENDING
    /\ (po_netAmount p == dto_amount dto - fee)%Q
    /\ (exists r,
           processPayout env (po_id p) s1 = (Ret r, s1)
           /\ success r = false
           /\ error r = Some "Invalid status: pending")
    /\ exists p2 s2,
        approvePayout env (po_id p) approvedBy s1 = (Ret p2, s2)
        /\ payoutById (po_id p) s2 = Some p2
        /\ p2 = set_po_approvedBy (Some approvedBy)
                  (set_po_approvedAt (Some (now env)) (set_po_status APPROVED p))
        /\ forall env' approvedBy',
            approvePayout env' (po_id p) approvedBy' s2
            = (Throw "Cannot approve payout in status: approved", s2).
Proof.
  intros Hfee Hlarge.
  unfold createPayout. rewrite Hfee, Hlarge.
  unfold bind, generatePayoutReference, generateReference, freshId, savePayout,
    modify, ret.
  set (p := mkPayout _ _ _ _ _ _ _ _ _ _ _ _ _ _ _ _ _ _ _ _ _ _ _ _ _ _ _ _ _ _ _).
  assert (Hfind : forall s1,
             payouts s1 = save_row po_id p (payouts s) ->
             payoutById (po_id p) s1 = Some p).
  { intros s1 Hs1. unfold payoutById. rewrite Hs1.
    apply ApprovalProps.find_save_row_key. }
  assert (Hrest : forall s1,
             payoutById (po_id p) s1 = Some p ->
             payoutById (po_id p) s1 = Some p
             /\ po_status p = PENDING
             /\ (po_netAmount p == dto_amount dto - fee)%Q
             /\ (exists r,
                    processPayout env (po_id p) s1 = (Ret r, s1)
                    /\ success r = false
                    /\ error r = Some "Invalid status: pending")
             /\ exists p2 s2,
                 approvePayout env (po_id p) approvedBy s1 = (Ret p2, s2)
                 /\ payoutById (po_id p) s2 = Some p2
                 /\ p2 = set_po_approvedBy (Some approvedBy)
                           (set_po_approvedAt (Some (now env))
                              (set_po_status APPROVED p))
                 /\ forall env' approvedBy',
                     approvePayout env' (po_id p) approvedBy' s2
                     = (Throw "Cannot approve payout in status: approved", s2)).
  { intros s1 H1. split; [exact H1|]. split; [reflexivity|].
    split; [reflexivity|]. unfold payoutById in H1. split.
    - unfold processPayout, findPayoutById, bind. rewrite H1.
      eexists. split; [reflexivity|]. split; reflexivity.
    - unfold approvePayout, findPayoutById, bind at 1. rewrite H1.
      unfold bind, savePayout, modify, ret. cbn [po_status p payoutStatus_eqb negb].
      eexists; eexists. split; [reflexivity|].
      assert (H2 : find (fun r => Nat.eqb (po_id r) (po_id p))
                        (save_row po_id
                           (set_po_approvedBy (Some approvedBy)
                              (set_po_approvedAt (Some (now env))
                                 (set_po_status APPROVED p))) (payouts s1))
                   = Some (set_po_approvedBy (Some approvedBy)
                             (set_po_approvedAt (Some (now env))
                                (set_po_status APPROVED p)))).
      { apply (RetryProps.payoutById_save _ p); [exact H1|reflexivity]. }
      split; [exact H2|]. split; [reflexivity|].
      intros env' approvedBy'.
      unfold bind. cbn [payouts with_payouts]. rewrite H2. reflexivity. }
  destruct (dto_settlementId dto) as [settlementId|];
    (eexists; eexists; split; [reflexivity|]; apply Hrest, Hfind; reflexivity).
Qed.

Lemma large_payout_needs_approval_witness :
  exists p s1,
    createPayout Samples.env0 PayoutSpec.largeTransfer Samples.emptyStore = (Ret p, s1)
    /\ po_status p = PENDING
    /\ exists r,
        processPayout Samples.env0 (po_id p) s1 = (Ret r, s1)
        /\ success r = false.
Proof.
  destruct (large_payout_needs_approval
              Samples.env0 PayoutSpec.largeTransfer 10%Q "ops" Samples.emptyStore)
    as (p & s1 & Hcreate & _ & Hstatus & _ & (r & Hrun & Hfail & _) & _).
  - reflexivity.
  - vm_compute. reflexivity.
  - exists p, s1. split; [exact Hcreate|]. split; [exact Hstatus|].
    exists r. split; [exact Hrun|exact Hfail].
Defined.

End ProcessProps.

(* ================================================================== *)
(** ** Batches of the scheduled run (payfac/payout/payout.service.ts) *)

Module PayoutBatchProps.

Import RetrySpec TableLemmas PayoutService.

Lemma processPayout_returns (env : Env) (payoutId : Id) (s : Store) :
  exists r s', processPayout env payoutId s = (Ret r, s').
Proof.
  unfold processPayout, findPayoutById, bind at 1.
  destruct (find _ (payouts s)) as [p|]; [|eexists; eexists; reflexivity].
  destruct (negb _); [eexists; eexists; reflexivity|].
  set (p1 := set_po_initiatedAt _ _). clearbody p1.
  unfold try_catch, bind, savePayout, modify, notify, get, ret, throw,
    processInstapayPayout, processBankTransferPayout, processWalletPayout,
    callRail, try_catch, bind, ret.
  destruct (po_payoutMethod p1); cbn [extCalls with_payouts];
    try destruct (rail env (extCalls s)) as [res|e];
    cbn [to_success to_error to_reference errorMessage].
  all: try simpl (po_retryCount (set_po_failureMessage _ _));
    try simpl (po_maxRetries (set_po_failureMessage _ _)).
  all: try (destruct (po_retryCount p1 + 1 >=? po_maxRetries p1)).
  all: unfold modify; eexists; eexists; reflexivity.
Qed.

Lemma batch_loop_counts (env : Env) (members : list Payout) :
  forall (counts : nat * nat) (s : Store),
  exists counts' s',
    foldM (fun (counts : nat * nat) payout =>
             result <- processPayout env (po_id payout) ;;
             ret (if success result
                  then (S (fst counts), snd counts)
                  else (fst counts, S (snd counts))))
          members counts s
    = (Ret counts', s')
    /\ (fst counts' + snd counts'
        = fst counts + snd counts + List.length members)%nat.
Proof.
  induction members as [|p rest IH]; intros counts s; cbn [foldM].
  - exists counts, s. split; [reflexivity|]. simpl. lia.
  - destruct (processPayout_returns env (po_id p) s) as (r & s1 & Hr).
    unfold bind at 1. unfold bind at 1. rewrite Hr. unfold ret at 1.
    destruct (IH (if success r
                  then (S (fst counts), snd counts)
                  else (fst counts, S (snd counts))) s1)
      as (counts' & s' & Hrun & Hsum).
    exists counts', s'. split; [exact Hrun|].
    rewrite Hsum. destruct (success r); simpl; lia.
Qed.


End PayoutBatchProps.

(* ================================================================== *)
(** ** The scheduled run touches approved and due payouts only
       (payfac/payout/payout.service.ts) *)

Module ScheduledRunProps.

Import RetrySpec PayoutSpec TableLemmas PayoutService.

Lemma update_where_keeps {A} (criteria : A -> bool) (partial : A -> A)
      (rows : list A) (row : A) :
  In row rows -> criteria row = false -> In row (update_where criteria partial rows).
Proof.
  intros Hin Hc. unfold update_where. apply in_map_iff.
  exists row. rewrite Hc. auto.
Qed.

Lemma update_where_keys {A} (key : A -> Id) (criteria : A -> bool) (partial : A -> A)
      (rows : list A) :
  (forall r, key (partial r) = key r) ->
  map key (update_where criteria partial rows) = map key rows.
Proof.
  intros Hkey. unfold update_where. rewrite map_map. apply map_ext.
  intros r. destruct (criteria r); [apply Hkey|reflexivity].
Qed.

Lemma Kept_refl (p : Payout) (s : Store) : In p (payouts s) -> Kept p s s.
Proof. intros H. split; [exact H|reflexivity]. Qed.

Lemma Kept_trans (p : Payout) (s s1 s2 : Store) :
  Kept p s s1 -> Kept p s1 s2 -> Kept p s s2.
Proof. intros [_ H1] [H2 H3]. split; [exact H2|congruence]. Qed.

Lemma processPayout_others
      (env : Env) (payoutId : Id) (p : Payout) (s s' : Store)
      (r : Outcome PayoutResult) :
  processPayout env payoutId s = (r, s') ->
  In p (payouts s) ->
  po_id p <> payoutId ->
  Kept p s s'.
Proof.
  intros Hrun Hp Hne. unfold processPayout, findPayoutById, bind at 1 in Hrun.
  destruct (find _ (payouts s)) as [q|] eqn:Hfind;
    [|injection Hrun as _ <-; apply Kept_refl, Hp].
  destruct (negb _); [injection Hrun as _ <-; apply Kept_refl, Hp|].
  apply find_some in Hfind. destruct Hfind as [Hq Hidq]. apply Nat.eqb_eq in Hidq.
  set (q1 := set_po_initiatedAt _ _) in Hrun.
  assert (Hid1 : po_id q1 = po_id q) by reflexivity.
  clearbody q1.
  assert (Hsave : forall q2 rows,
             po_id q2 = po_id q ->
             In p rows /\ map po_id rows = map po_id (payouts s) ->
             In p (save_row po_id q2 rows)
             /\ map po_id (save_row po_id q2 rows) = map po_id (payouts s)).
  { intros q2 rows Hid [Hin Hids]. split.
    - apply save_row_keeps; [exact Hin|congruence].
    - rewrite save_row_keys; [exact Hids|]. rewrite Hid, Hids.
      apply in_map. exact Hq. }
  revert Hrun.
  unfold try_catch, bind, savePayout, modify, notify, get, ret, throw,
    processInstapayPayout, processBankTransferPayout, processWalletPayout,
    callRail, try_catch, bind, ret.
  destruct (po_payoutMethod q1); cbn [extCalls with_payouts];
    try destruct (rail env (extCalls s)) as [res|e];
    cbn [to_success to_error to_reference errorMessage].
  all: try simpl (po_retryCount (set_po_failureMessage _ _));
    try simpl (po_maxRetries (set_po_failureMessage _ _)).
  all: try (destruct (po_retryCount q1 + 1 >=? po_maxRetries q1)).
  all: unfold modify; intros Hrun; injection Hrun as _ <-; unfold Kept;
    cbn [payouts with_payouts with_notifications with_extCalls];
    repeat (apply Hsave; [exact Hid1|]); split; [exact Hp|reflexivity].
Qed.

Lemma foldM_invariant {A B} (I : Store -> Prop) (body : B -> A -> M B) (xs : list A) :
  (forall x, In x xs -> forall b s r s', I s -> body b x s = (r, s') -> I s') ->
  forall b s r s', I s -> foldM body xs b s = (r, s') -> I s'.
Proof.
  induction xs as [|x xs IH]; intros Hbody b s r s' Hs Hrun; simpl in Hrun.
  - unfold ret in Hrun. injection Hrun as _ <-. exact Hs.
  - unfold bind in Hrun. destruct (body b x s) as [[b1|e] s1] eqn:Hx.
    + apply (IH (fun y Hy => Hbody y (or_intror Hy)) b1 s1 r s'); [|exact Hrun].
      apply (Hbody x (or_introl eq_refl) b s _ s1 Hs Hx).
    + injection Hrun as _ <-. apply (Hbody x (or_introl eq_refl) b s _ s1 Hs Hx).
Qed.

Lemma processPayoutBatch_runs
      (env : Env) (method : PayoutMethod) (members : list Payout)
      (p : Payout) (s : Store) :
  In p (payouts s) ->
  (forall q, In q members -> po_id q <> po_id p) ->
  exists s', processPayoutBatch env method members s = (Ret tt, s') /\ Kept p s s'.
Proof.
  intros Hp Hne.
  unfold processPayoutBatch.
  unfold bind at 1. unfold generateBatchReference, generateReference.
  unfold bind at 1. unfold freshId.
  unfold bind at 1. unfold savePayoutBatch at 1. unfold modify at 1.
  unfold bind at 1. unfold modify at 1.
  unfold bind at 1.
  match goal with
  | |- context [foldM ?body members (0%nat, 0%nat) ?s1] =>
      set (loop := body); set (s0 := s1)
  end.
  assert (H0 : Kept p s s0).
  { unfold Kept, s0. cbn [payouts with_payouts with_payoutBatches with_nextId]. split.
    - apply update_where_keeps; [exact Hp|].
      destruct (existsb _ _) eqn:Hex; [|reflexivity].
      apply existsb_exists in Hex. destruct Hex as (k & Hk & Heq).
      apply Nat.eqb_eq in Heq. apply in_map_iff in Hk. destruct Hk as (q & Hq & Hin).
      exfalso. apply (Hne q Hin). congruence.
    - apply update_where_keys. reflexivity. }
  destruct (PayoutBatchProps.batch_loop_counts env members (0%nat, 0%nat) s0)
    as (counts & s1 & Hrun & _).
  fold loop in Hrun. rewrite Hrun. unfold savePayoutBatch, modify.
  eexists. split; [reflexivity|].
  assert (H1 : Kept p s s1).
  { revert Hrun. apply (foldM_invariant (Kept p s)); [|exact H0].
    intros q Hq counts0 st r st' Hst Hbody. unfold loop, bind in Hbody.
    destruct (processPayout env (po_id q) st) as [out st1] eqn:Hone.
    assert (Hkept : Kept p st st1).
    { apply (processPayout_others env (po_id q) p st st1 out Hone); [apply Hst|].
      intros Heq. apply (Hne q Hq). symmetry. exact Heq. }
    destruct out; injection Hbody as _ <-; apply (Kept_trans p s st st1 Hst Hkept). }
  exact H1.
Qed.

Lemma In_insertByScheduledDate (p q : Payout) (sorted : list Payout) :
  In q (insertByScheduledDate p sorted) -> q = p \/ In q sorted.
Proof.
  induction sorted as [|r rest IH]; simpl.
  - intros [<-|[]]. left. reflexivity.
  - destruct (scheduledAt r <=? scheduledAt p); simpl.
    + intros [<-|H]; [right; left; reflexivity|].
      destruct (IH H) as [->|Hin]; [left; reflexivity|right; right; exact Hin].
    + intros [<-|H]; [left; reflexivity|right; exact H].
Qed.

Lemma In_orderByScheduledDate (q : Payout) (rows : list Payout) :
  In q (orderByScheduledDate rows) -> In q rows.
Proof.
  unfold orderByScheduledDate.
  assert (H : forall sorted,
             In q (fold_left (fun sorted p => insertByScheduledDate p sorted)
                             rows sorted) ->
             In q rows \/ In q sorted).
  { induction rows as [|p rest IH]; intros sorted Hin; simpl in *; [right; exact Hin|].
    destruct (IH _ Hin) as [H|H]; [left; right; exact H|].
    destruct (In_insertByScheduledDate p q sorted H) as [->|H'];
      [left; left; reflexivity|right; exact H']. }
  intros Hin. destruct (H [] Hin) as [Hrows|[]]. exact Hrows.
Qed.

Lemma In_obj_set {V} (key : string) (v : V) (o : JsObject V) (entry : string * V) :
  In entry (obj_set key v o) -> snd entry = v \/ In entry o.
Proof.
  induction o as [|[k w] rest IH]; simpl.
  - intros [<-|[]]. left. reflexivity.
  - destruct (k =s? key); simpl.
    + intros [<-|H]; [left; reflexivity|right; right; exact H].
    + intros [<-|H]; [right; left; reflexivity|].
      destruct (IH H) as [Hv|Hin]; [left; exact Hv|right; right; exact Hin].
Qed.

Lemma obj_get_In {V} (key : string) (v : V) (o : JsObject V) :
  obj_get key o = Some v -> exists k, In (k, v) o.
Proof.
  induction o as [|[k w] rest IH]; simpl; [discriminate|].
  destruct (k =s? key).
  - intros H. injection H as ->. exists k. left. reflexivity.
  - intros H. destruct (IH H) as (k' & Hin). exists k'. right. exact Hin.
Qed.

Lemma pushToGroup_members (P : Payout -> Prop) (groups : JsObject (list Payout))
      (p : Payout) :
  (forall entry, In entry groups -> Forall P (snd entry)) ->
  P p ->
  forall entry, In entry (pushToGroup groups p) -> Forall P (snd entry).
Proof.
  intros Hgroups Hp entry. unfold pushToGroup.
  set (method := payoutMethodName (po_payoutMethod p)).
  destruct (obj_get method groups) as [members|] eqn:Hm.
  - rewrite Hm. intros Hin. apply In_obj_set in Hin. destruct Hin as [->|Hin].
    + apply Forall_app. split; [|constructor; [exact Hp|constructor]].
      destruct (obj_get_In method members groups Hm) as (k & Hk).
      apply (Hgroups (k, members) Hk).
    + apply (Hgroups entry Hin).
  - rewrite ObjectLemmas.obj_get_set_same. intros Hin.
    apply In_obj_set in Hin. destruct Hin as [->|Hin].
    + constructor; [exact Hp|constructor].
    + apply In_obj_set in Hin. destruct Hin as [->|Hin]; [constructor|].
      apply (Hgroups entry Hin).
Qed.

Lemma grouped_members (P : Payout -> Prop) (payouts : list Payout) :
  forall groups,
    (forall entry, In entry groups -> Forall P (snd entry)) ->
    Forall P payouts ->
    forall entry, In entry (fold_left pushToGroup payouts groups) ->
                  Forall P (snd entry).
Proof.
  induction payouts as [|p rest IH]; intros groups Hgroups Hall entry; simpl.
  - apply Hgroups.
  - inversion Hall as [|x xs Hp Hrest]; subst.
    apply IH; [|exact Hrest].
    apply pushToGroup_members; assumption.
Qed.

Lemma for_each_runs {A} (I : Store -> Prop) (body : A -> M unit) (xs : list A) :
  (forall x, In x xs -> forall s, I s -> exists s', body x s = (Ret tt, s') /\ I s') ->
  forall s, I s -> exists s', for_each xs body s = (Ret tt, s') /\ I s'.
Proof.
  induction xs as [|x xs IH]; intros Hbody s Hs; simpl.
  - exists s. split; [reflexivity|exact Hs].
  - destruct (Hbody x (or_introl eq_refl) s Hs) as (s1 & Hx & H1).
    destruct (IH (fun y Hy => Hbody y (or_intror Hy)) s1 H1) as (s' & Hrest & H').
    exists s'. split; [|exact H']. unfold bind. rewrite Hx. exact Hrest.
Qed.

(** X17.  The hourly run of [processScheduledPayouts] never throws, and
    it touches approved payouts that are due and no other: with unique
    payout ids, a payout that is not approved (one still waiting for
    approval, or failed, cancelled, sent) or that is scheduled after the
    start of today, or has no scheduled date, is in the table after the
    run exactly as it was before, and the run leaves the ids of the table
    as they were. *)
Theorem scheduled_run_needs_approval (env : Env) (p : Payout) (s : Store) :
  NoDup (map po_id (payouts s)) ->
  In p (payouts s) ->
  payoutStatus_eqb (po_status p) APPROVED
  && scheduledOnOrBefore (setHours (now env) 0 0 0 0) p = false ->
  exists s',
    processScheduledPayouts env s = (Ret tt, s')
    /\ In p (payouts s')
    /\ map po_id (payouts s') = map po_id (payouts s).
Proof.
  intros Hnd Hp Hskip.
  unfold processScheduledPayouts, bind, get.
  set (due := fun q => payoutStatus_eqb (po_status q) APPROVED
                       && scheduledOnOrBefore (setHours (now env) 0 0 0 0) q).
  set (pending := orderByScheduledDate (filter due (payouts s))).
  assert (Hpending : Forall (fun q => In q (payouts s) /\ po_id q <> po_id p) pending).
  { apply Forall_forall. intros q Hq. apply In_orderByScheduledDate in Hq.
    apply filter_In in Hq. destruct Hq as [Hq Hdue]. split; [exact Hq|].
    intros Heq. assert (q = p) by (apply (NoDup_map_eq po_id (payouts s)); assumption).
    subst q. unfold due in Hdue. congruence. }
  assert (Hrun : exists s',
             for_each (groupPayoutsByMethod pending)
                      (fun entry =>
                         processPayoutBatch env (payoutMethodOfString (fst entry))
                                            (snd entry)) s
             = (Ret tt, s')
             /\ Kept p s s').
  { apply (for_each_runs (Kept p s)); [|apply Kept_refl, Hp].
    intros entry Hentry st Hst.
    assert (Hmembers : Forall (fun q => In q (payouts s) /\ po_id q <> po_id p)
                              (snd entry)).
    { apply (grouped_members _ pending []); [intros ? []|exact Hpending|exact Hentry]. }
    destruct (processPayoutBatch_runs env (payoutMethodOfString (fst entry))
                                      (snd entry) p st) as (st' & Hbatch & Hkept).
    - apply Hst.
    - intros q Hq. rewrite Forall_forall in Hmembers. apply (Hmembers q Hq).
    - exists st'. split; [exact Hbatch|]. apply (Kept_trans p s st st' Hst Hkept). }
  destruct Hrun as (s' & Hrun & Hkept).
  destruct pending as [|q rest] eqn:Hlist.
  - exists s. unfold ret. split; [reflexivity|]. split; [exact Hp|reflexivity].
  - exists s'. split; [exact Hrun|]. exact Hkept.
Qed.

Lemma scheduled_run_needs_approval_witness :
  exists s',
    processScheduledPayouts Samples.env0 mixedStore = (Ret tt, s')
    /\ In (BatchSamples.bankPayout 11 100) (payouts s')
    /\ map po_id (payouts s') = map po_id (payouts mixedStore).
Proof.
  apply (scheduled_run_needs_approval
           Samples.env0 (BatchSamples.bankPayout 11 100) mixedStore).
  - simpl. repeat constructor; simpl; [intros [H|[]]; discriminate|tauto].
  - simpl. auto.
  - reflexivity.
Defined.

End ScheduledRunProps.

(* ================================================================== *)
(** ** The engine and the payout service together *)

Module ApprovalPayoutProps.

Import SettlementEngine RejectionSpec RetrySpec PayoutSpec TableLemmas.

(** X18.  Approving a calculated settlement through the payout service
    of payfac/payout creates the payout of that settlement: the settlement
    ends approved and carries the id of the new payout, and the payout is
    stored for the sub-merchant of the settlement, with the settlement's
    net amount as its amount, the engine's fee for the payout method (10,
    5 or 3) as its fee, amount - fee as its net amount, and pending when
    the amount is above the auto-approval threshold, approved otherwise. *)
Theorem approval_creates_payout
        (env : Env) (sid : Id) (approvedBy : string) (s : Store)
        (st0 : Settlement) (m : SubMerchant) :
  findSettlement sid s = Some st0 ->
  st_status st0 = ST_CALCULATED ->
  subMerchantOf s (st_subMerchantId st0) = Some m ->
  knownMethod (sm_payoutMethod m) = true ->
  exists st p s1,
    approveSettlement env (PayoutService.createPayout env) sid approvedBy s
    = (Ret st, s1)
    /\ findSettlement sid s1 = Some st
    /\ st_status st = ST_APPROVED
    /\ st_payoutId st = Some (po_id p)
    /\ payoutById (po_id p) s1 = Some p
    /\ po_subMerchantId p = sm_id m
    /\ po_payoutMethod p = payoutMethodOfString (sm_payoutMethod m)
    /\ po_amount p = st_netAmount st0
    /\ po_fee p = calculatePayoutFee (sm_payoutMethod m) (st_netAmount st0)
    /\ (po_netAmount p == st_netAmount st0 - po_fee p)%Q
    /\ po_scheduledDate p = Some (getPayoutDate env (sm_settlementCycle m))
    /\ po_status p
       = (if PayoutService.requiresApproval env (st_netAmount st0)
          then PENDING else APPROVED).
Proof.
  intros Hfind Hstatus Hm Hknown.
  assert (Hsid : st_id st0 = sid).
  { apply find_some in Hfind. apply Nat.eqb_eq. tauto. }
  unfold findSettlement in Hfind.
  unfold approveSettlement, bind at 1, get. rewrite Hfind, Hstatus.
  unfold bind at 1, saveSettlement at 1, modify at 1.
  unfold bind at 1, createPayoutForSettlement, bind at 1, get.
  set (st1 := set_st_approvedBy _ _).
  set (s0 := with_settlements _ s).
  change (subMerchantOf s0 (st_subMerchantId st1))
    with (subMerchantOf s (st_subMerchantId st0)).
  rewrite Hm.
  assert (Hdest : exists dest, getPayoutDestination m s0 = (Ret dest, s0)).
  { unfold getPayoutDestination, ret. unfold knownMethod in Hknown.
    destruct (sm_payoutMethod m =s? "bank_transfer"); [eexists; reflexivity|].
    destruct (sm_payoutMethod m =s? "instapay"); [eexists; reflexivity|].
    destruct (sm_payoutMethod m =s? "wallet"); [eexists; reflexivity|discriminate]. }
  destruct Hdest as (dest & Hdest).
  unfold bind at 1. rewrite Hdest.
  unfold bind at 1.
  unfold PayoutService.createPayout. cbn [dto_fee dto_amount dto_settlementId].
  unfold bind, PayoutService.generatePayoutReference, generateReference, freshId,
    savePayout, saveSettlement, modify, ret. cbn [snd].
  eexists; eexists; eexists. split; [reflexivity|].
  split.
  { unfold findSettlement. cbn [settlements with_settlements]. rewrite <- Hsid.
    match goal with
    | |- find _ (save_row st_id ?row _) = _ =>
        apply (ApprovalProps.find_save_row_key st_id row)
    end. }
  split; [reflexivity|]. split; [reflexivity|].
  split.
  { unfold payoutById.
    cbn [payouts with_payouts with_settlements with_nextId po_id nextId].
    match goal with
    | |- find _ (save_row po_id ?row _) = _ =>
        apply (ApprovalProps.find_save_row_key po_id row)
    end. }
  repeat (split; [reflexivity|]). reflexivity.
Qed.

Lemma approval_creates_payout_witness :
  exists st p s1,
    approveSettlement Samples.env0 (PayoutService.createPayout Samples.env0)
                      100 "ops" settledStore
    = (Ret st, s1)
    /\ st_payoutId st = Some (po_id p)
    /\ payoutById (po_id p) s1 = Some p
    /\ po_amount p = st_netAmount ApprovalSamples.calculatedSettlement.
Proof.
  destruct (approval_creates_payout
              Samples.env0 100 "ops" settledStore
              ApprovalSamples.calculatedSettlement Samples.clinic)
    as (st & p & s1 & Hrun & _ & _ & Hlink & Hstored & _ & _ & Hamount & _).
  - reflexivity.
  - reflexivity.
  - reflexivity.
  - reflexivity.
  - exists st, p, s1. repeat split; assumption.
Defined.

End ApprovalPayoutProps.

(* ================================================================== *)
(** ** The payout service with batching (unnamed/part_003) *)

Module BatchedServiceProps.

Import RetrySpec ReconciliationSpec PayoutSpec TableLemmas PayoutServiceBatched.

(** X19.  [createPayout] of the batching service always returns, and
    what it returns is the stored row: pending, for the amount and the
    settlement of the request, scheduled at the requested date or now.  A
    fee that is supplied and not zero is stored and deducted: netAmount =
    amount - fee.  When the fee is missing or zero, the fee of the schedule
    (5 InstaPay, 10 or 25 bank transfer, 3 wallet, 10 otherwise) is stored
    but not deducted: netAmount = amount. *)
Theorem schedule_fee_not_deducted (env : Env) (dto : CreatePayoutDto) (s : Store) :
  exists p s',
    createPayout env dto s = (Ret p, s')
    /\ payoutById (po_id p) s' = Some p
    /\ po_status p = PENDING
    /\ po_settlementId p = dto_settlementId dto
    /\ po_amount p = dto_amount dto
    /\ po_scheduledDate p
       = Some (match dto_scheduledDate dto with
               | Some d => d
               | None => now env
               end)
    /\ match dto_fee dto with
       | Some fee =>
           if Qeq_bool fee 0
           then po_fee p = calculatePayoutFee (dto_method dto) (dto_amount dto)
                /\ (0 < po_fee p)%Q
                /\ (po_netAmount p == dto_amount dto)%Q
           else po_fee p = fee /\ (po_netAmount p == dto_amount dto - fee)%Q
       | None =>
           po_fee p = calculatePayoutFee (dto_method dto) (dto_amount dto)
           /\ (0 < po_fee p)%Q
           /\ (po_netAmount p == dto_amount dto)%Q
       end.
Proof.
  unfold createPayout, bind, generatePayoutReference, generateReference, freshId,
    savePayout, modify, ret.
  eexists; eexists. split; [reflexivity|].
  split.
  { unfold payoutById. cbn [payouts with_payouts with_nextId].
    match goal with
    | |- find _ (save_row po_id ?row _) = _ =>
        apply (ApprovalProps.find_save_row_key po_id row)
    end. }
  repeat (split; [reflexivity|]).
  cbn [po_fee po_netAmount]. unfold Decimal.toNumber, Decimal.minus, js_or_Q.
  assert (Hpos : (0 < calculatePayoutFee (dto_method dto) (dto_amount dto))%Q).
  { unfold calculatePayoutFee.
    destruct (dto_method dto); try destruct (Qgt_bool _ _); reflexivity. }
  destruct (dto_fee dto) as [fee|]; [destruct (Qeq_bool fee 0)|].
  - split; [reflexivity|]. split; [exact Hpos|ring].
  - split; reflexivity.
  - split; [reflexivity|]. split; [exact Hpos|ring].
Qed.

(** X20.  [processSinglePayout] never throws, and the stored payout
    follows the result.  On success the payout is completed, with the
    reference of the result and an unchanged retry count, after one call
    to the transfer service; for a bank transfer the result itself says
    sent while the stored payout says completed.  On failure the payout
    is failed and its retry count is one higher.  An InstaPay payout
    without IPA address fails without any call to the transfer service. *)
Theorem processSinglePayout_outcome (env : Env) (payout : Payout) (s : Store) :
  exists r s' p',
    processSinglePayout env payout s = (Ret r, s')
    /\ payoutById (po_id payout) s' = Some p'
    /\ (success r = true ->
        po_status p' = COMPLETED
        /\ po_processorReference p' = processorReference r
        /\ po_completedAt p' = Some (now env)
        /\ po_retryCount p' = po_retryCount payout
        /\ extCalls s' = S (extCalls s)
        /\ (po_payoutMethod payout = BANK_TRANSFER -> status r = SENT))
    /\ (success r = false ->
        po_status p' = FAILED
        /\ po_retryCount p' = po_retryCount payout + 1
        /\ po_failureMessage p' = message r)
    /\ (po_payoutMethod payout = INSTAPAY ->
        truthy_string (po_destinationIpa payout) = false ->
        success r = false
        /\ message r = Some "InstaPay IPA address is required"
        /\ extCalls s' = extCalls s).
Proof.
  unfold processSinglePayout.
  set (q1 := set_po_initiatedAt _ _).
  assert (Hid1 : po_id q1 = po_id payout) by reflexivity.
  assert (Hm : po_payoutMethod q1 = po_payoutMethod payout) by reflexivity.
  assert (Hipa : po_destinationIpa q1 = po_destinationIpa payout) by reflexivity.
  assert (Hrc : po_retryCount q1 = po_retryCount payout) by reflexivity.
  clearbody q1.
  assert (Hsaved : forall q2 rows,
             po_id q2 = po_id q1 ->
             find (fun r => Nat.eqb (po_id r) (po_id payout)) (save_row po_id q2 rows)
             = Some q2).
  { intros q2 rows H2. rewrite <- Hid1, <- H2.
    apply (ApprovalProps.find_save_row_key po_id q2). }
  unfold try_catch, bind, savePayout, modify, get, ret, throw,
    notifyPayoutSuccess, notifyPayoutFailure,
    processInstapayPayout, processBankTransferPayout, processWalletPayout,
    callRail, notify, modify, bind, get, ret.
  rewrite Hm, Hipa.
  destruct (po_payoutMethod payout) eqn:Hmethod;
    [destruct (truthy_string (po_destinationIpa payout)) eqn:Htruthy|..];
    cbn [negb extCalls with_payouts];
    try destruct (rail env (extCalls s)) as [res|e];
    cbn [success];
    try destruct (rr_success res) eqn:Hok.
  all: repeat match goal with
       | |- context [match subMerchantOf ?a ?b with _ => _ end] =>
           destruct (subMerchantOf a b)
       | |- context [if ?c then _ else _] => destruct c
       end.
  all: eexists; eexists; eexists; (split; [reflexivity|]);
    unfold payoutById;
    cbn [payouts with_payouts with_notifications with_extCalls extCalls
         success message processorReference status];
    (split; [apply Hsaved; reflexivity|]);
    cbn [po_status po_retryCount po_failureMessage po_processorReference
         po_completedAt set_po_status set_po_retryCount set_po_failureMessage
         set_po_processorReference set_po_completedAt];
    rewrite ?Hok;
    repeat split; try discriminate; try reflexivity; try lia; try congruence.
Qed.

(** X21.  [cancelPayout] cancels a pending payout and nothing else: a
    pending payout becomes cancelled, with the reason in its notes, and is
    stored so; a second cancellation throws and changes nothing, and so
    does the cancellation of any payout that is not pending. *)
Theorem cancelPayout_once
        (payoutId : Id) (reason : string) (s : Store) (p : Payout) :
  payoutById payoutId s = Some p ->
  (po_status p = PENDING ->
   exists s',
     cancelPayout payoutId reason s
     = (Ret (set_po_notes (Some reason) (set_po_status CANCELLED p)), s')
     /\ payoutById payoutId s'
        = Some (set_po_notes (Some reason) (set_po_status CANCELLED p))
     /\ forall again,
         cancelPayout payoutId again s'
         = (Throw "Cannot cancel payout in status: cancelled", s'))
  /\ (po_status p <> PENDING ->
      cancelPayout payoutId reason s
      = (Throw ("Cannot cancel payout in status: "
                  ++ payoutStatusName (po_status p))%string, s)).
Proof.
  intros Hfind. unfold payoutById in Hfind. split.
  - intros Hpending.
    unfold cancelPayout, findPayoutById, bind at 1. rewrite Hfind, Hpending.
    cbn [payoutStatus_eqb negb]. unfold bind, savePayout, modify, ret.
    eexists. split; [reflexivity|].
    assert (Hstored : find (fun r => Nat.eqb (po_id r) payoutId)
                           (save_row po_id
                              (set_po_notes (Some reason) (set_po_status CANCELLED p))
                              (payouts s))
                      = Some (set_po_notes (Some reason) (set_po_status CANCELLED p))).
    { apply (RetryProps.payoutById_save _ p); [exact Hfind|reflexivity]. }
    unfold payoutById. cbn [payouts with_payouts].
    split; [exact Hstored|].
    intros again. rewrite Hstored. reflexivity.
  - intros Hother.
    unfold cancelPayout, findPayoutById, bind. rewrite Hfind.
    destruct (po_status p); try reflexivity. exfalso. apply Hother. reflexivity.
Qed.

Lemma cancelPayout_once_witness :
  exists s',
    cancelPayout 11 "duplicate" BatchSamples.pendingStore
    = (Ret (set_po_notes (Some "duplicate")
              (set_po_status CANCELLED (BatchSamples.bankPayout 11 100))), s')
    /\ forall again,
        cancelPayout 11 again s'
        = (Throw "Cannot cancel payout in status: cancelled", s').
Proof.
  destruct (cancelPayout_once 11 "duplicate" BatchSamples.pendingStore
                              (BatchSamples.bankPayout 11 100))
    as [Hpending _]; [reflexivity|].
  destruct Hpending as (s' & Hrun & _ & Hagain); [reflexivity|].
  exists s'. split; [exact Hrun|exact Hagain].
Defined.

(** X22.  A webhook that reports a failure ('failed', 'rejected') or a
    return ('returned') for a known payout and carries no payload is not
    recorded: [handlePayoutWebhook] throws when it reads the reason, and
    the payout and everything else stay as they were.  With a payload, a
    failure is recorded whatever the status of the payout is: the payout
    becomes failed, with one more retry counted and the reason of the
    payload, or 'Payment failed' when the payload has none. *)
Theorem webhook_failure_needs_payload
        (env : Env) (provider reference status : string) (s : Store) (p : Payout) :
  payoutByReference reference s = Some p ->
  (status = "failed" \/ status = "rejected" \/ status = "returned") ->
  handlePayoutWebhook env provider reference status None s
  = (Throw "TypeError: Cannot read properties of undefined (reading 'reason')", s)
  /\ forall details,
      status <> "returned" ->
      exists s' p',
        handlePayoutWebhook env provider reference status (Some details) s
        = (Ret tt, s')
        /\ payoutById (po_id p) s' = Some p'
        /\ po_status p' = FAILED
        /\ po_retryCount p' = po_retryCount p + 1
        /\ po_failureMessage p'
           = Some (js_or_string (dt_reason details) "Payment failed")
        /\ po_processorResponse p' = Some details.
Proof.
  intros Hfind Hstatus.
  unfold payoutByReference, hasProcessorReference in Hfind.
  unfold handlePayoutWebhook, findPayoutByProcessorReference, bind at 1.
  split.
  - unfold findPayoutByProcessorReference, bind at 1.
    rewrite Hfind.
    destruct Hstatus as [-> | [-> | ->]]; reflexivity.
  - intros details Hnot.
    unfold handlePayoutWebhook, findPayoutByProcessorReference, bind at 1.
    rewrite Hfind.
    assert (Hbranch : (status =s? "completed") || (status =s? "success") = false
                      /\ (status =s? "failed") || (status =s? "rejected") = true).
    { destruct Hstatus as [-> | [-> | ->]]; [split; reflexivity..|].
      exfalso. apply Hnot. reflexivity. }
    destruct Hbranch as [Hb1 Hb2]. rewrite Hb1, Hb2.
    unfold reasonOr, bind, ret, savePayout, modify, notifyPayoutFailure, get, notify,
      modify, bind, get, ret.
    simpl (po_retryCount (set_po_retryCount _ _)).
    simpl (po_maxRetries (set_po_retryCount _ _)).
    simpl (po_subMerchantId (set_po_retryCount _ _)).
    destruct (po_retryCount p + 1 >=? po_maxRetries p);
      [destruct (subMerchantOf s (po_subMerchantId p))|];
      (eexists; eexists; split; [reflexivity|]);
      unfold payoutById; cbn [payouts with_payouts with_notifications];
      (split; [match goal with
               | |- find _ (save_row po_id ?row _) = _ =>
                   apply (ApprovalProps.find_save_row_key po_id row)
               end|]);
      repeat split.
Qed.

Lemma webhook_failure_needs_payload_witness :
  handlePayoutWebhook Samples.env0 "bank" "REF-9" "failed" None sentStore
  = (Throw "TypeError: Cannot read properties of undefined (reading 'reason')",
     sentStore).
Proof.
  apply (webhook_failure_needs_payload
           Samples.env0 "bank" "REF-9" "failed" sentStore sentPayout).
  - reflexivity.
  - left. reflexivity.
Defined.

End BatchedServiceProps.

(* ================================================================== *)
(** ** The bank-transfer batch (unnamed/part_003) *)

Module BankBatchProps.

Import RetrySpec PayoutSpec TableLemmas PayoutServiceBatched.

Lemma fold_with_payouts (g : Payout -> list Payout -> list Payout)
      (xs : list Payout) :
  forall s,
    payouts (fold_left (fun st x => with_payouts (g x) st) xs s)
    = fold_left (fun rows x => g x rows) xs (payouts s)
    /\ payoutBatches (fold_left (fun st x => with_payouts (g x) st) xs s)
       = payoutBatches s
    /\ extCalls (fold_left (fun st x => with_payouts (g x) st) xs s) = extCalls s
    /\ nextId (fold_left (fun st x => with_payouts (g x) st) xs s) = nextId s.
Proof.
  induction xs as [|x xs IH]; intros s; simpl; [auto|].
  destruct (IH (with_payouts (g x) s)) as (H1 & H2 & H3 & H4).
  rewrite H1, H2, H3, H4. auto.
Qed.

Lemma fold_save_marks {A} (key : A -> Id) (f : A -> A) (P : A -> Prop)
      (xs : list A) :
  (forall x, In x xs -> P (f x)) ->
  (forall x, key (f x) = key x) ->
  forall (rows : list A) (done : list Id),
    (forall row, In row rows -> In (key row) done -> P row) ->
    forall row,
      In row (fold_left (fun rows x => save_row key (f x) rows) xs rows) ->
      In (key row) (done ++ map key xs) ->
      P row.
Proof.
  intros HP Hkey.
  induction xs as [|x xs IH]; intros rows done Hdone row Hin Hid; simpl in *.
  - rewrite app_nil_r in Hid. apply (Hdone row Hin Hid).
  - apply (IH (fun y Hy => HP y (or_intror Hy))
              (save_row key (f x) rows) (done ++ [key x])); [|exact Hin|].
    + intros row' Hin' Hid'.
      apply ReserveProps.In_save_row_inv in Hin'. destruct Hin' as [->|[Hin' Hne]].
      * apply HP. left. reflexivity.
      * apply in_app_or in Hid'. destruct Hid' as [Hid'|[Heq|[]]].
        -- apply (Hdone row' Hin' Hid').
        -- exfalso. apply Hne. rewrite Hkey. symmetry. exact Heq.
    + rewrite <- app_assoc. exact Hid.
Qed.

Lemma fail_members (message : string) (members : list Payout) (s : Store) :
  exists s',
    for_each members (fun payout => savePayout (failedWith message payout)) s
    = (Ret tt, s')
    /\ payoutBatches s' = payoutBatches s
    /\ extCalls s' = extCalls s
    /\ nextId s' = nextId s
    /\ payouts s'
       = fold_left (fun rows q => save_row po_id (failedWith message q) rows)
                   members (payouts s).
Proof.
  unfold savePayout.
  rewrite (ReserveProps.for_each_modify
             (fun payout => with_payouts (save_row po_id (failedWith message payout)))).
  eexists. split; [reflexivity|].
  destruct (fold_with_payouts
              (fun payout => save_row po_id (failedWith message payout)) members s)
    as (H1 & H2 & H3 & H4).
  auto.
Qed.

(** X23.  [processBankTransferBatch] never throws; it makes one call to
    the bank and leaves one batch row, under a new id, that counts the
    payouts it was given.  When the bank accepts the batch, the batch stays
    in processing and every payout row of a member is sent and carries the
    batch id.  When the call to the bank throws, the batch is failed and
    every payout row of a member is a failed member: status failed, the
    error as failure message, one more retry counted.  When the bank
    answers with success false, the batch is failed and status, failure
    message and retry count of every payout row stay as they were. *)
Theorem bank_batch_outcomes (env : Env) (members : list Payout) (s : Store) :
  exists s' batch,
    processBankTransferBatch env members s = (Ret tt, s')
    /\ extCalls s' = S (extCalls s)
    /\ find (fun b => Nat.eqb (pb_id b) (nextId s)) (payoutBatches s') = Some batch
    /\ pb_payoutCount batch = List.length members
    /\ match rail env (extCalls s) with
       | Resolved result =>
           if rr_success result
           then pb_status batch = "processing"
                /\ forall p,
                    In p (payouts s') -> In (po_id p) (map po_id members) ->
                    po_status p = SENT /\ po_batchId p = Some (nextId s)
           else pb_status batch = "failed"
                /\ map po_status (payouts s') = map po_status (payouts s)
                /\ map po_retryCount (payouts s') = map po_retryCount (payouts s)
                /\ map po_failureMessage (payouts s')
                   = map po_failureMessage (payouts s)
       | Rejected message =>
           pb_status batch = "failed"
           /\ forall p,
               In p (payouts s') -> In (po_id p) (map po_id members) ->
               exists q, In q members /\ p = failedWith message q
       end.
Proof.
  unfold processBankTransferBatch.
  unfold bind at 1. unfold generateBatchReference, generateReference.
  unfold bind at 1. unfold freshId.
  unfold bind at 1. unfold savePayoutBatch at 1. unfold modify at 1.
  unfold bind at 1. unfold modify at 1.
  unfold try_catch. unfold bind at 1. unfold callRail.
  cbn [extCalls with_payouts with_payoutBatches with_nextId].
  destruct (rail env (extCalls s)) as [result|message].
  - destruct (rr_success result);
      unfold bind, modify, ret, savePayoutBatch, modify;
      (eexists; eexists; split; [reflexivity|]);
      cbn [payouts payoutBatches extCalls nextId with_payouts with_payoutBatches
           with_nextId with_extCalls];
      (split; [reflexivity|]);
      (split; [match goal with
               | |- find _ (save_row pb_id ?row _) = _ =>
                   apply (ApprovalProps.find_save_row_key pb_id row)
               end|]);
      (split; [reflexivity|]); (split; [reflexivity|]).
    + unfold update_where. intros p Hin Hmember.
      apply in_map_iff in Hin. destruct Hin as (r1 & Hp & Hin).
      apply in_map_iff in Hin. destruct Hin as (r & Hr1 & Hin).
      assert (Hid : po_id p = po_id r).
      { subst p r1.
        destruct (existsb _ _); destruct (option_Id_eqb _ _); reflexivity. }
      assert (Hex : existsb (Nat.eqb (po_id r)) (map po_id members) = true).
      { apply existsb_exists. exists (po_id r). rewrite <- Hid.
        split; [exact Hmember|apply Nat.eqb_refl]. }
      rewrite Hex in Hr1. subst r1 p.
      cbn [po_batchId set_po_batchId option_Id_eqb]. rewrite Nat.eqb_refl.
      split; reflexivity.
    + unfold update_where. rewrite !map_map.
      repeat split; apply map_ext; intros r; destruct (existsb _ _); reflexivity.
  - unfold bind at 1. unfold savePayoutBatch at 1. unfold modify at 1.
    match goal with
    | |- context [for_each members ?body ?s1] =>
        destruct (fail_members message members s1) as (s' & Hrun & Hb & Hc & _ & Hp)
    end.
    unfold failedWith in Hrun. rewrite Hrun.
    exists s'. eexists. split; [reflexivity|].
    rewrite Hb, Hc, Hp.
    cbn [payouts payoutBatches extCalls nextId with_payouts with_payoutBatches
         with_nextId with_extCalls].
    split; [reflexivity|].
    split.
    { match goal with
      | |- find _ (save_row pb_id ?row _) = _ =>
          apply (ApprovalProps.find_save_row_key pb_id row)
      end. }
    split; [reflexivity|]. split; [reflexivity|].
    intros p Hin Hmember.
    refine (fold_save_marks po_id (failedWith message)
              (fun p => exists q, In q members /\ p = failedWith message q)
              members _ _ _ [] _ p Hin Hmember).
    + intros q Hq. exists q. auto.
    + reflexivity.
    + intros row _ [].
Qed.

End BankBatchProps.

(* ================================================================== *)
(** ** What the sweeps of the batching service leave alone
       (unnamed/part_003) *)

Module SweepProps.

Import RetrySpec PayoutSpec TableLemmas PayoutServiceBatched.

Lemma single_payout_frame (env : Env) (q p : Payout) (s : Store) :
  In (po_id q) (map po_id (payouts s)) ->
  In p (payouts s) ->
  po_id p <> po_id q ->
  exists r s',
    processSinglePayout env q s = (Ret r, s')
    /\ Kept p s s'
    /\ nextId s' = nextId s.
Proof.
  intros Hq Hp Hne.
  unfold processSinglePayout.
  set (q1 := set_po_initiatedAt _ _).
  assert (Hid1 : po_id q1 = po_id q) by reflexivity.
  assert (Hm : po_payoutMethod q1 = po_payoutMethod q) by reflexivity.
  assert (Hipa : po_destinationIpa q1 = po_destinationIpa q) by reflexivity.
  clearbody q1.
  assert (Hsave : forall q2 rows,
             po_id q2 = po_id q ->
             In p rows /\ map po_id rows = map po_id (payouts s) ->
             In p (save_row po_id q2 rows)
             /\ map po_id (save_row po_id q2 rows) = map po_id (payouts s)).
  { intros q2 rows Hid [Hin Hids]. split.
    - apply save_row_keeps; [exact Hin|congruence].
    - rewrite save_row_keys; [exact Hids|]. rewrite Hid, Hids. exact Hq. }
  unfold try_catch, bind, savePayout, modify, get, ret, throw,
    notifyPayoutSuccess, notifyPayoutFailure,
    processInstapayPayout, processBankTransferPayout, processWalletPayout,
    callRail, notify, modify, bind, get, ret.
  rewrite Hm, Hipa.
  destruct (po_payoutMethod q); [destruct (truthy_string (po_destinationIpa q))|..];
    cbn [negb extCalls with_payouts];
    try destruct (rail env (extCalls s)) as [res|e];
    cbn [success];
    try destruct (rr_success res).
  all: repeat match goal with
       | |- context [match subMerchantOf ?a ?b with _ => _ end] =>
           destruct (subMerchantOf a b)
       | |- context [if ?c then _ else _] => destruct c
       end.
  all: eexists; eexists; (split; [reflexivity|]); unfold Kept;
    cbn [payouts nextId with_payouts with_notifications with_extCalls];
    (split; [|reflexivity]);
    repeat (apply Hsave; [exact Hid1|]); split; [exact Hp|reflexivity].
Qed.

(** The loop of the retry sweep and of the InstaPay and wallet groups. *)
Lemma one_by_one_frame (env : Env) (p : Payout) (s : Store) (group : list Payout) :
  (forall q, In q group -> In q (payouts s) /\ po_id q <> po_id p) ->
  forall st,
    Kept p s st ->
    exists st',
      for_each group
               (fun payout =>
                  try_catch (processSinglePayout env payout ;;; ret tt)
                            (fun _ => ret tt)) st
      = (Ret tt, st')
      /\ Kept p s st'
      /\ nextId st' = nextId st.
Proof.
  intros Hgroup st Hst.
  apply (ScheduledRunProps.for_each_runs
           (fun st' => Kept p s st' /\ nextId st' = nextId st));
    [|split; [exact Hst|reflexivity]].
  intros q Hq st0 [[Hin Hids] Hnext].
  destruct (Hgroup q Hq) as [Hqs Hne].
  destruct (single_payout_frame env q p st0) as (r & st' & Hrun & [Hin' Hids'] & Hnext').
  - rewrite Hids. apply in_map. exact Hqs.
  - exact Hin.
  - intros Heq. apply Hne. symmetry. exact Heq.
  - exists st'. unfold try_catch, bind. rewrite Hrun. unfold ret.
    split; [reflexivity|]. split; [split; [exact Hin'|congruence]|congruence].
Qed.

(** X24.  The retry sweep never throws, and it touches failed payouts
    whose retry count is below maxRetries and no other: with unique payout
    ids, a payout that is not failed, or that has used up its retries, is
    in the table after [retryFailedPayouts] exactly as it was before, and
    the sweep leaves the ids of the table as they were. *)
Theorem retry_sweep_scope (env : Env) (p : Payout) (s : Store) :
  NoDup (map po_id (payouts s)) ->
  In p (payouts s) ->
  payoutStatus_eqb (po_status p) FAILED && retriable p = false ->
  exists s',
    retryFailedPayouts env s = (Ret tt, s')
    /\ In p (payouts s')
    /\ map po_id (payouts s') = map po_id (payouts s).
Proof.
  intros Hnd Hp Hskip.
  unfold retryFailedPayouts, bind, get.
  destruct (one_by_one_frame
              env p s
              (filter retriable
                      (filter (fun q => payoutStatus_eqb (po_status q) FAILED)
                              (payouts s)))) with (st := s)
    as (s' & Hrun & [Hin Hids] & _).
  - intros q Hq. apply filter_In in Hq. destruct Hq as [Hq Hretriable].
    apply filter_In in Hq. destruct Hq as [Hq Hfailed]. split; [exact Hq|].
    intros Heq. assert (q = p) by (apply (NoDup_map_eq po_id (payouts s)); assumption).
    subst q. rewrite Hfailed, Hretriable in Hskip. discriminate.
  - split; [exact Hp|reflexivity].
  - exists s'. split; [exact Hrun|]. split; [exact Hin|exact Hids].
Qed.

(** The sweep over a table with one failed transfer that may be retried:
    the pending transfer beside it is kept. *)
Lemma retry_sweep_scope_witness :
  filter retriable
         (filter (fun q => payoutStatus_eqb (po_status q) FAILED)
                 (payouts retryStore))
  = [failedOnce]
  /\ exists s',
      retryFailedPayouts Samples.env0 retryStore = (Ret tt, s')
      /\ In (BatchSamples.bankPayout 11 100) (payouts s')
      /\ map po_id (payouts s') = map po_id (payouts retryStore).
Proof.
  split; [reflexivity|].
  apply (retry_sweep_scope Samples.env0 (BatchSamples.bankPayout 11 100) retryStore).
  - simpl. repeat constructor; simpl; [intros [H|[]]; discriminate|tauto].
  - simpl. auto.
  - reflexivity.
Defined.

Lemma fold_save_keeps {A} (key : A -> Id) (f : A -> A) (xs : list A) (other : A) :
  (forall x, key (f x) = key x) ->
  forall rows,
    In other rows ->
    ~ In (key other) (map key xs) ->
    In other (fold_left (fun rows x => save_row key (f x) rows) xs rows).
Proof.
  intros Hkey.
  induction xs as [|x xs IH]; intros rows Hin Hid; simpl in *; [exact Hin|].
  apply IH; [|tauto].
  apply save_row_keeps; [exact Hin|].
  rewrite Hkey. intros Heq. apply Hid. left. symmetry. exact Heq.
Qed.

Lemma fold_save_keys {A} (key : A -> Id) (f : A -> A) (xs : list A) :
  (forall x, key (f x) = key x) ->
  forall rows,
    (forall x, In x xs -> In (key x) (map key rows)) ->
    map key (fold_left (fun rows x => save_row key (f x) rows) xs rows)
    = map key rows.
Proof.
  intros Hkey.
  induction xs as [|x xs IH]; intros rows Hin; simpl; [reflexivity|].
  assert (Hx : map key (save_row key (f x) rows) = map key rows).
  { apply save_row_keys. rewrite Hkey. apply Hin. left. reflexivity. }
  rewrite IH; [exact Hx|].
  intros y Hy. rewrite Hx. apply Hin. right. exact Hy.
Qed.

Lemma bank_batch_frame (env : Env) (p : Payout) (members : list Payout) (s : Store) :
  In p (payouts s) ->
  (forall q, In q members ->
             In (po_id q) (map po_id (payouts s)) /\ po_id q <> po_id p) ->
  po_batchId p <> Some (nextId s) ->
  exists s', processBankTransferBatch env members s = (Ret tt, s') /\ Kept p s s'.
Proof.
  intros Hp Hmembers Hbatch.
  assert (Hnot : existsb (Nat.eqb (po_id p)) (map po_id members) = false).
  { destruct (existsb _ _) eqn:Hex; [|reflexivity].
    apply existsb_exists in Hex. destruct Hex as (k & Hk & Heq).
    apply Nat.eqb_eq in Heq. apply in_map_iff in Hk. destruct Hk as (q & Hq & Hin).
    exfalso. apply (proj2 (Hmembers q Hin)). congruence. }
  assert (Hfresh : option_Id_eqb (po_batchId p) (nextId s) = false).
  { destruct (po_batchId p) as [k|]; [|reflexivity]. simpl.
    apply Nat.eqb_neq. intros Heq. apply Hbatch. rewrite Heq. reflexivity. }
  unfold processBankTransferBatch.
  unfold bind at 1. unfold generateBatchReference, generateReference.
  unfold bind at 1. unfold freshId.
  unfold bind at 1. unfold savePayoutBatch at 1. unfold modify at 1.
  unfold bind at 1. unfold modify at 1.
  unfold try_catch. unfold bind at 1. unfold callRail.
  cbn [extCalls with_payouts with_payoutBatches with_nextId].
  set (tagged := update_where
                   (fun r => existsb (Nat.eqb (po_id r)) (map po_id members))
                   (set_po_batchId (Some (nextId s))) (payouts s)).
  assert (Htagged : In p tagged /\ map po_id tagged = map po_id (payouts s)).
  { split.
    - apply ScheduledRunProps.update_where_keeps; [exact Hp|exact Hnot].
    - apply ScheduledRunProps.update_where_keys. reflexivity. }
  destruct Htagged as [Hin Hids].
  destruct (rail env (extCalls s)) as [result|message].
  - destruct (rr_success result);
      unfold bind, modify, ret, savePayoutBatch, modify;
      (eexists; split; [reflexivity|]); unfold Kept;
      cbn [payouts payoutBatches extCalls nextId with_payouts with_payoutBatches
           with_nextId with_extCalls]; fold tagged.
    + split.
      * apply ScheduledRunProps.update_where_keeps; [exact Hin|exact Hfresh].
      * rewrite ScheduledRunProps.update_where_keys; [exact Hids|reflexivity].
    + split; [exact Hin|exact Hids].
  - unfold bind at 1. unfold savePayoutBatch at 1. unfold modify at 1.
    match goal with
    | |- context [for_each members ?body ?s1] =>
        destruct (BankBatchProps.fail_members message members s1)
          as (s' & Hrun & _ & _ & _ & Hrows)
    end.
    unfold failedWith in Hrun. rewrite Hrun.
    exists s'. split; [reflexivity|]. unfold Kept. rewrite Hrows.
    cbn [payouts with_payouts with_payoutBatches with_nextId with_extCalls].
    fold tagged. split.
    + apply (fold_save_keeps po_id (failedWith message)); [reflexivity|exact Hin|].
      intros Hmem. apply in_map_iff in Hmem. destruct Hmem as (q & Hq & Hqin).
      apply (proj2 (Hmembers q Hqin)). exact Hq.
    + rewrite (fold_save_keys po_id (failedWith message)); [exact Hids|reflexivity|].
      intros q Hq. pose proof (proj1 (Hmembers q Hq)) as Hidq.
      rewrite <- Hids in Hidq. exact Hidq.
Qed.

Lemma group_members (P : Payout -> Prop) (pending : list Payout)
      (method : PayoutMethod) (group : list Payout) :
  Forall P pending ->
  nonEmptyGroup (groupByMethod pending) method = Some group ->
  Forall P group.
Proof.
  intros Hall. unfold nonEmptyGroup, groupByMethod.
  destruct (obj_get _ _) as [[|q rest]|] eqn:Hget; try discriminate.
  intros H. injection H as <-.
  destruct (ScheduledRunProps.obj_get_In _ _ _ Hget) as (k & Hin).
  apply (ScheduledRunProps.grouped_members P pending [] (fun _ F => match F with end)
                                           Hall (k, q :: rest) Hin).
Qed.

(** X25.  The daily run of [processScheduledPayouts] in the batching
    service never throws, and it touches pending payouts that are due and
    no other: with unique payout ids, a payout that is not pending
    (cancelled, failed, completed, ...) or that is scheduled after the
    start of today, and that does not carry the id the run gives its
    batch, is in the table after the run exactly as it was before, and the
    run leaves the ids of the table as they were. *)
Theorem batched_run_scope (env : Env) (p : Payout) (s : Store) :
  NoDup (map po_id (payouts s)) ->
  In p (payouts s) ->
  payoutStatus_eqb (po_status p) PENDING
  && scheduledOnOrBefore (setHours (now env) 0 0 0 0) p = false ->
  po_batchId p <> Some (nextId s) ->
  exists s',
    processScheduledPayouts env s = (Ret tt, s')
    /\ In p (payouts s')
    /\ map po_id (payouts s') = map po_id (payouts s).
Proof.
  intros Hnd Hp Hskip Hbatch.
  unfold processScheduledPayouts, bind at 1, get.
  set (due := fun q => payoutStatus_eqb (po_status q) PENDING
                       && scheduledOnOrBefore (setHours (now env) 0 0 0 0) q).
  set (pending := orderByScheduledDate (filter due (payouts s))).
  assert (Hpending : Forall (fun q => In q (payouts s) /\ po_id q <> po_id p) pending).
  { apply Forall_forall. intros q Hq.
    apply ScheduledRunProps.In_orderByScheduledDate in Hq.
    apply filter_In in Hq. destruct Hq as [Hq Hdue]. split; [exact Hq|].
    intros Heq. assert (q = p) by (apply (NoDup_map_eq po_id (payouts s)); assumption).
    subst q. unfold due in Hdue. congruence. }
  assert (Hgroup : forall method group,
             nonEmptyGroup (groupByMethod pending) method = Some group ->
             forall q, In q group -> In q (payouts s) /\ po_id q <> po_id p).
  { intros method group Hsome. apply Forall_forall.
    apply (group_members _ pending method group Hpending Hsome). }
  assert (Hrun : exists s',
             ((match nonEmptyGroup (groupByMethod pending) INSTAPAY with
               | Some group => processInstapayPayouts env group
               | None => ret tt
               end) ;;;
              (match nonEmptyGroup (groupByMethod pending) BANK_TRANSFER with
               | Some group => processBankTransferBatch env group
               | None => ret tt
               end) ;;;
              (match nonEmptyGroup (groupByMethod pending) WALLET with
               | Some group => processWalletPayouts env group
               | None => ret tt
               end)) s
             = (Ret tt, s')
             /\ Kept p s s').
  { assert (H1 : exists s1,
               (match nonEmptyGroup (groupByMethod pending) INSTAPAY with
                | Some group => processInstapayPayouts env group
                | None => ret tt
                end) s = (Ret tt, s1)
               /\ Kept p s s1 /\ nextId s1 = nextId s).
    { destruct (nonEmptyGroup (groupByMethod pending) INSTAPAY) as [group|] eqn:Hg.
      - unfold processInstapayPayouts.
        apply (one_by_one_frame env p s group (Hgroup INSTAPAY group Hg) s).
        split; [exact Hp|reflexivity].
      - exists s. split; [reflexivity|].
        split; [split; [exact Hp|reflexivity]|reflexivity]. }
    destruct H1 as (s1 & Hrun1 & [Hin1 Hids1] & Hnext1).
    assert (H2 : exists s2,
               (match nonEmptyGroup (groupByMethod pending) BANK_TRANSFER with
                | Some group => processBankTransferBatch env group
                | None => ret tt
                end) s1 = (Ret tt, s2)
               /\ Kept p s s2).
    { destruct (nonEmptyGroup (groupByMethod pending) BANK_TRANSFER) as [group|] eqn:Hg.
      - destruct (bank_batch_frame env p group s1) as (s2 & Hrun2 & [Hin2 Hids2]).
        + exact Hin1.
        + intros q Hq. destruct (Hgroup BANK_TRANSFER group Hg q Hq) as [Hqs Hne].
          split; [|exact Hne]. rewrite Hids1. apply in_map. exact Hqs.
        + rewrite Hnext1. exact Hbatch.
        + exists s2. split; [exact Hrun2|]. split; [exact Hin2|congruence].
      - exists s1. split; [reflexivity|]. split; [exact Hin1|exact Hids1]. }
    destruct H2 as (s2 & Hrun2 & [Hin2 Hids2]).
    assert (H3 : exists s3,
               (match nonEmptyGroup (groupByMethod pending) WALLET with
                | Some group => processWalletPayouts env group
                | None => ret tt
                end) s2 = (Ret tt, s3)
               /\ Kept p s s3).
    { destruct (nonEmptyGroup (groupByMethod pending) WALLET) as [group|] eqn:Hg.
      - unfold processWalletPayouts.
        destruct (one_by_one_frame env p s group (Hgroup WALLET group Hg) s2)
          as (s3 & Hrun3 & Hkept3 & _).
        + split; [exact Hin2|exact Hids2].
        + exists s3. split; [exact Hrun3|exact Hkept3].
      - exists s2. split; [reflexivity|]. split; [exact Hin2|exact Hids2]. }
    destruct H3 as (s3 & Hrun3 & Hkept3).
    exists s3. split; [|exact Hkept3].
    unfold bind. rewrite Hrun1, Hrun2. exact Hrun3. }
  destruct Hrun as (s' & Hrun & Hkept).
  destruct pending as [|q rest] eqn:Hlist.
  - exists s. unfold ret. split; [reflexivity|]. split; [exact Hp|reflexivity].
  - exists s'. split; [exact Hrun|]. exact Hkept.
Qed.

Lemma batched_run_scope_witness :
  exists s',
    processScheduledPayouts Samples.env0 mixedStore = (Ret tt, s')
    /\ In approvedPayout (payouts s')
    /\ map po_id (payouts s') = map po_id (payouts mixedStore).
Proof.
  apply (batched_run_scope Samples.env0 approvedPayout mixedStore).
  - simpl. repeat constructor; simpl; [intros [H|[]]; discriminate|tauto].
  - simpl. auto.
  - reflexivity.
  - discriminate.
Defined.

End SweepProps.

(* ================================================================== *)
(** ** Phone numbers of the SMS service (unnamed/part_006) *)

Module PhoneProps.

Import SmsService.

Lemma removeNonDigits_allDigits (s : string) : allDigits (removeNonDigits s) = true.
Proof.
  induction s as [|c rest IH]; simpl; [reflexivity|].
  destruct (isDigit c) eqn:E; simpl; [rewrite E|]; exact IH.
Qed.

Lemma removeNonDigits_digits (s : string) :
  allDigits s = true -> removeNonDigits s = s.
Proof.
  induction s as [|c rest IH]; simpl; [reflexivity|].
  intros H. apply andb_prop in H. destruct H as [Hc Hrest].
  rewrite Hc, (IH Hrest). reflexivity.
Qed.

Lemma isOperatorDigit_isDigit (c : Ascii.ascii) :
  isOperatorDigit c = true -> isDigit c = true.
Proof.
  unfold isOperatorDigit. intros H.
  repeat (apply orb_prop in H; destruct H as [H|H]);
    apply Ascii.eqb_eq in H; subst c; reflexivity.
Qed.

Lemma localFormat_allDigits (s : string) : localFormat s = true -> allDigits s = true.
Proof.
  destruct s as [|a [|b [|c rest]]]; try discriminate. unfold localFormat.
  intros H. repeat (apply andb_prop in H; destruct H as [H ?]).
  apply Ascii.eqb_eq in H. subst a.
  match goal with Hb : Ascii.eqb b _ = true |- _ => apply Ascii.eqb_eq in Hb; subst b end.
  cbn [allDigits]. rewrite (isOperatorDigit_isDigit c) by assumption.
  simpl. assumption.
Qed.

Lemma internationalFormat_allDigits (s : string) :
  internationalFormat s = true -> allDigits s = true.
Proof.
  destruct s as [|a rest]; try discriminate. unfold internationalFormat.
  intros H. apply andb_prop in H. destruct H as [Ha Hrest].
  apply Ascii.eqb_eq in Ha. subst a.
  cbn [allDigits]. rewrite (localFormat_allDigits rest Hrest). reflexivity.
Qed.

(** What [formatPhoneNumber] does to the digits of the number. *)
Lemma formatPhoneNumber_digits (phone : string) :
  exists digits,
    formatPhoneNumber phone = String "+"%char (String "2"%char digits)
    /\ allDigits digits = true
    /\ (startsWith "0"%char (removeNonDigits phone) = true ->
        digits = removeNonDigits phone)
    /\ (startsWith "2"%char (removeNonDigits phone) = true ->
        String "2"%char digits = removeNonDigits phone).
Proof.
  unfold formatPhoneNumber.
  pose proof (removeNonDigits_allDigits phone) as Hdigits.
  destruct (removeNonDigits phone) as [|c rest]; cbn [startsWith].
  - exists EmptyString. repeat split; discriminate.
  - destruct (Ascii.eqb c "0"%char) eqn:E0.
    + exists (String c rest). apply Ascii.eqb_eq in E0. subst c.
      repeat split; try exact Hdigits. discriminate.
    + destruct (Ascii.eqb c "2"%char) eqn:E2; cbn [negb startsWith].
      * apply Ascii.eqb_eq in E2. subst c. exists rest.
        cbn [allDigits] in Hdigits. apply andb_prop in Hdigits.
        repeat split; try tauto. discriminate.
      * exists (String c rest). repeat split; try exact Hdigits; discriminate.
Qed.

(** X26.  [formatPhoneNumber] always gives a plus sign, the country code
    digit 2 and then digits only, whatever it is given, and formatting a
    formatted number changes nothing. *)
Theorem formatPhoneNumber_idempotent (phone : string) :
  formatPhoneNumber (formatPhoneNumber phone) = formatPhoneNumber phone
  /\ exists digits,
      formatPhoneNumber phone = String "+"%char (String "2"%char digits)
      /\ allDigits digits = true.
Proof.
  destruct (formatPhoneNumber_digits phone) as (digits & Hformat & Hdigits & _).
  split; [|exists digits; split; assumption].
  rewrite Hformat. unfold formatPhoneNumber.
  assert (Hclean : removeNonDigits (String "+"%char (String "2"%char digits))
                   = String "2"%char digits).
  { cbn [removeNonDigits]. change (isDigit "+"%char) with false.
    change (isDigit "2"%char) with true. cbv iota.
    rewrite (removeNonDigits_digits digits Hdigits). reflexivity. }
  rewrite Hclean. reflexivity.
Qed.

(** X27.  A number that [isValidEgyptianPhone] accepts, in any of the
    three accepted formats and with any punctuation, is formatted by
    [formatPhoneNumber] to the international format with plus sign,
    +201 and nine more digits, which [isValidEgyptianPhone] accepts
    too. *)
Theorem valid_phone_formats_to_international (phone : string) :
  isValidEgyptianPhone phone = true ->
  internationalPlusFormat (formatPhoneNumber phone) = true
  /\ isValidEgyptianPhone (formatPhoneNumber phone) = true.
Proof.
  intros Hvalid.
  assert (Hcleaned : localFormat (removeNonDigits phone) = true
                     \/ internationalFormat (removeNonDigits phone) = true).
  { unfold isValidEgyptianPhone in Hvalid. cbn [existsb] in Hvalid.
    rewrite orb_false_r in Hvalid.
    apply orb_prop in Hvalid. destruct Hvalid as [H|H].
    - apply orb_prop in H. destruct H as [H|H]; [left; exact H|].
      left. rewrite (removeNonDigits_digits phone (localFormat_allDigits phone H)).
      exact H.
    - apply orb_prop in H. destruct H as [H|H].
      + apply orb_prop in H. destruct H as [H|H]; [right; exact H|].
        right.
        rewrite (removeNonDigits_digits phone (internationalFormat_allDigits phone H)).
        exact H.
      + apply orb_prop in H. destruct H as [H|H].
        * exfalso. pose proof (removeNonDigits_allDigits phone) as Hd.
          destruct (removeNonDigits phone) as [|a rest]; [discriminate|].
          unfold internationalPlusFormat in H. apply andb_prop in H.
          destruct H as [Ha _]. apply Ascii.eqb_eq in Ha. subst a. discriminate.
        * right. destruct phone as [|a rest]; [discriminate|].
          unfold internationalPlusFormat in H. apply andb_prop in H.
          destruct H as [Ha Hrest]. apply Ascii.eqb_eq in Ha. subst a.
          cbn [removeNonDigits]. change (isDigit "+"%char) with false. cbv iota.
          rewrite (removeNonDigits_digits rest (internationalFormat_allDigits rest Hrest)).
          exact Hrest. }
  assert (Hplus : internationalPlusFormat (formatPhoneNumber phone) = true).
  { destruct (formatPhoneNumber_digits phone) as (digits & Hformat & _ & H0 & H2).
    rewrite Hformat. unfold internationalPlusFormat, internationalFormat.
    rewrite !Ascii.eqb_refl. cbn [andb].
    destruct Hcleaned as [Hlocal|Hinternational].
    - rewrite H0; [exact Hlocal|].
      destruct (removeNonDigits phone) as [|a rest]; [discriminate|].
      destruct rest as [|b [|c rest]]; try discriminate.
      unfold localFormat in Hlocal.
      repeat (apply andb_prop in Hlocal; destruct Hlocal as [Hlocal ?]).
      exact Hlocal.
    - destruct (removeNonDigits phone) as [|a rest] eqn:Hclean; [discriminate|].
      unfold internationalFormat in Hinternational.
      apply andb_prop in Hinternational. destruct Hinternational as [Ha Hrest].
      assert (Hd : String "2"%char digits = String a rest) by (apply H2; exact Ha).
      injection Hd as _ ->. exact Hrest. }
  split; [exact Hplus|].
  unfold isValidEgyptianPhone. cbn [existsb]. rewrite Hplus.
  rewrite !orb_true_r. reflexivity.
Qed.

Lemma valid_phone_formats_to_international_witness :
  internationalPlusFormat (formatPhoneNumber "010-1234-5678") = true
  /\ isValidEgyptianPhone (formatPhoneNumber "010-1234-5678") = true.
Proof.
  apply (valid_phone_formats_to_international "010-1234-5678"). reflexivity.
Defined.

End PhoneProps.

(* ================================================================== *)
(** ** Automatic approval and manual review (unnamed/part_006) *)

Module ReviewProps.

Import SettlementEngine RejectionSpec PayoutSpec.

Lemma createSettlement_books
      (env : Env) (m : SubMerchant) (date : Date) (c : SettlementCalculation)
      (s : Store) :
  exists st s1,
    createSettlement env m date c s = (Ret st, s1)
    /\ settlements s1 = save_row st_id st (settlements s)
    /\ payouts s1 = payouts s
    /\ st_status st = ST_CALCULATED
    /\ st_netAmount st = netAmount c.
Proof.
  unfold createSettlement, generateSettlementReference, generateReference,
    freshId, saveSettlement, modify, bind, ret.
  eexists. eexists. split; [reflexivity|]. repeat split.
Qed.

Lemma createSettlementItems_books
      (env : Env) (st : Settlement) (c : SettlementCalculation) (s : Store) :
  exists s1, createSettlementItems env st c s = (Ret tt, s1) /\ SameBooks s s1.
Proof.
  unfold createSettlementItems, modify. eexists. split; [reflexivity|]. split; reflexivity.
Qed.

Lemma markTransactionsSettled_books
      (env : Env) (txs : list Transaction) (sid : Id) (s : Store) :
  exists s1, markTransactionsSettled env txs sid s = (Ret tt, s1) /\ SameBooks s s1.
Proof.
  unfold markTransactionsSettled. destruct txs;
    eexists; (split; [reflexivity|]); split; reflexivity.
Qed.

Lemma markRefundsSettled_books (rfs : list Refund) (sid : Id) (s : Store) :
  exists s1, markRefundsSettled rfs sid s = (Ret tt, s1) /\ SameBooks s s1.
Proof.
  unfold markRefundsSettled. destruct rfs;
    eexists; (split; [reflexivity|]); split; reflexivity.
Qed.

Lemma markDisputesSettled_books (dps : list Dispute) (sid : Id) (s : Store) :
  exists s1, markDisputesSettled dps sid s = (Ret tt, s1) /\ SameBooks s s1.
Proof.
  unfold markDisputesSettled. destruct dps;
    eexists; (split; [reflexivity|]); split; reflexivity.
Qed.

Lemma fold_with_reserves_books (g : Reserve -> list Reserve -> list Reserve)
      (xs : list Reserve) :
  forall s, SameBooks s (fold_left (fun st x => with_reserves (g x) st) xs s).
Proof.
  induction xs as [|x xs IH]; intros s; simpl; [split; reflexivity|].
  destruct (IH (with_reserves (g x) s)) as [H1 H2]. split; [exact H1|exact H2].
Qed.

Lemma processReserves_books
      (env : Env) (m : SubMerchant) (st : Settlement) (c : SettlementCalculation)
      (s : Store) :
  exists s1, processReserves env m st c s = (Ret tt, s1) /\ SameBooks s s1.
Proof.
  unfold processReserves.
  destruct (Decimal.greaterThan (SettlementEngine.reserveHeld c) 0).
  - unfold bind at 1. unfold bind at 1. unfold freshId, modify at 1.
    rewrite (ReserveProps.for_each_modify
               (fun reserve =>
                  with_reserves
                    (save_row rs_id (ClaimSpec.release (now env) reserve)))).
    eexists. split; [reflexivity|].
    match goal with
    | |- SameBooks _ (fold_left _ _ ?s0) =>
        destruct (fold_with_reserves_books
                    (fun reserve =>
                       save_row rs_id (ClaimSpec.release (now env) reserve))
                    (releasableReserves c) s0) as [H1 H2]
    end.
    split; [exact H1|exact H2].
  - unfold bind at 1, ret at 1.
    rewrite (ReserveProps.for_each_modify
               (fun reserve =>
                  with_reserves
                    (save_row rs_id (ClaimSpec.release (now env) reserve)))).
    eexists. split; [reflexivity|].
    apply (fold_with_reserves_books
             (fun reserve => save_row rs_id (ClaimSpec.release (now env) reserve))).
Qed.

Lemma shouldAutoApprove_spec (m : SubMerchant) (net : Q) :
  shouldAutoApprove m net = true
  <-> (net <= 50000)%Q
      /\ match sm_riskScore m with
         | Some riskScore => riskScore <= 70
         | None => True
         end.
Proof.
  unfold shouldAutoApprove, Decimal.lessThanOrEqualTo.
  destruct (sm_riskScore m) as [r|].
  - destruct (Z.eqb_spec r 0) as [->|Hr]; cbn [negb andb].
    + rewrite Qle_bool_iff. split; [intros H; split; [exact H|lia]|tauto].
    + destruct (Z.gtb_spec r 70) as [Hgt|Hle].
      * split; [discriminate|]. intros [_ H]. lia.
      * rewrite Qle_bool_iff. split; [intros H; split; [exact H|lia]|tauto].
  - rewrite Qle_bool_iff. tauto.
Qed.

(** X28.  The manual-review gate of the settlement run.  A new
    settlement is approved automatically exactly when its net amount is at
    most 50000 and the risk score of the sub-merchant, if it has one, is at
    most 70.  When it is not, [calculateSettlementForMerchant] leaves the
    settlement stored as calculated and creates no payout: the payout
    table is as it was.  When it is, the stored settlement is approved by
    'system' and carries a payout id.  In both cases the settlement that
    is returned, and that the notification carries, is the calculated one:
    after an automatic approval it is not the stored settlement. *)
Theorem manual_review_gate
        (env : Env) (createPayout : CreatePayoutDto -> M Payout)
        (m : SubMerchant) (date : Date) (s s' : Store) (st : Settlement) :
  calculateSettlementForMerchant env createPayout m date s = (Ret (Some st), s') ->
  st_status st = ST_CALCULATED
  /\ (shouldAutoApprove m (st_netAmount st) = true
      <-> (st_netAmount st <= 50000)%Q
          /\ match sm_riskScore m with
             | Some riskScore => riskScore <= 70
             | None => True
             end)
  /\ (shouldAutoApprove m (st_netAmount st) = false ->
      findSettlement (st_id st) s' = Some st /\ payouts s' = payouts s)
  /\ (shouldAutoApprove m (st_netAmount st) = true ->
      exists stored,
        findSettlement (st_id st) s' = Some stored
        /\ st_status stored = ST_APPROVED
        /\ st_approvedBy stored = Some "system"
        /\ st_payoutId stored <> None)
  /\ exists before,
      notifications s' = before ++ [SettlementNotification m st].
Proof.
  unfold calculateSettlementForMerchant.
  destruct (getSettlementPeriod m date) as [ps pe].
  destruct (ClaimProps.calculateAmounts_selection s (sm_id m) ps pe) as (c & Hc & _).
  unfold bind at 1. rewrite Hc.
  destruct (_ && _); [discriminate|].
  destruct (Decimal.lessThan _ _); [discriminate|].
  destruct (createSettlement_books env m date c s)
    as (st0 & s1 & H1 & Hst1 & Hpo1 & Hstatus & Hnet).
  unfold bind at 1. rewrite H1.
  destruct (createSettlementItems_books env st0 c s1) as (s2 & H2 & [Hst2 Hpo2]).
  unfold bind at 1. rewrite H2.
  destruct (markTransactionsSettled_books env (calc_transactions c) (st_id st0) s2)
    as (s3 & H3 & [Hst3 Hpo3]).
  unfold bind at 1. rewrite H3.
  destruct (markRefundsSettled_books (calc_refunds c) (st_id st0) s3)
    as (s4 & H4 & [Hst4 Hpo4]).
  unfold bind at 1. rewrite H4.
  destruct (markDisputesSettled_books (calc_disputes c) (st_id st0) s4)
    as (s5 & H5 & [Hst5 Hpo5]).
  unfold bind at 1. rewrite H5.
  destruct (processReserves_books env m st0 c s5) as (s6 & H6 & [Hst6 Hpo6]).
  unfold bind at 1. rewrite H6.
  assert (Hstored : findSettlement (st_id st0) s6 = Some st0).
  { unfold findSettlement. rewrite Hst6, Hst5, Hst4, Hst3, Hst2, Hst1.
    apply (ApprovalProps.find_save_row_key st_id st0). }
  assert (Hpayouts : payouts s6 = payouts s) by congruence.
  rewrite <- Hnet.
  unfold bind at 1.
  destruct (shouldAutoApprove m (st_netAmount st0)) eqn:Hauto.
  - unfold bind at 1.
    destruct (approveSettlement env createPayout (st_id st0) "system" s6)
      as [[approved|e] s7] eqn:Happrove; [|discriminate].
    unfold ret at 1, bind, notify, modify, ret.
    intros H. injection H as <- <-.
    split; [exact Hstatus|].
    split; [apply shouldAutoApprove_spec|].
    rewrite Hauto. split; [discriminate|].
    split; [|eexists; reflexivity].
    intros _.
    revert Happrove.
    unfold approveSettlement at 1, bind at 1, get.
    unfold findSettlement in Hstored. rewrite Hstored, Hstatus.
    unfold bind at 1, saveSettlement at 1, modify at 1.
    unfold bind at 1, createPayoutForSettlement, bind at 1, get.
    set (st1 := set_st_approvedBy _ _).
    set (s0 := with_settlements _ s6). clearbody s0.
    destruct (subMerchantOf s0 _) as [sm|]; [|discriminate].
    unfold bind at 1.
    destruct (getPayoutDestination sm s0) as [[dest|e] s8]; [|discriminate].
    unfold bind at 1.
    match goal with
    | |- context [createPayout ?dto s8] =>
        destruct (createPayout dto s8) as [[p|e] s9]
    end; [|discriminate].
    unfold bind, saveSettlement, modify, ret. cbn [snd].
    intros H. injection H as _ <-.
    exists (set_st_payoutId (Some (po_id p)) st1).
    split.
    { unfold findSettlement. cbn [settlements with_settlements with_notifications].
      apply (ApprovalProps.find_save_row_key
               st_id (set_st_payoutId (Some (po_id p)) st1)). }
    repeat split. discriminate.
  - unfold ret at 1, bind, notify, modify, ret.
    intros H. injection H as <- <-.
    split; [exact Hstatus|].
    split; [apply shouldAutoApprove_spec|].
    rewrite Hauto. split; [|split; [discriminate|eexists; reflexivity]].
    intros _. split; [exact Hstored|exact Hpayouts].
Qed.

Lemma manual_review_gate_witness :
  exists st s',
    calculateSettlementForMerchant
      Samples.env0 (PayoutService.createPayout Samples.env0)
      ClaimSpec.clinic40 Samples.sunday ClaimSpec.oneSale
    = (Ret (Some st), s')
    /\ st_status st = ST_CALCULATED
    /\ exists before, notifications s' = before ++ [SettlementNotification ClaimSpec.clinic40 st].
Proof.
  assert (Hrun : exists st s',
             calculateSettlementForMerchant
               Samples.env0 (PayoutService.createPayout Samples.env0)
               ClaimSpec.clinic40 Samples.sunday ClaimSpec.oneSale
             = (Ret (Some st), s')).
  { eexists; eexists. vm_compute. reflexivity. }
  destruct Hrun as (st & s' & Hrun).
  destruct (manual_review_gate
              Samples.env0 (PayoutService.createPayout Samples.env0)
              ClaimSpec.clinic40 Samples.sunday ClaimSpec.oneSale s' st Hrun)
    as (Hstatus & _ & _ & _ & Hnote).
  exists st, s'. split; [exact Hrun|]. split; [exact Hstatus|exact Hnote].
Defined.

End ReviewProps.

(* ================================================================== *)
(** ** Payout statistics (unnamed/part_003) *)

Module StatsProps.

Import PayoutServiceBatched.

Local Open Scope Q_scope.

Lemma sumNetAmount_from (rows : list Payout) :
  forall init : Q,
    fold_left (fun sum p => sum + po_netAmount p) rows init
    == init + fold_left (fun sum p => sum + po_netAmount p) rows 0.
Proof.
  induction rows as [|p rest IH]; intros init; simpl; [ring|].
  rewrite (IH (init + po_netAmount p)), (IH (0 + po_netAmount p)). ring.
Qed.

Lemma sumNetAmount_cons (p : Payout) (rows : list Payout) :
  sumNetAmount (p :: rows) == po_netAmount p + sumNetAmount rows.
Proof.
  unfold sumNetAmount. cbn [fold_left].
  rewrite (sumNetAmount_from rows (0 + po_netAmount p)). ring.
Qed.

Lemma sumNetAmount_nonneg (rows : list Payout) :
  (forall p, In p rows -> 0 <= po_netAmount p) -> 0 <= sumNetAmount rows.
Proof.
  induction rows as [|p rows IH]; intros Hpos; [apply Qle_refl|].
  rewrite sumNetAmount_cons.
  assert (H1 : 0 <= po_netAmount p) by (apply Hpos; left; reflexivity).
  assert (H2 : 0 <= sumNetAmount rows) by (apply IH; intros q Hq; apply Hpos; right; exact Hq).
  lra.
Qed.

Lemma sumNetAmount_scope (scope keep : Payout -> bool) (rows : list Payout) :
  (forall p, In p rows -> 0 <= po_netAmount p) ->
  sumNetAmount (filter (fun p => scope p && keep p) rows)
  <= sumNetAmount (filter (fun p => true && keep p) rows).
Proof.
  induction rows as [|p rows IH]; intros Hpos; [apply Qle_refl|].
  assert (Hp : 0 <= po_netAmount p) by (apply Hpos; left; reflexivity).
  assert (Hrest : sumNetAmount (filter (fun p => scope p && keep p) rows)
                  <= sumNetAmount (filter (fun p => true && keep p) rows)).
  { apply IH. intros q Hq. apply Hpos. right. exact Hq. }
  cbn [filter andb].
  destruct (scope p), (keep p); cbn [andb] in Hrest |- *;
    rewrite ?sumNetAmount_cons; lra.
Qed.

Lemma filter_scope_length (scope keep : Payout -> bool) (rows : list Payout) :
  (List.length (filter (fun p => scope p && keep p) rows)
   <= List.length (filter (fun p => true && keep p) rows))%nat.
Proof.
  induction rows as [|p rows IH]; [simpl; lia|].
  cbn [filter andb]. cbn [andb] in IH.
  destruct (scope p), (keep p); cbn [andb List.length]; lia.
Qed.

(** X29.  [getPayoutStats] reads only, and the sub-merchant it is asked
    about restricts totalPaid, pendingAmount and failedCount but not
    todayPaid: todayPaid is the sum over the payouts of all sub-merchants
    completed since the start of today, the same value for every
    sub-merchant.  The failed count for one sub-merchant is at most the
    count over all, and so are totalPaid and pendingAmount when no net
    amount is negative. *)
Theorem todayPaid_ignores_subMerchant (env : Env) (subMerchantId : Id) (s : Store) :
  exists stats overall,
    getPayoutStats env (Some subMerchantId) s = (Ret stats, s)
    /\ getPayoutStats env None s = (Ret overall, s)
    /\ todayPaid stats = todayPaid overall
    /\ todayPaid stats
       = sumNetAmount
           (filter (fun p => payoutStatus_eqb (po_status p) COMPLETED
                             && completedSince (setHours (now env) 0 0 0 0) p)
                   (payouts s))
    /\ (failedCount stats <= failedCount overall)%nat
    /\ ((forall p, In p (payouts s) -> 0 <= po_netAmount p) ->
        totalPaid stats <= totalPaid overall
        /\ pendingAmount stats <= pendingAmount overall).
Proof.
  unfold getPayoutStats, bind, get, ret.
  eexists; eexists. split; [reflexivity|]. split; [reflexivity|].
  cbn [todayPaid failedCount totalPaid pendingAmount statsScope].
  split; [reflexivity|]. split; [reflexivity|].
  split.
  - apply (filter_scope_length
             (fun p => Nat.eqb (po_subMerchantId p) subMerchantId)
             (fun p => payoutStatus_eqb (po_status p) FAILED)).
  - intros Hpos. split.
    + apply (sumNetAmount_scope
               (fun p => Nat.eqb (po_subMerchantId p) subMerchantId)
               (fun p => payoutStatus_eqb (po_status p) COMPLETED) _ Hpos).
    + apply (sumNetAmount_scope
               (fun p => Nat.eqb (po_subMerchantId p) subMerchantId)
               (fun p => payoutStatus_eqb (po_status p) PENDING) _ Hpos).
Qed.

End StatsProps.
